(** * PrivacyKit SDK: adapters, retry helper and note codec

    A shallow embedding of the TypeScript sources of the PrivacyKit SDK
    (packages/sdk/src): the [retry] helper and the byte/hex helpers of
    [utils/index.ts], and the ShadowWire, Arcium, Privacy Cash and Noir
    adapters of [adapters/].

    Conventions of the embedding.
    - A JavaScript string is a [string]; the model is exact on ASCII
      strings (hex digests, token symbols, base64 text), where a UTF-16
      code unit, a UTF-8 byte and an [ascii] coincide.
    - A [Uint8Array] or [Buffer] is a [list byte].
    - A JavaScript [number] is an element of an abstract carrier [num]
      ([JsNumber]): the development never relies on how [+] and [*]
      round, and a theorem that needs a law of arithmetic states it as
      a hypothesis.
    - [async] code is a tree of requests to the outside world ([prog]);
      an adapter method threads the adapter object through it and ends
      in a value or a thrown error ([M]). *)

From Stdlib Require Import ZArith NArith List String Ascii Bool Lia.
From Stdlib Require Import DecimalString DecimalFacts DecimalPos DecimalN.
From Stdlib.Strings Require Import Byte.
Import ListNotations.

Set Warnings "-register-all".

Local Open Scope list_scope.
Local Open Scope string_scope.

(* ================================================================== *)
(** * JavaScript strings and byte arrays *)
(* ================================================================== *)

Module Js.

(** [s.slice(0, n)] and [s.slice(n)] for [0 <= n]. *)
Fixpoint str_take (n : nat) (s : string) : string :=
  match n, s with
  | S n', String c r => String c (str_take n' r)
  | _, _ => EmptyString
  end.

Fixpoint str_drop (n : nat) (s : string) : string :=
  match n, s with
  | S n', String _ r => str_drop n' r
  | _, _ => s
  end.

(** [s.slice(b, e)] for [0 <= b] and [0 <= e]. *)
Definition slice (b e : nat) (s : string) : string :=
  str_take (e - b) (str_drop b s).

(** [s.startsWith(p)]. *)
Definition startsWith (p s : string) : bool := String.prefix p s.

(** [s.includes(p)]. *)
Fixpoint includes (p s : string) : bool :=
  String.prefix p s ||
  match s with
  | EmptyString => false
  | String _ r => includes p r
  end.

(** [s.toUpperCase()] on ASCII letters. *)
Definition upper_char (c : ascii) : ascii :=
  let n := nat_of_ascii c in
  if (97 <=? n)%nat && (n <=? 122)%nat then ascii_of_nat (n - 32) else c.

Fixpoint toUpperCase (s : string) : string :=
  match s with
  | EmptyString => EmptyString
  | String c r => String (upper_char c) (toUpperCase r)
  end.

Definition is_lower (c : ascii) : bool :=
  let n := nat_of_ascii c in (97 <=? n)%nat && (n <=? 122)%nat.

Fixpoint has_lower (s : string) : bool :=
  match s with
  | EmptyString => false
  | String c r => is_lower c || has_lower r
  end.

(** A string is falsy exactly when it is empty: [s || d]. *)
Definition str_or (s d : string) : string :=
  match s with EmptyString => d | _ => s end.

(** [a || d] for an optional string. *)
Definition opt_str_or (s : option string) (d : string) : string :=
  match s with Some (String c r) => String c r | _ => d end.

(** ** parseInt(s, 16) *)

Definition hex_digit_value (c : ascii) : option Z :=
  let n := Z.of_nat (nat_of_ascii c) in
  if (48 <=? n)%Z && (n <=? 57)%Z then Some (n - 48)%Z
  else if (97 <=? n)%Z && (n <=? 102)%Z then Some (n - 87)%Z
  else if (65 <=? n)%Z && (n <=? 70)%Z then Some (n - 55)%Z
  else None.

(** White space that [parseInt] skips (the ASCII part of StrWhiteSpaceChar). *)
Definition is_white_space (c : ascii) : bool :=
  let n := nat_of_ascii c in
  ((9 <=? n)%nat && (n <=? 13)%nat) || (n =? 32)%nat.

Fixpoint skip_white_space (s : string) : string :=
  match s with
  | String c r => if is_white_space c then skip_white_space r else s
  | EmptyString => s
  end.

(** The value of the longest prefix of hexadecimal digits, [acc] being the
    value read so far; [None] when no digit was read. *)
Fixpoint hex_digits (s : string) (acc : option Z) : option Z :=
  match s with
  | String c r =>
      match hex_digit_value c with
      | Some d => hex_digits r (Some (16 * match acc with Some a => a | None => 0 end + d)%Z)
      | None => acc
      end
  | EmptyString => acc
  end.

(** [parseInt(s, 16)]; [None] is NaN.  Leading white space, a sign and a
    [0x] prefix are accepted, reading stops at the first other character. *)
Definition parseInt16 (s : string) : option Z :=
  let s1 := skip_white_space s in
  let '(neg, s2) :=
    match s1 with
    | String "-" r => (true, r)
    | String "+" r => (false, r)
    | _ => (false, s1)
    end in
  let s3 := if String.prefix "0x" s2 || String.prefix "0X" s2 then str_drop 2 s2 else s2 in
  match hex_digits s3 None with
  | Some v => Some (if neg then (- v)%Z else v)
  | None => None
  end.

(** Storing a number into a [Uint8Array] slot: NaN becomes 0, an integer is
    reduced modulo 256. *)
Definition byte_of_Z (z : Z) : byte :=
  match Byte.of_N (Z.to_N (z mod 256)) with
  | Some b => b
  | None => x00
  end.

Definition to_uint8 (v : option Z) : byte :=
  match v with Some z => byte_of_Z z | None => x00 end.

(** ** utils/index.ts: bytesToHex, hexToBytes *)

Definition hex_char (n : N) : ascii :=
  match n with
  | 0 => "0" | 1 => "1" | 2 => "2" | 3 => "3" | 4 => "4" | 5 => "5"
  | 6 => "6" | 7 => "7" | 8 => "8" | 9 => "9" | 10 => "a" | 11 => "b"
  | 12 => "c" | 13 => "d" | 14 => "e" | _ => "f"
  end%N%char.

(** [b.toString(16).padStart(2, '0')]. *)
Definition byte_to_hex (b : byte) : string :=
  String (hex_char (Byte.to_N b / 16)) (String (hex_char (Byte.to_N b mod 16)) EmptyString).

(** [bytesToHex(bytes)]: the two-digit lower-case hex of every byte, joined. *)
Fixpoint bytesToHex (bytes : list byte) : string :=
  match bytes with
  | [] => EmptyString
  | b :: r => byte_to_hex b ++ bytesToHex r
  end.

(** The loop of [hexToBytes]: [bytes[i / 2] = parseInt(cleanHex.slice(i, i + 2), 16)]
    for [i = 0, 2, 4, ...].  The array has [floor(length / 2)] slots, so the
    write for a trailing single character falls outside it and is dropped. *)
Fixpoint hex_pairs (s : string) : list byte :=
  match s with
  | String a (String b r) =>
      to_uint8 (parseInt16 (String a (String b EmptyString))) :: hex_pairs r
  | _ => []
  end.

(** [hexToBytes(hex)]. *)
Definition hexToBytes (hex : string) : list byte :=
  let cleanHex := if startsWith "0x" hex then str_drop 2 hex else hex in
  hex_pairs cleanHex.

(** [Buffer.from(str)] and [buf.toString()] on ASCII text. *)
Definition buffer_of_string (s : string) : list byte := list_byte_of_string s.
Definition string_of_buffer (b : list byte) : string := string_of_list_byte b.

(** [Buffer.alloc(n)]. *)
Definition buffer_alloc (n : nat) : list byte := repeat x00 n.

(** [source.copy(target, targetStart)]: as many bytes of [source] as fit
    between [targetStart] and the end of [target] overwrite it there. *)
Definition buffer_copy (source target : list byte) (targetStart : nat) : list byte :=
  let room := (List.length target - targetStart)%nat in
  let src := firstn room source in
  firstn targetStart target ++ src ++ skipn (targetStart + List.length src) target.

(** [buf.writeUInt8(v, offset)] for [0 <= v < 256] and an offset inside. *)
Definition writeUInt8 (v : byte) (offset : nat) (buf : list byte) : list byte :=
  buffer_copy [v] buf offset.

(** Little-endian bytes of [v]: [n] of them. *)
Fixpoint le_bytes (n : nat) (v : Z) : list byte :=
  match n with
  | O => []
  | S n' => byte_of_Z v :: le_bytes n' (v / 256)
  end.

(** [buf.writeUInt32LE(v, offset)]; Node throws a RangeError unless
    [0 <= v < 2^32]. *)
Definition writeUInt32LE (v : Z) (offset : nat) (buf : list byte) : option (list byte) :=
  if (0 <=? v)%Z && (v <? 2 ^ 32)%Z then Some (buffer_copy (le_bytes 4 v) buf offset) else None.

(** [buf.writeBigUInt64LE(v, offset)]; a RangeError unless [0 <= v < 2^64]. *)
Definition writeBigUInt64LE (v : Z) (offset : nat) (buf : list byte) : option (list byte) :=
  if (0 <=? v)%Z && (v <? 2 ^ 64)%Z then Some (buffer_copy (le_bytes 8 v) buf offset) else None.

End Js.

(* ================================================================== *)
(** * Buffer's base64 codec *)
(* ================================================================== *)

Module Base64.

Definition alphabet : string :=
  "ABCDEFGHIJKLMNOPQRSTUVWXYZabcdefghijklmnopqrstuvwxyz0123456789+/".

Definition b64_char (n : N) : ascii :=
  match String.get (N.to_nat n) alphabet with
  | Some c => c
  | None => "A"%char
  end.

Definition sextet_byte (n : N) : byte :=
  match Byte.of_N (n mod 256) with
  | Some b => b
  | None => x00
  end.

(** [buf.toString('base64')]: the standard alphabet, padded with [=]. *)
Fixpoint encode (bs : list byte) : string :=
  match bs with
  | a :: b :: c :: r =>
      let x := Byte.to_N a in
      let y := Byte.to_N b in
      let z := Byte.to_N c in
      String (b64_char (x / 4))
        (String (b64_char ((x mod 4) * 16 + y / 16))
           (String (b64_char ((y mod 16) * 4 + z / 64))
              (String (b64_char (z mod 64)) (encode r))))
  | [a; b] =>
      let x := Byte.to_N a in
      let y := Byte.to_N b in
      String (b64_char (x / 4))
        (String (b64_char ((x mod 4) * 16 + y / 16))
           (String (b64_char ((y mod 16) * 4)) "="))
  | [a] =>
      let x := Byte.to_N a in
      String (b64_char (x / 4)) (String (b64_char ((x mod 4) * 16)) "==")
  | [] => EmptyString
  end%N.

(** The value of a base64 character; Node accepts the URL-safe [-] and [_]
    beside [+] and [/]. *)
Definition unbase64 (c : ascii) : option N :=
  let n := N_of_ascii c in
  (if (65 <=? n) && (n <=? 90) then Some (n - 65)
   else if (97 <=? n) && (n <=? 122) then Some (n - 71)
   else if (48 <=? n) && (n <=? 57) then Some (n + 4)
   else if (n =? 43) || (n =? 45) then Some 62
   else if (n =? 47) || (n =? 95) then Some 63
   else None)%N.

(** The sextets Node's decoder reads: it stops at the first [=] and skips
    every other character that is not of the alphabet. *)
Fixpoint sextets (s : string) : list N :=
  match s with
  | EmptyString => []
  | String c r =>
      if Ascii.eqb c "="%char then []
      else match unbase64 c with
           | Some v => v :: sextets r
           | None => sextets r
           end
  end.

Fixpoint bytes_of_sextets (l : list N) : list byte :=
  match l with
  | a :: b :: c :: d :: r =>
      sextet_byte (a * 4 + b / 16)
        :: sextet_byte ((b mod 16) * 16 + c / 4)
        :: sextet_byte ((c mod 4) * 64 + d)
        :: bytes_of_sextets r
  | [a; b; c] =>
      [sextet_byte (a * 4 + b / 16); sextet_byte ((b mod 16) * 16 + c / 4)]
  | [a; b] => [sextet_byte (a * 4 + b / 16)]
  | _ => []
  end%N.

(** [Buffer.from(s, 'base64')]. *)
Definition decode (s : string) : list byte := bytes_of_sextets (sextets s).

End Base64.

(* ================================================================== *)
(** * JavaScript numbers *)
(* ================================================================== *)

(** The operations on [number] that the sources use.  [num] stands for
    the IEEE-754 doubles, the two zeros taken as one value. *)
Class JsNumber : Type := {
  num : Type;
  (** [a + b] and [a * b]. *)
  nadd : num -> num -> num;
  nmul : num -> num -> num;
  (** [a < b]; [a > b] is [nltb b a]. *)
  nltb : num -> num -> bool;
  (** ToBoolean: false for 0 and NaN. *)
  ntruthy : num -> bool;
  (** Number.isFinite. *)
  nfinite : num -> bool;
  (** The number of an integer literal, or of [Date.now()]. *)
  num_of_Z : Z -> num;
  (** The number of the decimal literal [m * 10^(-e)]: [0.005] is
      [num_of_decimal 5 3]. *)
  num_of_decimal : Z -> nat -> num;
  (** [Math.floor(x)] as an integer; [None] for NaN and the infinities,
      on which [BigInt] throws a RangeError. *)
  nfloor : num -> option Z;
  (** Number::toString, which JSON.stringify and template literals use. *)
  number_to_string : num -> string;
  (** The number a JSON number token denotes; [None] when the text is no
      JSON number. *)
  parse_number : string -> option num
}.

(** The characters a JSON number token is made of. *)
Definition is_number_char (c : ascii) : bool :=
  let n := nat_of_ascii c in
  ((48 <=? n)%nat && (n <=? 57)%nat) || (n =? 43)%nat || (n =? 45)%nat
  || (n =? 46)%nat || (n =? 101)%nat || (n =? 69)%nat.

Fixpoint all_chars (p : ascii -> bool) (s : string) : bool :=
  match s with
  | EmptyString => true
  | String c r => p c && all_chars p r
  end.

Definition is_number_token (s : string) : bool :=
  match s with
  | EmptyString => false
  | String _ _ => all_chars is_number_char s
  end.

(** What the note codec needs of numbers: a finite number prints as a
    number token that reads back as the same number, and the clock's
    integers are finite. *)
Class JsNumberLaws (NUM : JsNumber) : Prop := {
  number_to_string_token :
    forall x : num, nfinite x = true -> is_number_token (number_to_string x) = true;
  parse_number_to_string :
    forall x : num, nfinite x = true -> parse_number (number_to_string x) = Some x;
  nfinite_of_Z : forall z : Z, nfinite (num_of_Z z) = true
}.

(** ** Decimal numbers: a carrier to compute with

    A number with finitely many decimal digits, in fixed notation: a sign,
    an integer part and the digits after the point.  Its arithmetic is
    exact.  It prints as JavaScript prints the same value (between 1e-6
    and 1e21 in magnitude). *)
Module Dec.

Record t : Type := mk { neg : bool; int_part : N; frac : Decimal.uint }.

(** Digits after the point without the trailing zeros. *)
Definition strip (d : Decimal.uint) : Decimal.uint :=
  Decimal.rev (Decimal.nzhead (Decimal.rev d)).

Definition is_nil (d : Decimal.uint) : bool :=
  match d with Decimal.Nil => true | _ => false end.

Definition uint_eqb (a b : Decimal.uint) : bool :=
  if Decimal.uint_eq_dec a b then true else false.

(** Canonical form: no trailing zero after the point, and no negative zero. *)
Definition finite (x : t) : bool :=
  uint_eqb (strip (frac x)) (frac x)
  && negb (neg x && (int_part x =? 0)%N && is_nil (frac x)).

(** Mantissa and scale: the value is [mantissa / 10 ^ scale]. *)
Definition scale (x : t) : nat := Decimal.nb_digits (frac x).

Definition mantissa (x : t) : Z :=
  let m := (Z.of_N (int_part x) * 10 ^ Z.of_nat (scale x) + Z.of_N (N.of_uint (frac x)))%Z in
  if neg x then (- m)%Z else m.

Fixpoint zeros (n : nat) (d : Decimal.uint) : Decimal.uint :=
  match n with
  | O => d
  | S n' => Decimal.D0 (zeros n' d)
  end.

(** The [k] digits of [n], which is below [10 ^ k]. *)
Definition digits (k : nat) (n : N) : Decimal.uint :=
  match n with
  | 0%N => zeros k Decimal.Nil
  | _ => let d := N.to_uint n in zeros (k - Decimal.nb_digits d) d
  end.

Definition of_mantissa (m : Z) (k : nat) : t :=
  let a := Z.abs_N m in
  let p := (10 ^ N.of_nat k)%N in
  mk (m <? 0)%Z (a / p) (strip (digits k (a mod p))).

Definition add (x y : t) : t :=
  let k := Nat.max (scale x) (scale y) in
  of_mantissa (mantissa x * 10 ^ Z.of_nat (k - scale x)
               + mantissa y * 10 ^ Z.of_nat (k - scale y))%Z k.

Definition mul (x y : t) : t :=
  of_mantissa (mantissa x * mantissa y)%Z (scale x + scale y).

Definition ltb (x y : t) : bool :=
  (mantissa x * 10 ^ Z.of_nat (scale y) <? mantissa y * 10 ^ Z.of_nat (scale x))%Z.

Definition truthy (x : t) : bool := negb (mantissa x =? 0)%Z.

Definition floor (x : t) : option Z :=
  Some (mantissa x / 10 ^ Z.of_nat (scale x))%Z.

Definition of_Z (z : Z) : t := mk (z <? 0)%Z (Z.abs_N z) Decimal.Nil.

Definition to_string (x : t) : string :=
  (if neg x then "-" else "")
  ++ NilZero.string_of_uint (N.to_uint (int_part x))
  ++ (if is_nil (frac x) then "" else "." ++ NilEmpty.string_of_uint (frac x)).

Definition is_digit (c : ascii) : bool :=
  let n := nat_of_ascii c in (48 <=? n)%nat && (n <=? 57)%nat.

(** The longest prefix of digits, and what follows it. *)
Fixpoint span_digits (s : string) : string * string :=
  match s with
  | String c r =>
      if is_digit c then let '(a, b) := span_digits r in (String c a, b)
      else (EmptyString, s)
  | EmptyString => (EmptyString, EmptyString)
  end.

(** The integer part of a JSON number: digits with no leading zero. *)
Definition read_int (s : string) : option N :=
  match NilZero.uint_of_string s with
  | Some d => if uint_eqb (Decimal.unorm d) d then Some (N.of_uint d) else None
  | None => None
  end.

(** A JSON number in fixed notation: [-? int (. digits+)?]. *)
Definition of_string (s : string) : option t :=
  let '(sign, s1) :=
    match s with
    | String "-" r => (true, r)
    | _ => (false, s)
    end in
  let '(ip, rest) := span_digits s1 in
  match read_int ip with
  | None => None
  | Some n =>
      match rest with
      | EmptyString => Some (mk (sign && negb (n =? 0)%N) n Decimal.Nil)
      | String "." fr =>
          match fr, NilEmpty.uint_of_string fr with
          | String _ _, Some d =>
              let f := strip d in
              Some (mk (sign && negb ((n =? 0)%N && is_nil f)) n f)
          | _, _ => None
          end
      | _ => None
      end
  end.

End Dec.

Definition DecNumber : JsNumber := {|
  num := Dec.t;
  nadd := Dec.add;
  nmul := Dec.mul;
  nltb := Dec.ltb;
  ntruthy := Dec.truthy;
  nfinite := Dec.finite;
  num_of_Z := Dec.of_Z;
  num_of_decimal := Dec.of_mantissa;
  nfloor := Dec.floor;
  number_to_string := Dec.to_string;
  parse_number := Dec.of_string
|}.

(* ================================================================== *)
(** * The SDK *)
(* ================================================================== *)

Section Sdk.

Context {NUM : JsNumber}.

(** ** JSON.stringify and JSON.parse *)

Inductive json : Type :=
| JNull
| JBool (b : bool)
| JNumber (x : num)
| JString (s : string)
| JArray (l : list json)
| JObject (m : list (string * json)).

Definition quote_char : ascii := "034"%char.
Definition backslash : ascii := "092"%char.

(** How JSON.stringify writes one character of a string. *)
Definition escape_char (c : ascii) : string :=
  let n := nat_of_ascii c in
  if (n =? 34)%nat then String backslash (String quote_char EmptyString)
  else if (n =? 92)%nat then String backslash (String backslash EmptyString)
  else if (n =? 8)%nat then String backslash "b"
  else if (n =? 12)%nat then String backslash "f"
  else if (n =? 10)%nat then String backslash "n"
  else if (n =? 13)%nat then String backslash "r"
  else if (n =? 9)%nat then String backslash "t"
  else if (n <? 32)%nat then
    String backslash ("u00" ++ Js.byte_to_hex (byte_of_ascii c))
  else String c EmptyString.

Fixpoint escape_string (s : string) : string :=
  match s with
  | EmptyString => EmptyString
  | String c r => escape_char c ++ escape_string r
  end.

Definition quote (s : string) : string :=
  String quote_char (escape_string s ++ String quote_char EmptyString).

Fixpoint join (sep : string) (l : list string) : string :=
  match l with
  | [] => EmptyString
  | [x] => x
  | x :: r => x ++ sep ++ join sep r
  end.

(** A number that is not finite is written [null]. *)
Definition stringify_number (x : num) : string :=
  if nfinite x then number_to_string x else "null".

(** [JSON.stringify(j)]. *)
Fixpoint stringify (j : json) : string :=
  match j with
  | JNull => "null"
  | JBool true => "true"
  | JBool false => "false"
  | JNumber x => stringify_number x
  | JString s => quote s
  | JArray l => "[" ++ join "," (map stringify l) ++ "]"
  | JObject m =>
      "{" ++ join "," (map (fun kv => (quote (fst kv) ++ ":" ++ stringify (snd kv))%string) m)
          ++ "}"
  end.

Definition is_json_space (c : ascii) : bool :=
  let n := nat_of_ascii c in
  (n =? 32)%nat || (n =? 9)%nat || (n =? 10)%nat || (n =? 13)%nat.

Fixpoint skip_space (s : string) : string :=
  match s with
  | String c r => if is_json_space c then skip_space r else s
  | EmptyString => s
  end.

(** The longest prefix of number characters, and what follows it. *)
Fixpoint span_number (s : string) : string * string :=
  match s with
  | String c r =>
      if is_number_char c then let '(a, b) := span_number r in (String c a, b)
      else (EmptyString, s)
  | EmptyString => (EmptyString, EmptyString)
  end.

(** The character a one-letter escape stands for. *)
Definition simple_escape (e : ascii) : option ascii :=
  let n := nat_of_ascii e in
  if (n =? 34)%nat then Some quote_char
  else if (n =? 92)%nat then Some backslash
  else if (n =? 47)%nat then Some "/"%char
  else if (n =? 98)%nat then Some "008"%char
  else if (n =? 102)%nat then Some "012"%char
  else if (n =? 110)%nat then Some "010"%char
  else if (n =? 114)%nat then Some "013"%char
  else if (n =? 116)%nat then Some "009"%char
  else None.

(** The UTF-8 bytes of a code point below 2^16, as characters. *)
Definition utf8_of_code (cp : Z) : string :=
  let ch (z : Z) := ascii_of_N (Z.to_N z) in
  if (cp <? 128)%Z then String (ch cp) EmptyString
  else if (cp <? 2048)%Z then
    String (ch (192 + cp / 64)%Z) (String (ch (128 + cp mod 64)%Z) EmptyString)
  else
    String (ch (224 + cp / 4096)%Z)
      (String (ch (128 + (cp / 64) mod 64)%Z) (String (ch (128 + cp mod 64)%Z) EmptyString)).

Definition hex4 (a b c d : ascii) : option Z :=
  match Js.hex_digit_value a, Js.hex_digit_value b, Js.hex_digit_value c, Js.hex_digit_value d with
  | Some w, Some x, Some y, Some z => Some (((w * 16 + x) * 16 + y) * 16 + z)%Z
  | _, _, _, _ => None
  end.

(** The text of a string literal after its opening quote: the string it
    denotes, and what follows the closing quote.  A raw control character
    is a syntax error. *)
Fixpoint parse_string_body (s : string) : option (string * string) :=
  match s with
  | EmptyString => None
  | String c r =>
      if Ascii.eqb c quote_char then Some (EmptyString, r)
      else if Ascii.eqb c backslash then
        match r with
        | String e r1 =>
            match simple_escape e with
            | Some ch =>
                match parse_string_body r1 with
                | Some (v, rest) => Some (String ch v, rest)
                | None => None
                end
            | None =>
                if Ascii.eqb e "u"%char then
                  match r1 with
                  | String h1 (String h2 (String h3 (String h4 r2))) =>
                      match hex4 h1 h2 h3 h4, parse_string_body r2 with
                      | Some cp, Some (v, rest) => Some (utf8_of_code cp ++ v, rest)
                      | _, _ => None
                      end
                  | _ => None
                  end
                else None
            end
        | EmptyString => None
        end
      else if (nat_of_ascii c <? 32)%nat then None
      else
        match parse_string_body r with
        | Some (v, rest) => Some (String c v, rest)
        | None => None
        end
  end.

(** A JSON value at the head of [s], and what follows it.  [fuel] bounds
    the number of values, members and elements read. *)
Fixpoint parse_value (fuel : nat) (s : string) {struct fuel} : option (json * string) :=
  match fuel with
  | O => None
  | S f =>
      match skip_space s with
      | EmptyString => None
      | String c r =>
          if Ascii.eqb c quote_char then
            match parse_string_body r with
            | Some (v, rest) => Some (JString v, rest)
            | None => None
            end
          else if Ascii.eqb c "{"%char then
            match skip_space r with
            | String "}" rest => Some (JObject [], rest)
            | _ =>
                match parse_members f r with
                | Some (m, rest) => Some (JObject m, rest)
                | None => None
                end
            end
          else if Ascii.eqb c "["%char then
            match skip_space r with
            | String "]" rest => Some (JArray [], rest)
            | _ =>
                match parse_elements f r with
                | Some (l, rest) => Some (JArray l, rest)
                | None => None
                end
            end
          else if String.prefix "true" (String c r) then Some (JBool true, Js.str_drop 3 r)
          else if String.prefix "false" (String c r) then Some (JBool false, Js.str_drop 4 r)
          else if String.prefix "null" (String c r) then Some (JNull, Js.str_drop 3 r)
          else
            let '(tok, rest) := span_number (String c r) in
            match parse_number tok with
            | Some x => Some (JNumber x, rest)
            | None => None
            end
      end
  end
with parse_members (fuel : nat) (s : string) {struct fuel}
  : option (list (string * json) * string) :=
  match fuel with
  | O => None
  | S f =>
      match skip_space s with
      | String q r =>
          if Ascii.eqb q quote_char then
            match parse_string_body r with
            | Some (k, r1) =>
                match skip_space r1 with
                | String ":" r2 =>
                    match parse_value f r2 with
                    | Some (v, r3) =>
                        match skip_space r3 with
                        | String "," r4 =>
                            match parse_members f r4 with
                            | Some (m, r5) => Some ((k, v) :: m, r5)
                            | None => None
                            end
                        | String "}" r4 => Some ([(k, v)], r4)
                        | _ => None
                        end
                    | None => None
                    end
                | _ => None
                end
            | None => None
            end
          else None
      | EmptyString => None
      end
  end
with parse_elements (fuel : nat) (s : string) {struct fuel}
  : option (list json * string) :=
  match fuel with
  | O => None
  | S f =>
      match parse_value f s with
      | Some (v, r1) =>
          match skip_space r1 with
          | String "," r2 =>
              match parse_elements f r2 with
              | Some (l, r3) => Some (v :: l, r3)
              | None => None
              end
          | String "]" r2 => Some ([v], r2)
          | _ => None
          end
      | None => None
      end
  end.

(** [JSON.parse(text)]; [None] is a SyntaxError. *)
Definition JSON_parse (text : string) : option json :=
  match parse_value (S (String.length text)) text with
  | Some (v, rest) =>
      match skip_space rest with
      | EmptyString => Some v
      | _ => None
      end
  | None => None
  end.

(** The last binding of [k] in an object's members: a repeated key keeps
    its last value. *)
Fixpoint last_binding (k : string) (m : list (string * json)) : option json :=
  match m with
  | [] => None
  | (k', v) :: r =>
      match last_binding k r with
      | Some w => Some w
      | None => if String.eqb k k' then Some v else None
      end
  end.

(** [data.k] for one of the keys the note codec reads: a TypeError
    ([None]) on [null], [undefined] ([Some None]) on a value that has no
    such property. *)
Definition get_property (data : json) (k : string) : option (option json) :=
  match data with
  | JNull => None
  | JObject m => Some (last_binding k m)
  | _ => Some None
  end.

(** ToBoolean of a value read from a JSON text ([None] is [undefined]). *)
Definition js_truthy (v : option json) : bool :=
  match v with
  | None | Some JNull => false
  | Some (JBool b) => b
  | Some (JNumber x) => ntruthy x
  | Some (JString s) => negb (String.eqb s EmptyString)
  | Some (JArray _) | Some (JObject _) => true
  end.

(** ** Keys, instructions and transactions (the web3 collaborator) *)

(** A public key is its 32 bytes: [key.toBuffer()]. *)
Definition PublicKey : Type := list byte.

Definition base58_alphabet : string :=
  "123456789ABCDEFGHJKLMNPQRSTUVWXYZabcdefghijkmnopqrstuvwxyz".

Fixpoint index_of (c : ascii) (s : string) : option N :=
  match s with
  | EmptyString => None
  | String d r =>
      if Ascii.eqb c d then Some 0%N
      else match index_of c r with Some i => Some (N.succ i) | None => None end
  end.

(** Big-endian bytes of [n], none for zero; [fuel] bounds their number. *)
Fixpoint be_bytes (fuel : nat) (n : N) (acc : list byte) : list byte :=
  match fuel with
  | O => acc
  | S f =>
      if (n =? 0)%N then acc
      else be_bytes f (n / 256)%N (Base64.sextet_byte (n mod 256) :: acc)
  end.

Fixpoint base58_value (s : string) (acc : N) : option N :=
  match s with
  | EmptyString => Some acc
  | String c r =>
      match index_of c base58_alphabet with
      | Some d => base58_value r (acc * 58 + d)%N
      | None => None
      end
  end.

Fixpoint leading_ones (s : string) : nat :=
  match s with
  | String "1" r => S (leading_ones r)
  | _ => O
  end.

(** [bs58.decode(s)]; [None] when a character is not of the alphabet. *)
Definition base58_decode (s : string) : option (list byte) :=
  match base58_value s 0%N with
  | Some n => Some (repeat x00 (leading_ones s) ++ be_bytes (String.length s) n [])%list
  | None => None
  end.

Fixpoint base58_digits (fuel : nat) (n : N) (acc : string) : string :=
  match fuel with
  | O => acc
  | S f =>
      if (n =? 0)%N then acc
      else base58_digits f (n / 58)%N
             (String (match String.get (N.to_nat (n mod 58)) base58_alphabet with
                      | Some c => c
                      | None => "1"%char
                      end) acc)
  end.

Fixpoint be_value (bs : list byte) (acc : N) : N :=
  match bs with
  | [] => acc
  | b :: r => be_value r (acc * 256 + Byte.to_N b)%N
  end.

Fixpoint leading_zero_bytes (bs : list byte) : nat :=
  match bs with
  | b :: r => if Byte.eqb b x00 then S (leading_zero_bytes r) else O
  | [] => O
  end.

(** [key.toBase58()]. *)
Definition toBase58 (k : PublicKey) : string :=
  (fix ones (n : nat) : string :=
     match n with O => EmptyString | S m => String "1" (ones m) end)
    (leading_zero_bytes k)
  ++ base58_digits (2 * List.length k) (be_value k 0%N) EmptyString.

(** [new PublicKey(text)]: the decoded bytes, an error unless there are 32. *)
Definition newPublicKey (text : string) : option PublicKey :=
  match base58_decode text with
  | Some bs => if (List.length bs =? 32)%nat then Some bs else None
  | None => None
  end.

(** A key the sources build from a literal when the module is loaded. *)
Definition key_literal (text : string) : PublicKey :=
  match base58_decode text with Some bs => bs | None => [] end.

(** [PublicKey.findProgramAddressSync(seeds, programId)[0]] is a hash of
    the web3 library, taken as a parameter; [None] stands for its throwing
    (a seed longer than 32 bytes, or no viable bump). *)
Variable findProgramAddressSync : list (list byte) -> PublicKey -> option PublicKey.

Record AccountMeta : Type := {
  pubkey : PublicKey;
  isSigner : bool;
  isWritable : bool
}.

Record TransactionInstruction : Type := {
  ix_programId : PublicKey;
  ix_keys : list AccountMeta;
  ix_data : list byte
}.

Record Transaction : Type := {
  instructions : list TransactionInstruction;
  recentBlockhash : option string;
  feePayer : option PublicKey
}.

Definition SystemProgram_programId : PublicKey := key_literal "11111111111111111111111111111111".

(** ** Errors (utils/errors.ts) *)

Inductive PrivacyProvider : Type := SHADOWWIRE | ARCIUM | NOIR | PRIVACY_CASH.

Inductive PrivacyLevel : Type :=
| AMOUNT_HIDDEN | SENDER_HIDDEN | FULL_ENCRYPTED | ZK_PROVEN | COMPLIANT_POOL.

Inductive error : Type :=
| ProviderNotAvailableError (provider : PrivacyProvider)
| WalletNotConnectedError
| AmountBelowMinimumError (amount minimum : num) (token : string) (provider : PrivacyProvider)
| InsufficientBalanceError (required available : num) (token : string)
| RecipientNotFoundError (recipient : string)
| TransactionError (message : string)
| NetworkError (message : string)
(** [new Error(message)], and the TypeError, RangeError and SyntaxError
    the runtime raises. *)
| JsError (message : string)
(** A rejection by the wallet, the RPC node or the transport. *)
| Rejected (reason : string)
(** The error [wrapError] makes of one that is no PrivacyKitError. *)
| WrappedError (message : string) (cause : error)
(** [throw undefined]. *)
| ThrownUndefined.

Definition isPrivacyKitError (e : error) : bool :=
  match e with
  | JsError _ | Rejected _ | ThrownUndefined => false
  | _ => true
  end.

(** Modelled from the spec: utils/errors.ts is not among the sources.  The
    spec (section 7): adapters propagate the error kinds of the taxonomy,
    and unknown underlying errors are wrapped with a human message. *)
Definition wrapError (e : error) (message : string) : error :=
  if isPrivacyKitError e then e else WrappedError message e.

(** ** Requests to the outside world *)

Record HttpRequest : Type := {
  url : string;
  method : string;
  headers : list (string * string);
  body : option string
}.

(** A response: [res.ok] is [200 <= status < 300]; [res.text()] is [text]
    and [res.json()] parses it. *)
Record HttpResponse : Type := {
  status : Z;
  text : string
}.

Definition res_ok (r : HttpResponse) : bool :=
  (200 <=? status r)%Z && (status r <? 300)%Z.

Inductive event : Type -> Type :=
| RandomBytes (length : nat) : event (list byte)
| MathRandom : event num
| DateNow : event Z
| Sleep (ms : Z) : event unit
| Fetch (req : HttpRequest) : event (error + HttpResponse)
| SignMessage (message : list byte) : event (error + list byte)
(** [wallet.signTransaction(tx)] and the [serialize()] of its result. *)
| SignTransaction (tx : Transaction) : event (error + list byte)
| GetLatestBlockhash : event (error + (string * Z))
| SendRawTransaction (raw : list byte) : event (error + string)
| ConfirmTransaction (signature blockhash : string) (lastValidBlockHeight : Z)
    : event (error + unit)
(** A call of a function the caller passed in, known by a label only. *)
| Invoke (T : Type) (label : string) : event (error + T).

(** An asynchronous computation: a value, or a request and what is done
    with its answer. *)
Inductive prog (A : Type) : Type :=
| Ret (a : A)
| Vis (X : Type) (e : event X) (k : X -> prog A).

Arguments Ret {A} a.
Arguments Vis {A X} e k.

Fixpoint pbind {A B : Type} (p : prog A) (f : A -> prog B) : prog B :=
  match p with
  | Ret a => f a
  | Vis e k => Vis e (fun x => pbind (k x) f)
  end.

(** How a method ends: with a value, with a thrown error, or outside the
    model: a value from outside (a parsed note, a response body) did not
    have the shape its TypeScript type declares, and what JavaScript does
    with it is not modelled. *)
Inductive outcome (A : Type) : Type :=
| Ok (a : A)
| Thrown (e : error)
| OutOfModel (why : string).

Arguments Ok {A} a.
Arguments Thrown {A} e.
Arguments OutOfModel {A} why.

(** A method of an object of state [S]. *)
Definition M (S A : Type) : Type := S -> prog (outcome A * S).

Definition ret {S A : Type} (a : A) : M S A := fun s => Ret (Ok a, s).

Definition throw {S A : Type} (e : error) : M S A := fun s => Ret (Thrown e, s).

Definition out_of_model {S A : Type} (why : string) : M S A :=
  fun s => Ret (OutOfModel why, s).

Definition bind {S A B : Type} (m : M S A) (f : A -> M S B) : M S B :=
  fun s =>
    pbind (m s) (fun r =>
      match fst r with
      | Ok a => f a (snd r)
      | Thrown e => Ret (Thrown e, snd r)
      | OutOfModel w => Ret (OutOfModel w, snd r)
      end).

(** [try { m } catch (error) { h error }]. *)
Definition try_catch {S A : Type} (m : M S A) (h : error -> M S A) : M S A :=
  fun s =>
    pbind (m s) (fun r =>
      match fst r with
      | Thrown e => h e (snd r)
      | _ => Ret r
      end).

(** A request that cannot fail. *)
Definition perform {S X : Type} (e : event X) : M S X :=
  fun s => Vis e (fun x => Ret (Ok x, s)).

(** Awaiting a promise of the outside world: its value, or its rejection
    thrown. *)
Definition await {S X : Type} (e : event (error + X)) : M S X :=
  fun s => Vis e (fun r =>
    Ret (match r with inl err => Thrown err | inr x => Ok x end, s)).

Definition get_state {S : Type} : M S S := fun s => Ret (Ok s, s).

Definition put_state {S : Type} (s' : S) : M S unit := fun _ => Ret (Ok tt, s').

(** A pure step that may throw. *)
Definition of_option {S A : Type} (o : option A) (e : error) : M S A :=
  match o with Some a => ret a | None => throw e end.

Notation "x <- m ;; k" := (bind m (fun x => k))
  (at level 61, m at next level, right associativity).
Notation "m ;;; k" := (bind m (fun _ => k))
  (at level 61, right associativity).

(** One answered request of a run. *)
Inductive entry : Type :=
| Entry (X : Type) (e : event X) (x : X).

Arguments Entry {X} e x.

(** What the outside world answers to the [n]-th request of a run. *)
Definition world : Type := nat -> forall X : Type, event X -> X.

(** The run of [p] in a world: its result and the requests it made, in
    order, each with its answer; [n] requests were made before. *)
Fixpoint run {A : Type} (w : world) (n : nat) (p : prog A) : A * list entry :=
  match p with
  | Ret a => (a, [])
  | Vis e k =>
      let x := w n _ e in
      let r := run w (S n) (k x) in
      (fst r, Entry e x :: snd r)
  end.

(** Every way [p] can end satisfies [Q]. *)
Fixpoint always {A : Type} (Q : A -> Prop) (p : prog A) : Prop :=
  match p with
  | Ret a => Q a
  | Vis e k => forall x, always Q (k x)
  end.

(** ** utils/index.ts: retry *)

Record RetryOptions : Type := {
  maxRetries : option Z;
  baseDelayMs : option Z;
  maxDelayMs : option Z;
  shouldRetry : option (error -> bool)
}.

Definition default_options : RetryOptions :=
  {| maxRetries := None; baseDelayMs := None; maxDelayMs := None; shouldRetry := None |}.

Definition opt_or {A : Type} (o : option A) (d : A) : A :=
  match o with Some a => a | None => d end.

(** [Math.min(baseDelayMs * Math.pow(2, attempt), maxDelayMs)]. *)
Definition retry_delay (base maxDelay attempt : Z) : Z :=
  Z.min (base * 2 ^ attempt) maxDelay.

(** The [for] loop of [retry], entered with [attempt <= maxRetries] for
    [fuel] more rounds; after the loop, [throw lastError]. *)
Fixpoint retry_loop {S A : Type} (fn : M S A) (maxR base maxDelay : Z)
    (should : error -> bool) (fuel : nat) (attempt : Z) (lastError : option error)
    : M S A :=
  match fuel with
  | O => throw (opt_or lastError ThrownUndefined)
  | S fuel' =>
      try_catch fn (fun err =>
        if (attempt =? maxR)%Z || negb (should err) then throw err
        else
          perform (Sleep (retry_delay base maxDelay attempt)) ;;;
          retry_loop fn maxR base maxDelay should fuel' (attempt + 1)%Z (Some err))
  end.

(** [retry(fn, options)], for an integer [maxRetries]: the loop runs for
    [attempt = 0 .. maxRetries]. *)
Definition retry {S A : Type} (fn : M S A) (options : RetryOptions) : M S A :=
  let maxR := opt_or (maxRetries options) 3%Z in
  let base := opt_or (baseDelayMs options) 1000%Z in
  let maxDelay := opt_or (maxDelayMs options) 10000%Z in
  let should := opt_or (shouldRetry options) (fun _ => true) in
  retry_loop fn maxR base maxDelay should (Z.to_nat (maxR + 1)) 0%Z None.

(** ** The adapter contract (types/index.ts, adapters/base.ts) *)

Record WalletAdapter : Type := { publicKey : PublicKey }.

(** Modelled from the spec: adapters/base.ts is not among the sources.  The
    spec (section 4.6): an adapter is initialised with a chain connection
    and an optional wallet; every operation first checks that the adapter
    is ready, and the error kinds are ProviderNotAvailable and
    WalletNotConnected. *)
Record BaseAdapter : Type := {
  initialized : bool;
  wallet : option WalletAdapter;
  connected : bool
}.

Definition ensureReady {S : Type} (base : S -> BaseAdapter) (p : PrivacyProvider) : M S unit :=
  fun s => if initialized (base s) then ret tt s else throw (ProviderNotAvailableError p) s.

Definition ensureWallet {S : Type} (base : S -> BaseAdapter) : M S WalletAdapter :=
  fun s =>
    match wallet (base s) with
    | Some w => ret w s
    | None => throw WalletNotConnectedError s
    end.

Definition getConnection {S : Type} (base : S -> BaseAdapter) : M S unit :=
  fun s => if connected (base s) then ret tt s else throw (JsError "Connection not initialized") s.

Record TransferOptions : Type := { customProof : option (list byte) }.

Record TransferRequest : Type := {
  tr_recipient : string + PublicKey;
  tr_amount : num;
  tr_token : string;
  tr_privacy : PrivacyLevel;
  tr_options : option TransferOptions
}.

Record TransferResult : Type := {
  tres_signature : string;
  tres_provider : PrivacyProvider;
  tres_privacyLevel : PrivacyLevel;
  tres_fee : num;
  tres_anonymitySet : option num
}.

Record DepositRequest : Type := { dr_amount : num; dr_token : string }.

Record DepositResult : Type := {
  dres_signature : string;
  dres_provider : PrivacyProvider;
  dres_commitment : option string;
  dres_fee : num
}.

Record WithdrawRequest : Type := {
  wr_amount : num;
  wr_token : string;
  wr_recipient : string + PublicKey;
  wr_commitment : option string
}.

Record WithdrawResult : Type := {
  wres_signature : string;
  wres_provider : PrivacyProvider;
  wres_fee : num
}.

Inductive Operation : Type := OpTransfer | OpDeposit | OpWithdraw | OpProve.

Record EstimateRequest : Type := {
  er_operation : option Operation;
  er_amount : option num;
  er_token : option string;
  er_privacy : option PrivacyLevel
}.

Record EstimateResult : Type := {
  eres_fee : num;
  eres_tokenFee : option num;
  eres_provider : PrivacyProvider;
  eres_latencyMs : num;
  eres_anonymitySet : option num;
  eres_warnings : list string
}.

(** The number of a decimal literal: [lit 5 3] is [0.005]. *)
Definition lit (m : Z) (e : nat) : num := num_of_decimal m e.

(** [request.amount || 0]. *)
Definition amount_or_zero (a : option num) : num :=
  match a with
  | Some x => if ntruthy x then x else num_of_Z 0
  | None => num_of_Z 0
  end.

(** [(request.token || 'SOL').toUpperCase()]. *)
Definition estimate_token (t : option string) : string :=
  Js.toUpperCase (Js.opt_str_or t "SOL").

(** An own property of a table written as an object literal.  The keys the
    adapters look up are upper-cased first, and no property that an object
    literal inherits has an upper-case name ([toUpperCase_not_inherited]). *)
Fixpoint own_property {A : Type} (table : list (string * A)) (k : string) : option A :=
  match table with
  | [] => None
  | (k', v) :: r => if String.eqb k k' then Some v else own_property r k
  end.

(** The names every object inherits from [Object.prototype]. *)
Definition object_prototype_names : list string :=
  ["constructor"; "__defineGetter__"; "__defineSetter__"; "hasOwnProperty";
   "__lookupGetter__"; "__lookupSetter__"; "isPrototypeOf"; "propertyIsEnumerable";
   "toString"; "valueOf"; "__proto__"; "toLocaleString"].

Definition inherited_property (k : string) : bool :=
  existsb (String.eqb k) object_prototype_names.

(** [recipient] as text: [typeof r === 'string' ? r : r.toBase58()]. *)
Definition recipient_text (r : string + PublicKey) : string :=
  match r with inl s => s | inr k => toBase58 k end.

(** [recipient] as a key: [typeof r === 'string' ? new PublicKey(r) : r]. *)
Definition recipient_key {S : Type} (r : string + PublicKey) : M S PublicKey :=
  match r with
  | inl s => of_option (newPublicKey s) (JsError "Invalid public key input")
  | inr k => ret k
  end.

Definition json_headers : list (string * string) := [("Content-Type", "application/json")].

(** [v || d] where [v] is declared a string: [None] when [v] is truthy and
    no string. *)
Definition string_or (v : option json) (d : string) : option string :=
  if js_truthy v then
    match v with Some (JString s) => Some s | _ => None end
  else Some d.

(** [v || d] where [v] is declared a number. *)
Definition number_or (v : option json) (d : num) : option num :=
  if js_truthy v then
    match v with Some (JNumber x) => Some x | _ => None end
  else Some d.

Definition null_property_error : error :=
  JsError "TypeError: Cannot read properties of null".

Definition json_syntax_error : error := JsError "SyntaxError: Unexpected token in JSON".

(** [await res.json()]. *)
Definition res_json {S : Type} (res : HttpResponse) : M S json :=
  of_option (JSON_parse (text res)) json_syntax_error.

(** [await res.json().catch(() => ({ error: 'Unknown error' }))]. *)
Definition res_json_or_unknown (res : HttpResponse) : json :=
  match JSON_parse (text res) with
  | Some j => j
  | None => JObject [("error", JString "Unknown error")]
  end.

(** ** adapters/shadowwire.ts *)

Section ShadowWire.

(** [toSmallestUnit] of types/tokens.ts, which is not among the sources: a
    parameter.  It yields the amount in base units or throws. *)
Variable toSmallestUnit : num -> string -> error + Z.

Record ShadowWireToken : Type := {
  sw_decimals : Z;
  sw_fee : num;
  sw_minAmount : num
}.

Definition SHADOWWIRE_TOKENS : list (string * ShadowWireToken) :=
  [
    ("SOL", {| sw_decimals := 9; sw_fee := lit 5 3 (* 0.005 *); sw_minAmount := lit 1 2 (* 0.01 *) |});
    ("RADR", {| sw_decimals := 9; sw_fee := lit 3 3 (* 0.003 *); sw_minAmount := lit 1 1 (* 0.1 *) |});
    ("USDC", {| sw_decimals := 6; sw_fee := lit 1 2 (* 0.01 *); sw_minAmount := lit 1 0 (* 1 *) |});
    ("ORE", {| sw_decimals := 11; sw_fee := lit 3 3 (* 0.003 *); sw_minAmount := lit 1 3 (* 0.001 *) |});
    ("BONK", {| sw_decimals := 5; sw_fee := lit 1 2 (* 0.01 *); sw_minAmount := lit 100000 0 (* 100000 *) |});
    ("JIM", {| sw_decimals := 9; sw_fee := lit 1 2 (* 0.01 *); sw_minAmount := lit 1 0 (* 1 *) |});
    ("GODL", {| sw_decimals := 11; sw_fee := lit 1 2 (* 0.01 *); sw_minAmount := lit 1 3 (* 0.001 *) |});
    ("HUSTLE", {| sw_decimals := 9; sw_fee := lit 3 3 (* 0.003 *); sw_minAmount := lit 1 1 (* 0.1 *) |});
    ("ZEC", {| sw_decimals := 9; sw_fee := lit 1 2 (* 0.01 *); sw_minAmount := lit 1 2 (* 0.01 *) |});
    ("CRT", {| sw_decimals := 9; sw_fee := lit 1 2 (* 0.01 *); sw_minAmount := lit 1 0 (* 1 *) |});
    ("BLACKCOIN", {| sw_decimals := 6; sw_fee := lit 1 2 (* 0.01 *); sw_minAmount := lit 1 0 (* 1 *) |});
    ("GIL", {| sw_decimals := 6; sw_fee := lit 1 2 (* 0.01 *); sw_minAmount := lit 1 0 (* 1 *) |});
    ("ANON", {| sw_decimals := 9; sw_fee := lit 1 2 (* 0.01 *); sw_minAmount := lit 1 0 (* 1 *) |});
    ("WLFI", {| sw_decimals := 6; sw_fee := lit 1 2 (* 0.01 *); sw_minAmount := lit 1 0 (* 1 *) |});
    ("USD1", {| sw_decimals := 6; sw_fee := lit 1 2 (* 0.01 *); sw_minAmount := lit 1 0 (* 1 *) |});
    ("AOL", {| sw_decimals := 6; sw_fee := lit 1 2 (* 0.01 *); sw_minAmount := lit 1 0 (* 1 *) |});
    ("IQLABS", {| sw_decimals := 9; sw_fee := lit 5 3 (* 0.005 *); sw_minAmount := lit 1 1 (* 0.1 *) |});
    ("SANA", {| sw_decimals := 6; sw_fee := lit 1 2 (* 0.01 *); sw_minAmount := lit 1 0 (* 1 *) |});
    ("POKI", {| sw_decimals := 9; sw_fee := lit 1 2 (* 0.01 *); sw_minAmount := lit 1 0 (* 1 *) |});
    ("RAIN", {| sw_decimals := 6; sw_fee := lit 2 2 (* 0.02 *); sw_minAmount := lit 1 0 (* 1 *) |});
    ("HOSICO", {| sw_decimals := 9; sw_fee := lit 1 2 (* 0.01 *); sw_minAmount := lit 1 0 (* 1 *) |});
    ("SKR", {| sw_decimals := 6; sw_fee := lit 5 3 (* 0.005 *); sw_minAmount := lit 1 0 (* 1 *) |}) ]%Z.

Record ShadowWireAdapter : Type := {
  sw_base : BaseAdapter;
  sw_apiBaseUrl : string
}.

Definition SW : Type -> Type := M ShadowWireAdapter.

Definition sw_unsupported (token : string) : error :=
  JsError ("Token " ++ token ++ " not supported by ShadowWire").

(** The callback [transfer] hands to [retry]: one POST, and what becomes
    of its response. *)
Definition sw_transfer_post (api : string) (w : WalletAdapter) (request : TransferRequest)
    (token recipient transferType : string) (timestamp : Z) (signature : list byte)
    : HttpRequest :=
  {| url := api ++ "/v1/transfer";
     method := "POST";
     headers := json_headers;
     body := Some (stringify (JObject
       ([ ("sender", JString (toBase58 (publicKey w)));
          ("recipient", JString recipient);
          ("amount", JNumber (tr_amount request));
          ("token", JString token);
          ("type", JString transferType);
          ("timestamp", JNumber (num_of_Z timestamp));
          ("signature", JString (Base64.encode signature)) ]
        ++ match tr_options request with
           | Some {| customProof := Some proof |} =>
               [("customProof", JString (Base64.encode proof))]
           | _ => []
           end)%list)) |}.

Definition sw_transfer_attempt (api : string) (w : WalletAdapter) (request : TransferRequest)
    (token recipient transferType : string) (timestamp : Z) (signature : list byte) : SW json :=
  res <- await (Fetch
    (sw_transfer_post api w request token recipient transferType timestamp signature)) ;;
  if negb (res_ok res) then
    match get_property (res_json_or_unknown res) "error" with
    | None => throw null_property_error
    | Some None | Some (Some JNull) => throw (TransactionError "Transfer failed")
    | Some (Some (JString e)) =>
        if Js.includes "not found" e then throw (RecipientNotFoundError recipient)
        else if Js.includes "insufficient" e then
          throw (InsufficientBalanceError (tr_amount request) (num_of_Z 0) token)
        else throw (TransactionError (Js.str_or e "Transfer failed"))
    | Some (Some _) => out_of_model "errorData.error is no string"
    end
  else res_json res.

(** What [transfer], [deposit] and [withdraw] do with the body of the
    response once [retry] has returned it. *)
Definition sw_check_success {A : Type} (response : json) (failed : string)
    (k : string -> SW A) : SW A :=
  match get_property response "success", get_property response "error",
        get_property response "transactionId" with
  | Some success, Some err, Some txid =>
      if negb (js_truthy success) then
        match string_or err failed with
        | Some msg => throw (TransactionError msg)
        | None => out_of_model "response.error is no string"
        end
      else
        match txid with
        | Some (JString id) => k id
        | _ => out_of_model "response.transactionId is no string"
        end
  | _, _, _ => throw null_property_error
  end.

Definition sw_rethrow_typed {A : Type} (context : string) (e : error) : SW A :=
  match e with
  | InsufficientBalanceError _ _ _ | RecipientNotFoundError _ | TransactionError _ => throw e
  | _ => throw (wrapError e context)
  end.

(** The message [transfer] has the wallet sign. *)
Definition sw_transfer_message (w : WalletAdapter) (request : TransferRequest)
    (token recipient transferType : string) (timestamp : Z) : list byte :=
  Js.buffer_of_string (stringify (JObject
    [ ("action", JString "transfer");
      ("sender", JString (toBase58 (publicKey w)));
      ("recipient", JString recipient);
      ("amount", JNumber (tr_amount request));
      ("token", JString token);
      ("type", JString transferType);
      ("timestamp", JNumber (num_of_Z timestamp)) ])).

(** [ShadowWireAdapter.transfer]. *)
Definition sw_transfer (request : TransferRequest) : SW TransferResult :=
  ensureReady sw_base SHADOWWIRE ;;;
  w <- ensureWallet sw_base ;;
  let token := Js.toUpperCase (tr_token request) in
  match own_property SHADOWWIRE_TOKENS token with
  | None => throw (sw_unsupported (tr_token request))
  | Some tokenConfig =>
      if nltb (tr_amount request) (sw_minAmount tokenConfig) then
        throw (AmountBelowMinimumError (tr_amount request) (sw_minAmount tokenConfig)
                 token SHADOWWIRE)
      else
        let transferType :=
          match tr_privacy request with AMOUNT_HIDDEN => "internal" | _ => "external" end in
        let recipient := recipient_text (tr_recipient request) in
        try_catch
          (timestamp <- perform DateNow ;;
           let message :=
             sw_transfer_message w request token recipient transferType timestamp in
           signature <- await (SignMessage message) ;;
           st <- get_state ;;
           response <- retry
             (sw_transfer_attempt (sw_apiBaseUrl st) w request token recipient transferType
                timestamp signature)
             {| maxRetries := Some 2%Z; baseDelayMs := None; maxDelayMs := None;
                shouldRetry := None |} ;;
           sw_check_success response "Transfer failed" (fun id =>
             match get_property response "fee" with
             | None => throw null_property_error
             | Some fee =>
                 match number_or fee (nmul (tr_amount request) (sw_fee tokenConfig)) with
                 | Some f =>
                     ret {| tres_signature := id;
                            tres_provider := SHADOWWIRE;
                            tres_privacyLevel := tr_privacy request;
                            tres_fee := f;
                            tres_anonymitySet := None |}
                 | None => out_of_model "response.fee is no number"
                 end
             end))
          (sw_rethrow_typed "ShadowWire transfer failed")
  end.

(** The callback of [deposit] and [withdraw]: the body is built first
    (there [toSmallestUnit] may throw), then POSTed. *)
Definition sw_post_attempt (endpoint failed : string) (fields : Z -> list (string * json))
    (amount : num) (token : string) : SW json :=
  match toSmallestUnit amount token with
  | inl e => throw e
  | inr units =>
      res <- await (Fetch
        {| url := endpoint;
           method := "POST";
           headers := json_headers;
           body := Some (stringify (JObject (fields units))) |}) ;;
      if negb (res_ok res) then
        match get_property (res_json_or_unknown res) "error" with
        | None => throw null_property_error
        | Some err =>
            match string_or err failed with
            | Some msg => throw (TransactionError msg)
            | None => out_of_model "errorData.error is no string"
            end
        end
      else res_json res
  end.

Definition sw_rethrow_transaction {A : Type} (context : string) (e : error) : SW A :=
  match e with
  | TransactionError _ => throw e
  | _ => throw (wrapError e context)
  end.

Definition decimal_of_Z (z : Z) : string :=
  (if (z <? 0)%Z then "-" else "") ++ NilZero.string_of_uint (N.to_uint (Z.abs_N z)).

(** [ShadowWireAdapter.deposit]. *)
Definition sw_deposit (request : DepositRequest) : SW DepositResult :=
  ensureReady sw_base SHADOWWIRE ;;;
  w <- ensureWallet sw_base ;;
  let token := Js.toUpperCase (dr_token request) in
  match own_property SHADOWWIRE_TOKENS token with
  | None => throw (sw_unsupported (dr_token request))
  | Some tokenConfig =>
      if nltb (dr_amount request) (sw_minAmount tokenConfig) then
        throw (AmountBelowMinimumError (dr_amount request) (sw_minAmount tokenConfig)
                 token SHADOWWIRE)
      else
        try_catch
          (timestamp <- perform DateNow ;;
           let message := Js.buffer_of_string (stringify (JObject
             [ ("action", JString "deposit");
               ("wallet", JString (toBase58 (publicKey w)));
               ("amount", JNumber (dr_amount request));
               ("token", JString token);
               ("timestamp", JNumber (num_of_Z timestamp)) ])) in
           signature <- await (SignMessage message) ;;
           st <- get_state ;;
           response <- retry
             (sw_post_attempt (sw_apiBaseUrl st ++ "/v1/deposit") "Deposit failed"
                (fun units =>
                   [ ("wallet", JString (toBase58 (publicKey w)));
                     ("amount", JString (decimal_of_Z units));
                     ("token", JString token);
                     ("timestamp", JNumber (num_of_Z timestamp));
                     ("signature", JString (Base64.encode signature)) ])
                (dr_amount request) token)
             {| maxRetries := Some 2%Z; baseDelayMs := None; maxDelayMs := None;
                shouldRetry := None |} ;;
           sw_check_success response "Deposit failed" (fun id =>
             match get_property response "commitment" with
             | None => throw null_property_error
             | Some None =>
                 ret {| dres_signature := id; dres_provider := SHADOWWIRE;
                        dres_commitment := None;
                        dres_fee := nmul (dr_amount request) (sw_fee tokenConfig) |}
             | Some (Some (JString c)) =>
                 ret {| dres_signature := id; dres_provider := SHADOWWIRE;
                        dres_commitment := Some c;
                        dres_fee := nmul (dr_amount request) (sw_fee tokenConfig) |}
             | Some (Some _) => out_of_model "response.commitment is no string"
             end))
          (sw_rethrow_transaction "ShadowWire deposit failed")
  end.

(** [ShadowWireAdapter.withdraw]. *)
Definition sw_withdraw (request : WithdrawRequest) : SW WithdrawResult :=
  ensureReady sw_base SHADOWWIRE ;;;
  w <- ensureWallet sw_base ;;
  let token := Js.toUpperCase (wr_token request) in
  match own_property SHADOWWIRE_TOKENS token with
  | None => throw (sw_unsupported (wr_token request))
  | Some tokenConfig =>
      let recipient := recipient_text (wr_recipient request) in
      try_catch
        (timestamp <- perform DateNow ;;
         let message := Js.buffer_of_string (stringify (JObject
           [ ("action", JString "withdraw");
             ("wallet", JString (toBase58 (publicKey w)));
             ("recipient", JString recipient);
             ("amount", JNumber (wr_amount request));
             ("token", JString token);
             ("timestamp", JNumber (num_of_Z timestamp)) ])) in
         signature <- await (SignMessage message) ;;
         st <- get_state ;;
         response <- retry
           (sw_post_attempt (sw_apiBaseUrl st ++ "/v1/withdraw") "Withdrawal failed"
              (fun units =>
                 [ ("wallet", JString (toBase58 (publicKey w)));
                   ("recipient", JString recipient);
                   ("amount", JString (decimal_of_Z units));
                   ("token", JString token);
                   ("timestamp", JNumber (num_of_Z timestamp));
                   ("signature", JString (Base64.encode signature)) ])
              (wr_amount request) token)
           {| maxRetries := Some 2%Z; baseDelayMs := None; maxDelayMs := None;
              shouldRetry := None |} ;;
         sw_check_success response "Withdrawal failed" (fun id =>
           ret {| wres_signature := id; wres_provider := SHADOWWIRE;
                  wres_fee := nmul (wr_amount request) (sw_fee tokenConfig) |}))
        (sw_rethrow_transaction "ShadowWire withdrawal failed")
  end.

(** The callback of [getBalance]: one GET. *)
Definition sw_balance_attempt (api walletAddress token : string) : SW json :=
  res <- await (Fetch
    {| url := api ++ "/v1/balance/" ++ walletAddress ++ "?token=" ++ token;
       method := "GET";
       headers := json_headers;
       body := None |}) ;;
  if negb (res_ok res) then throw (NetworkError ("Failed to get balance: " ++ text res))
  else res_json res.

(** [ShadowWireAdapter.getBalance]. *)
Definition sw_getBalance (token : string) (address : option string) : SW num :=
  ensureReady sw_base SHADOWWIRE ;;;
  st <- get_state ;;
  let walletAddress :=
    Js.opt_str_or address
      (match wallet (sw_base st) with Some w => toBase58 (publicKey w) | None => EmptyString end) in
  if String.eqb walletAddress EmptyString then throw (JsError "No wallet address provided")
  else
    let normalizedToken := Js.toUpperCase token in
    match own_property SHADOWWIRE_TOKENS normalizedToken with
    | None => throw (sw_unsupported token)
    | Some _ =>
        try_catch
          (response <- retry (sw_balance_attempt (sw_apiBaseUrl st) walletAddress normalizedToken)
             {| maxRetries := Some 3%Z; baseDelayMs := None; maxDelayMs := None;
                shouldRetry := None |} ;;
           match get_property response "balance" with
           | None => throw null_property_error
           | Some (Some (JNumber x)) => ret x
           | Some _ => out_of_model "response.balance is no number"
           end)
          (fun e => throw (wrapError e "Failed to get ShadowWire balance"))
    end.

(** [ShadowWireAdapter.estimate]. *)
Definition sw_estimate (request : EstimateRequest) : EstimateResult :=
  let token := estimate_token (er_token request) in
  match own_property SHADOWWIRE_TOKENS token with
  | None =>
      {| eres_fee := num_of_Z 0;
         eres_tokenFee := None;
         eres_provider := SHADOWWIRE;
         eres_latencyMs := num_of_Z 0;
         eres_anonymitySet := None;
         eres_warnings := ["Token " ++ token ++ " not supported by ShadowWire"] |}
  | Some tokenConfig =>
      let amount := amount_or_zero (er_amount request) in
      let fee := nmul amount (sw_fee tokenConfig) in
      let warnings :=
        if nltb (num_of_Z 0) amount && nltb amount (sw_minAmount tokenConfig) then
          ["Amount " ++ number_to_string amount ++ " " ++ token ++ " is below minimum "
             ++ number_to_string (sw_minAmount tokenConfig)]
        else [] in
      let latencyMs :=
        match er_operation request with
        | Some OpTransfer =>
            match er_privacy request with
            | Some AMOUNT_HIDDEN => 5000%Z
            | _ => 3000%Z
            end
        | Some OpDeposit | Some OpWithdraw => 4000%Z
        | _ => 3000%Z
        end in
      {| eres_fee := fee;
         eres_tokenFee := Some fee;
         eres_provider := SHADOWWIRE;
         eres_latencyMs := num_of_Z latencyMs;
         eres_anonymitySet := Some (num_of_Z 500);
         eres_warnings := warnings |}
  end.

End ShadowWire.

(** ** Sending one instruction

    Every on-chain method builds a transaction of one instruction, asks
    for the latest blockhash, has the wallet sign, sends the raw
    transaction and waits for its confirmation; the sources repeat these
    lines in each method. *)
Definition send_and_confirm {S : Type} (w : WalletAdapter) (ix : TransactionInstruction)
    : M S string :=
  bh <- await GetLatestBlockhash ;;
  signedTx <- await (SignTransaction
    {| instructions := [ix];
       recentBlockhash := Some (fst bh);
       feePayer := Some (publicKey w) |}) ;;
  signature <- await (SendRawTransaction signedTx) ;;
  await (ConfirmTransaction signature (fst bh) (snd bh)) ;;;
  ret signature.

(** [BigInt(Math.floor(amount * scale))] written as a u64; a RangeError
    when the product is not finite or the integer does not fit. *)
Definition base_units (amount scale : num) : option Z :=
  match nfloor (nmul amount scale) with
  | Some z => if (0 <=? z)%Z && (z <? 2 ^ 64)%Z then Some z else None
  | None => None
  end.

Definition range_error : error := JsError "RangeError: value out of range".

Definition pda_error : error := JsError "Unable to find a viable program address".

(** ** adapters/arcium.ts *)

Section Arcium.

Record CSPLTokenConfig : Type := {
  cspl_mint : PublicKey;
  cspl_decimals : Z
}.

Definition CSPL_TOKENS : list (string * CSPLTokenConfig) :=
  [ ("SOL", {| cspl_mint := key_literal "So11111111111111111111111111111111111111112";
               cspl_decimals := 9 |});
    ("USDC", {| cspl_mint := key_literal "EPjFWdd5AufqSSqeM2qN1xzybapC8G4wEGGkZwyTDt1v";
                cspl_decimals := 6 |}) ].

Definition ARCIUM_CSPL_PROGRAM_ID : PublicKey :=
  key_literal "ArcCSPL1111111111111111111111111111111111".

Record MPCState : Type := {
  nodeId : string;
  sessionId : string;
  encryptedState : list byte
}.

Record ArciumAdapter : Type := {
  arc_base : BaseAdapter;
  mpcSession : option MPCState
}.

Definition ARC : Type -> Type := M ArciumAdapter.

Definition arc_unsupported (token : string) : error :=
  JsError ("Token " ++ token ++ " not supported by Arcium").

(** [initMPCSession]. *)
Definition initMPCSession : ARC MPCState :=
  st <- get_state ;;
  match mpcSession st with
  | Some session => ret session
  | None =>
      id <- perform (RandomBytes 16) ;;
      now <- perform DateNow ;;
      let session :=
        {| nodeId := "arcium-node-" ++ decimal_of_Z now;
           sessionId := Js.bytesToHex (firstn 16 (id ++ repeat x00 16));
           encryptedState := [] |} in
      put_state {| arc_base := arc_base st; mpcSession := Some session |} ;;;
      ret session
  end.

(** [encryptAmount]: the amount in units of 1e-9 as a u64, then a fresh
    12-byte nonce; the placeholder ciphertext is nonce, amount, 16 zeros. *)
Definition encryptAmount (amount : num) : ARC (list byte) :=
  match base_units amount (num_of_Z 1000000000) with
  | None => throw range_error
  | Some units =>
      nonce <- perform (RandomBytes 12) ;;
      ret (firstn 12 (nonce ++ repeat x00 12) ++ Js.le_bytes 8 units ++ repeat x00 16)%list
  end.

(** [createConfidentialTransferInstruction]. *)
Definition createConfidentialTransferInstruction (sender recipient : PublicKey)
    (amount : num) (tokenConfig : CSPLTokenConfig) : ARC TransactionInstruction :=
  encryptedAmount <- encryptAmount amount ;;
  let data := Js.buffer_alloc (1 + 32 + 32 + List.length encryptedAmount) in
  let data := Js.writeUInt8 x01 0 data in
  let data := Js.buffer_copy sender data 1 in
  let data := Js.buffer_copy recipient data 33 in
  let data := Js.buffer_copy encryptedAmount data 65 in
  ret {| ix_programId := ARCIUM_CSPL_PROGRAM_ID;
         ix_keys :=
           [ {| pubkey := sender; isSigner := true; isWritable := true |};
             {| pubkey := recipient; isSigner := false; isWritable := true |};
             {| pubkey := cspl_mint tokenConfig; isSigner := false; isWritable := false |};
             {| pubkey := SystemProgram_programId; isSigner := false; isWritable := false |} ];
         ix_data := data |}.

(** [ArciumAdapter.transfer]. *)
Definition arc_transfer (request : TransferRequest) : ARC TransferResult :=
  ensureReady arc_base ARCIUM ;;;
  w <- ensureWallet arc_base ;;
  getConnection arc_base ;;;
  let token := Js.toUpperCase (tr_token request) in
  match own_property CSPL_TOKENS token with
  | None => throw (arc_unsupported (tr_token request))
  | Some tokenConfig =>
      recipient <- recipient_key (tr_recipient request) ;;
      try_catch
        (initMPCSession ;;;
         instruction <- createConfidentialTransferInstruction (publicKey w) recipient
                          (tr_amount request) tokenConfig ;;
         signature <- send_and_confirm w instruction ;;
         ret {| tres_signature := signature;
                tres_provider := ARCIUM;
                tres_privacyLevel := FULL_ENCRYPTED;
                tres_fee := nmul (lit 2 3) (tr_amount request);
                tres_anonymitySet := Some (num_of_Z 1000) |})
        (fun e => throw (wrapError e "Arcium confidential transfer failed"))
  end.

(** [ArciumAdapter.estimate]. *)
Definition arc_estimate (request : EstimateRequest) : EstimateResult :=
  let token := estimate_token (er_token request) in
  let amount := amount_or_zero (er_amount request) in
  match own_property CSPL_TOKENS token with
  | None =>
      {| eres_fee := num_of_Z 0;
         eres_tokenFee := None;
         eres_provider := ARCIUM;
         eres_latencyMs := num_of_Z 0;
         eres_anonymitySet := None;
         eres_warnings := ["Token " ++ token ++ " not supported by Arcium"] |}
  | Some _ =>
      let latencyMs :=
        match er_operation request with
        | Some OpTransfer => 8000%Z
        | Some OpDeposit => 5000%Z
        | Some OpWithdraw => 6000%Z
        | _ => 3000%Z
        end in
      let fee := nmul amount (lit 2 3) in
      {| eres_fee := fee;
         eres_tokenFee := Some fee;
         eres_provider := ARCIUM;
         eres_latencyMs := num_of_Z latencyMs;
         eres_anonymitySet := None;
         eres_warnings := [] |}
  end.

End Arcium.

(** ** adapters/privacycash.ts *)

Section PrivacyCash.

Record PoolConfig : Type := {
  mint : PublicKey;
  decimals : Z;
  minDeposit : num;
  maxDeposit : num;
  anonymitySet : num
}.

Definition POOL_CONFIGS : list (string * PoolConfig) :=
  [ ("SOL", {| mint := key_literal "So11111111111111111111111111111111111111112";
               decimals := 9;
               minDeposit := lit 1 1 (* 0.1 *);
               maxDeposit := lit 100 0;
               anonymitySet := lit 500 0 |});
    ("USDC", {| mint := key_literal "EPjFWdd5AufqSSqeM2qN1xzybapC8G4wEGGkZwyTDt1v";
                decimals := 6;
                minDeposit := lit 10 0;
                maxDeposit := lit 10000 0;
                anonymitySet := lit 300 0 |}) ].

Definition PRIVACY_CASH_PROGRAM_ID : PublicKey :=
  key_literal "PrvCash1111111111111111111111111111111111111".

(** The interface [DepositNote]. *)
Record DepositNote : Type := {
  commitment : string;
  nullifier : string;
  secret : string;
  amount : num;
  token : string;
  timestamp : num
}.

Record MerkleProof : Type := {
  root : string;
  pathElements : list string;
  pathIndices : list num
}.

(** A [Map<string, V>]: its entries in insertion order, no key twice. *)
Fixpoint map_set {V : Type} (k : string) (v : V) (m : list (string * V)) : list (string * V) :=
  match m with
  | [] => [(k, v)]
  | (k', v') :: r => if String.eqb k k' then (k, v) :: r else (k', v') :: map_set k v r
  end.

Fixpoint map_delete {V : Type} (k : string) (m : list (string * V)) : list (string * V) :=
  match m with
  | [] => []
  | (k', v') :: r => if String.eqb k k' then r else (k', v') :: map_delete k r
  end.

Definition map_values {V : Type} (m : list (string * V)) : list V := map snd m.

Record PrivacyCashAdapter : Type := {
  pc_base : BaseAdapter;
  pc_programId : PublicKey;
  depositNotes : list (string * DepositNote);
  pc_apiBaseUrl : string
}.

Definition PC : Type -> Type := M PrivacyCashAdapter.

Definition with_notes (st : PrivacyCashAdapter) (notes : list (string * DepositNote))
    : PrivacyCashAdapter :=
  {| pc_base := pc_base st;
     pc_programId := pc_programId st;
     depositNotes := notes;
     pc_apiBaseUrl := pc_apiBaseUrl st |}.

(** [computeCommitment]: the first 64 characters of [secret + nullifier],
    through [hexToBytes] and back. *)
Definition computeCommitment (secret nullifier : string) : string :=
  let combined := secret ++ nullifier in
  let bytes := Js.hexToBytes (Js.slice 0 64 combined) in
  Js.bytesToHex bytes.

(** [hashNullifier]. *)
Definition hashNullifier (nullifier : string) : string :=
  let bytes := Js.hexToBytes nullifier in
  Js.bytesToHex bytes.

Definition note_json (note : DepositNote) : json :=
  JObject
    [ ("c", JString (commitment note));
      ("n", JString (nullifier note));
      ("s", JString (secret note));
      ("a", JNumber (amount note));
      ("t", JString (token note));
      ("ts", JNumber (timestamp note)) ].

(** [encodeNote]. *)
Definition encodeNote (note : DepositNote) : string :=
  Base64.encode (Js.buffer_of_string (stringify (note_json note))).

(** What [decodeNote] returns: the six properties as they were read, each
    possibly [undefined]. *)
Record RawNote : Type := {
  raw_commitment : option json;
  raw_nullifier : option json;
  raw_secret : option json;
  raw_amount : option json;
  raw_token : option json;
  raw_timestamp : option json
}.

(** [decodeNote]; [None] when it throws (the text is no JSON, or is [null]). *)
Definition decodeNote (encoded : string) : option RawNote :=
  match JSON_parse (Js.string_of_buffer (Base64.decode encoded)) with
  | Some JNull | None => None
  | Some data =>
      let prop k := match get_property data k with Some v => v | None => None end in
      Some {| raw_commitment := prop "c";
              raw_nullifier := prop "n";
              raw_secret := prop "s";
              raw_amount := prop "a";
              raw_token := prop "t";
              raw_timestamp := prop "ts" |}
  end.

(** The raw note as a [DepositNote], when its properties have the declared
    types. *)
Definition note_of_raw (r : RawNote) : option DepositNote :=
  match raw_commitment r, raw_nullifier r, raw_secret r,
        raw_amount r, raw_token r, raw_timestamp r with
  | Some (JString c), Some (JString n), Some (JString s),
    Some (JNumber a), Some (JString t), Some (JNumber ts) =>
      Some {| commitment := c; nullifier := n; secret := s;
              amount := a; token := t; timestamp := ts |}
  | _, _, _, _, _, _ => None
  end.

(** The raw note a [DepositNote] is. *)
Definition raw_of_note (n : DepositNote) : RawNote :=
  {| raw_commitment := Some (JString (commitment n));
     raw_nullifier := Some (JString (nullifier n));
     raw_secret := Some (JString (secret n));
     raw_amount := Some (JNumber (amount n));
     raw_token := Some (JString (token n));
     raw_timestamp := Some (JNumber (timestamp n)) |}.

Definition pc_unsupported (token : string) : error :=
  JsError ("Token " ++ token ++ " not supported by Privacy Cash").

(** [PrivacyCashAdapter.getBalance]. *)
Definition pc_getBalance (requested : string) : PC num :=
  ensureReady pc_base PRIVACY_CASH ;;;
  let normalizedToken := Js.toUpperCase requested in
  match own_property POOL_CONFIGS normalizedToken with
  | None => throw (pc_unsupported requested)
  | Some _ =>
      st <- get_state ;;
      ret (fold_left
             (fun total note =>
                if String.eqb (token note) normalizedToken then nadd total (amount note)
                else total)
             (map_values (depositNotes st)) (num_of_Z 0))
  end.

(** [randomBytes(n)]: [n] bytes of the outside world. *)
Definition randomBytes {S : Type} (n : nat) : M S (list byte) :=
  bs <- perform (RandomBytes n) ;;
  ret (firstn n (bs ++ repeat x00 n)).

(** [createDepositInstruction]. *)
Definition createDepositInstruction (programId depositor : PublicKey) (commitment : string)
    (amount : num) (poolConfig : PoolConfig) : error + TransactionInstruction :=
  let commitmentBytes := Js.hexToBytes commitment in
  match nfloor (nmul amount (num_of_Z (10 ^ decimals poolConfig))) with
  | None => inl range_error
  | Some amountLamports =>
      let data := Js.buffer_alloc (1 + 32 + 8) in
      let data := Js.writeUInt8 x01 0 data in
      let data := Js.buffer_copy commitmentBytes data 1 in
      match Js.writeBigUInt64LE amountLamports 33 data with
      | None => inl range_error
      | Some data =>
          match findProgramAddressSync [Js.buffer_of_string "pool"; mint poolConfig] programId with
          | None => inl pda_error
          | Some poolPda =>
              inr {| ix_programId := programId;
                     ix_keys :=
                       [ {| pubkey := depositor; isSigner := true; isWritable := true |};
                         {| pubkey := poolPda; isSigner := false; isWritable := true |};
                         {| pubkey := mint poolConfig; isSigner := false; isWritable := false |};
                         {| pubkey := SystemProgram_programId; isSigner := false;
                            isWritable := false |} ];
                     ix_data := data |}
          end
      end
  end.

Definition of_sum {S A : Type} (r : error + A) : M S A :=
  match r with inl e => throw e | inr a => ret a end.

(** [PrivacyCashAdapter.deposit]. *)
Definition pc_deposit (request : DepositRequest) : PC DepositResult :=
  ensureReady pc_base PRIVACY_CASH ;;;
  w <- ensureWallet pc_base ;;
  getConnection pc_base ;;;
  let token := Js.toUpperCase (dr_token request) in
  match own_property POOL_CONFIGS token with
  | None => throw (pc_unsupported (dr_token request))
  | Some poolConfig =>
      if nltb (dr_amount request) (minDeposit poolConfig) then
        throw (AmountBelowMinimumError (dr_amount request) (minDeposit poolConfig)
                 token PRIVACY_CASH)
      else if nltb (maxDeposit poolConfig) (dr_amount request) then
        throw (JsError ("Amount " ++ number_to_string (dr_amount request)
                        ++ " exceeds max deposit " ++ number_to_string (maxDeposit poolConfig)
                        ++ " for " ++ token))
      else
        try_catch
          (secretBytes <- randomBytes 31 ;;
           nullifierBytes <- randomBytes 31 ;;
           let secret := Js.bytesToHex secretBytes in
           let nullifier := Js.bytesToHex nullifierBytes in
           let commitment := computeCommitment secret nullifier in
           st <- get_state ;;
           depositInstruction <- of_sum
             (createDepositInstruction (pc_programId st) (publicKey w) commitment
                (dr_amount request) poolConfig) ;;
           signature <- send_and_confirm w depositInstruction ;;
           now <- perform DateNow ;;
           let note :=
             {| commitment := commitment;
                nullifier := nullifier;
                secret := secret;
                amount := dr_amount request;
                token := token;
                timestamp := num_of_Z now |} in
           st <- get_state ;;
           put_state (with_notes st (map_set commitment note (depositNotes st))) ;;;
           ret {| dres_signature := signature;
                  dres_provider := PRIVACY_CASH;
                  dres_commitment := Some (encodeNote note);
                  dres_fee := nmul (lit 5 3) (dr_amount request) |})
          (fun e => throw (wrapError e "Privacy Cash deposit failed"))
  end.

(** The [MerkleProof] a response body is, when it has the declared shape. *)
Definition strings_of (l : list json) : option (list string) :=
  fold_right
    (fun j acc =>
       match j, acc with
       | JString s, Some r => Some (s :: r)
       | _, _ => None
       end)
    (Some []) l.

Definition numbers_of (l : list json) : option (list num) :=
  fold_right
    (fun j acc =>
       match j, acc with
       | JNumber x, Some r => Some (x :: r)
       | _, _ => None
       end)
    (Some []) l.

Definition merkle_of_json (j : json) : option MerkleProof :=
  match get_property j "root", get_property j "pathElements", get_property j "pathIndices" with
  | Some (Some (JString r)), Some (Some (JArray es)), Some (Some (JArray ixs)) =>
      match strings_of es, numbers_of ixs with
      | Some e, Some i => Some {| root := r; pathElements := e; pathIndices := i |}
      | _, _ => None
      end
  | _, _, _ => None
  end.

(** The loop of the placeholder proof: [n] rounds of [randomBytes(32)] and
    [Math.random()]. *)
Fixpoint placeholder_path (n : nat) : PC (list string * list num) :=
  match n with
  | O => ret ([], [])
  | S n' =>
      e <- randomBytes 32 ;;
      r <- perform MathRandom ;;
      rest <- placeholder_path n' ;;
      ret (Js.bytesToHex e :: fst rest,
           (if nltb (lit 5 1) r then num_of_Z 1 else num_of_Z 0) :: snd rest)
  end.

Definition placeholder_proof : PC MerkleProof :=
  path <- placeholder_path 20 ;;
  r <- randomBytes 32 ;;
  ret {| root := Js.bytesToHex r; pathElements := fst path; pathIndices := snd path |}.

(** [getMerkleProof]: the indexer's answer when there is one, else a
    placeholder; a failure of the request is swallowed. *)
Definition getMerkleProof (commitment token : string) : PC MerkleProof :=
  st <- get_state ;;
  answer <- perform (Fetch
    {| url := pc_apiBaseUrl st ++ "/v1/proof/" ++ token ++ "/" ++ commitment;
       method := "GET";
       headers := json_headers;
       body := None |}) ;;
  match answer with
  | inr response =>
      if res_ok response then
        match JSON_parse (text response) with
        | Some j =>
            match merkle_of_json j with
            | Some proof => ret proof
            | None => out_of_model "the indexer's answer is no MerkleProof"
            end
        | None => placeholder_proof
        end
      else placeholder_proof
  | inl _ => placeholder_proof
  end.

(** [generateWithdrawalProof]: eight fresh 32-byte values as the text of a
    JSON object. *)
Definition generateWithdrawalProof : PC (list byte) :=
  a0 <- randomBytes 32 ;;
  a1 <- randomBytes 32 ;;
  b00 <- randomBytes 32 ;;
  b01 <- randomBytes 32 ;;
  b10 <- randomBytes 32 ;;
  b11 <- randomBytes 32 ;;
  c0 <- randomBytes 32 ;;
  c1 <- randomBytes 32 ;;
  let h bs := JString (Js.bytesToHex bs) in
  ret (Js.buffer_of_string (stringify (JObject
    [ ("a", JArray [h a0; h a1]);
      ("b", JArray [JArray [h b00; h b01]; JArray [h b10; h b11]]);
      ("c", JArray [h c0; h c1]) ]))).

(** [createWithdrawInstruction]. *)
Definition createWithdrawInstruction (programId recipient : PublicKey)
    (nullifier root : string) (proof : list byte) (poolConfig : PoolConfig)
    : error + TransactionInstruction :=
  let nullifierHash := hashNullifier nullifier in
  let data := Js.buffer_alloc (1 + 32 + 32 + 4 + List.length proof) in
  let data := Js.writeUInt8 x02 0 data in
  let data := Js.buffer_copy (Js.hexToBytes nullifierHash) data 1 in
  let data := Js.buffer_copy (Js.hexToBytes root) data 33 in
  match Js.writeUInt32LE (Z.of_nat (List.length proof)) 65 data with
  | None => inl range_error
  | Some data =>
      let data := Js.buffer_copy proof data 69 in
      match findProgramAddressSync [Js.buffer_of_string "pool"; mint poolConfig] programId with
      | None => inl pda_error
      | Some poolPda =>
          match findProgramAddressSync
                  [Js.buffer_of_string "nullifier"; Js.hexToBytes nullifierHash] programId with
          | None => inl pda_error
          | Some nullifierPda =>
              inr {| ix_programId := programId;
                     ix_keys :=
                       [ {| pubkey := recipient; isSigner := false; isWritable := true |};
                         {| pubkey := poolPda; isSigner := false; isWritable := true |};
                         {| pubkey := nullifierPda; isSigner := false; isWritable := true |};
                         {| pubkey := mint poolConfig; isSigner := false; isWritable := false |};
                         {| pubkey := SystemProgram_programId; isSigner := false;
                            isWritable := false |} ];
                     ix_data := data |}
          end
      end
  end.

(** The [try] block of [withdraw]. *)
Definition pc_withdraw_body (w : WalletAdapter) (note : DepositNote)
    (poolConfig : option PoolConfig) (recipient : PublicKey) : PC WithdrawResult :=
  merkleProof <- getMerkleProof (commitment note) (token note) ;;
  zkProof <- generateWithdrawalProof ;;
  st <- get_state ;;
  withdrawInstruction <-
    match poolConfig with
    | Some cfg =>
        of_sum (createWithdrawInstruction (pc_programId st) recipient (nullifier note)
                  (root merkleProof) zkProof cfg)
    | None =>
        (* an inherited property has no [mint] *)
        throw (JsError "TypeError: Cannot read properties of undefined")
    end ;;
  signature <- send_and_confirm w withdrawInstruction ;;
  st <- get_state ;;
  put_state (with_notes st (map_delete (commitment note) (depositNotes st))) ;;;
  ret {| wres_signature := signature;
         wres_provider := PRIVACY_CASH;
         wres_fee := nmul (lit 5 3) (amount note) |}.

(** [PrivacyCashAdapter.withdraw].  The token of the note is looked up as
    it stands, so a name inherited from [Object.prototype] passes the
    check and fails later, inside the [try] block. *)
Definition pc_withdraw (request : WithdrawRequest) : PC WithdrawResult :=
  ensureReady pc_base PRIVACY_CASH ;;;
  w <- ensureWallet pc_base ;;
  getConnection pc_base ;;;
  match wr_commitment request with
  | None | Some EmptyString =>
      throw (JsError "Deposit note (commitment) required for withdrawal")
  | Some encoded =>
      match decodeNote encoded with
      | None => throw (JsError "Invalid deposit note format")
      | Some raw =>
          match note_of_raw raw with
          | None => out_of_model "the decoded note is no DepositNote"
          | Some note =>
              let poolConfig := own_property POOL_CONFIGS (token note) in
              match poolConfig, inherited_property (token note) with
              | None, false => throw (JsError ("Token " ++ token note ++ " not supported"))
              | _, _ =>
                  recipient <- recipient_key (wr_recipient request) ;;
                  try_catch (pc_withdraw_body w note poolConfig recipient)
                    (fun e => throw (wrapError e "Privacy Cash withdrawal failed"))
              end
          end
      end
  end.

(** [PrivacyCashAdapter.transfer]. *)
Definition pc_transfer (request : TransferRequest) : PC TransferResult :=
  ensureReady pc_base PRIVACY_CASH ;;;
  depositResult <- pc_deposit {| dr_amount := tr_amount request; dr_token := tr_token request |} ;;
  withdrawResult <- pc_withdraw
    {| wr_amount := tr_amount request;
       wr_token := tr_token request;
       wr_recipient := tr_recipient request;
       wr_commitment := dres_commitment depositResult |} ;;
  ret {| tres_signature := wres_signature withdrawResult;
         tres_provider := PRIVACY_CASH;
         tres_privacyLevel := COMPLIANT_POOL;
         tres_fee := nadd (dres_fee depositResult) (wres_fee withdrawResult);
         tres_anonymitySet :=
           option_map anonymitySet
             (own_property POOL_CONFIGS (Js.toUpperCase (tr_token request))) |}.

(** [PrivacyCashAdapter.estimate]. *)
Definition pc_estimate (request : EstimateRequest) : EstimateResult :=
  let token := estimate_token (er_token request) in
  match own_property POOL_CONFIGS token with
  | None =>
      {| eres_fee := num_of_Z 0;
         eres_tokenFee := None;
         eres_provider := PRIVACY_CASH;
         eres_latencyMs := num_of_Z 0;
         eres_anonymitySet := None;
         eres_warnings := ["Token " ++ token ++ " not supported by Privacy Cash"] |}
  | Some poolConfig =>
      let amount := amount_or_zero (er_amount request) in
      let feePercent := lit 5 3 in
      let fee := nmul amount feePercent in
      let fee :=
        match er_operation request with
        | Some OpTransfer => nmul fee (num_of_Z 2)
        | _ => fee
        end in
      let warnings : list string :=
        ((if nltb (num_of_Z 0) amount && nltb amount (minDeposit poolConfig) then
            [("Amount below minimum " ++ number_to_string (minDeposit poolConfig)
                ++ " " ++ token)%string]
          else [])
         ++ (if nltb (maxDeposit poolConfig) amount then
               [("Amount exceeds maximum " ++ number_to_string (maxDeposit poolConfig)
                   ++ " " ++ token)%string]
             else []))%list in
      {| eres_fee := fee;
         eres_tokenFee := Some fee;
         eres_provider := PRIVACY_CASH;
         eres_latencyMs :=
           match er_operation request with
           | Some OpTransfer => num_of_Z 15000
           | _ => num_of_Z 8000
           end;
         eres_anonymitySet := Some (anonymitySet poolConfig);
         eres_warnings := warnings |}
  end.

(** [PrivacyCashAdapter.importNote]. *)
Definition importNote (encodedNote : string) : PC DepositNote :=
  match decodeNote encodedNote with
  | None =>
      (* [JSON.parse] threw, or gave [null], of which no property is read *)
      throw (match JSON_parse (Js.string_of_buffer (Base64.decode encodedNote)) with
             | Some JNull => null_property_error
             | _ => json_syntax_error
             end)
  | Some raw =>
      match note_of_raw raw with
      | None => out_of_model "the decoded note is no DepositNote"
      | Some note =>
          st <- get_state ;;
          put_state (with_notes st (map_set (commitment note) note (depositNotes st))) ;;;
          ret note
      end
  end.

(** [PrivacyCashAdapter.exportNotes]. *)
Definition exportNotes (st : PrivacyCashAdapter) : list string :=
  map encodeNote (map_values (depositNotes st)).

End PrivacyCash.


(** ** adapters/arcium.ts: shielding and unshielding *)

Section ArciumShield.

(** [createShieldInstruction]. *)
Definition createShieldInstruction (owner : PublicKey) (amount : num)
    (tokenConfig : CSPLTokenConfig) : error + TransactionInstruction :=
  let data := Js.buffer_alloc 9 in
  let data := Js.writeUInt8 x02 0 data in
  match nfloor (nmul amount (num_of_Z (10 ^ cspl_decimals tokenConfig))) with
  | None => inl range_error
  | Some units =>
      match Js.writeBigUInt64LE units 1 data with
      | None => inl range_error
      | Some data =>
          inr {| ix_programId := ARCIUM_CSPL_PROGRAM_ID;
                 ix_keys :=
                   [ {| pubkey := owner; isSigner := true; isWritable := true |};
                     {| pubkey := cspl_mint tokenConfig; isSigner := false; isWritable := true |};
                     {| pubkey := SystemProgram_programId; isSigner := false;
                        isWritable := false |} ];
                 ix_data := data |}
      end
  end.

(** [ArciumAdapter.deposit]. *)
Definition arc_deposit (request : DepositRequest) : ARC DepositResult :=
  ensureReady arc_base ARCIUM ;;;
  w <- ensureWallet arc_base ;;
  getConnection arc_base ;;;
  let token := Js.toUpperCase (dr_token request) in
  match own_property CSPL_TOKENS token with
  | None => throw (arc_unsupported (dr_token request))
  | Some tokenConfig =>
      try_catch
        (shieldInstruction <- of_sum
           (createShieldInstruction (publicKey w) (dr_amount request) tokenConfig) ;;
         signature <- send_and_confirm w shieldInstruction ;;
         ret {| dres_signature := signature;
                dres_provider := ARCIUM;
                dres_commitment := None;
                dres_fee := nmul (lit 2 3) (dr_amount request) |})
        (fun e => throw (wrapError e "Arcium shield operation failed"))
  end.

(** [createUnshieldInstruction]. *)
Definition createUnshieldInstruction (owner recipient : PublicKey) (amount : num)
    (tokenConfig : CSPLTokenConfig) : error + TransactionInstruction :=
  let data := Js.buffer_alloc 41 in
  let data := Js.writeUInt8 x03 0 data in
  let data := Js.buffer_copy recipient data 1 in
  match nfloor (nmul amount (num_of_Z (10 ^ cspl_decimals tokenConfig))) with
  | None => inl range_error
  | Some units =>
      match Js.writeBigUInt64LE units 33 data with
      | None => inl range_error
      | Some data =>
          inr {| ix_programId := ARCIUM_CSPL_PROGRAM_ID;
                 ix_keys :=
                   [ {| pubkey := owner; isSigner := true; isWritable := true |};
                     {| pubkey := recipient; isSigner := false; isWritable := true |};
                     {| pubkey := cspl_mint tokenConfig; isSigner := false; isWritable := true |};
                     {| pubkey := SystemProgram_programId; isSigner := false;
                        isWritable := false |} ];
                 ix_data := data |}
      end
  end.

(** [ArciumAdapter.withdraw]. *)
Definition arc_withdraw (request : WithdrawRequest) : ARC WithdrawResult :=
  ensureReady arc_base ARCIUM ;;;
  w <- ensureWallet arc_base ;;
  getConnection arc_base ;;;
  let token := Js.toUpperCase (wr_token request) in
  match own_property CSPL_TOKENS token with
  | None => throw (arc_unsupported (wr_token request))
  | Some tokenConfig =>
      recipient <- recipient_key (wr_recipient request) ;;
      try_catch
        (unshieldInstruction <- of_sum
           (createUnshieldInstruction (publicKey w) recipient (wr_amount request)
              tokenConfig) ;;
         signature <- send_and_confirm w unshieldInstruction ;;
         ret {| wres_signature := signature;
                wres_provider := ARCIUM;
                wres_fee := nmul (lit 2 3) (wr_amount request) |})
        (fun e => throw (wrapError e "Arcium unshield operation failed"))
  end.

End ArciumShield.

(** ** The Noir adapter: commitments, deposit and withdraw *)

Section Noir.



Definition SUNSPOT_PROGRAM_ID : PublicKey :=
  key_literal "SunspotVerifier111111111111111111111111111".

(** [createCommitment]: the first 32 bytes of the text [amount:salt], in
    hex. *)
Definition createCommitment (amount : num) (salt : string) : string :=
  let data := number_to_string amount ++ ":" ++ salt in
  let bytes := Js.buffer_of_string data in
  Js.bytesToHex (firstn 32 bytes).

(** [createVerifyInstruction]: the wallet is read with [this.wallet!]. *)
Definition createVerifyInstruction (w : WalletAdapter) (proof : list byte)
    (publicInputs : json) : error + TransactionInstruction :=
  let inputsBytes := Js.buffer_of_string (stringify publicInputs) in
  let data := Js.buffer_alloc (1 + 4 + List.length proof + 4 + List.length inputsBytes) in
  let offset := 0 in
  let data := Js.writeUInt8 x01 offset data in
  let offset := offset + 1 in
  match Js.writeUInt32LE (Z.of_nat (List.length proof)) offset data with
  | None => inl range_error
  | Some data =>
      let offset := offset + 4 in
      let data := Js.buffer_copy proof data offset in
      let offset := offset + List.length proof in
      match Js.writeUInt32LE (Z.of_nat (List.length inputsBytes)) offset data with
      | None => inl range_error
      | Some data =>
          let offset := offset + 4 in
          let data := Js.buffer_copy inputsBytes data offset in
          inr {| ix_programId := SUNSPOT_PROGRAM_ID;
                 ix_keys :=
                   [ {| pubkey := publicKey w; isSigner := true; isWritable := true |};
                     {| pubkey := SystemProgram_programId; isSigner := false;
                        isWritable := false |} ];
                 ix_data := data |}
      end
  end.



End Noir.

(** ** utils/index.ts: truncateAddress *)

(** [s.slice(0, e)] and [s.slice(b)] for any integers: a negative index
    counts from the end, and both are clamped to the string. *)
Definition relative_index (i : Z) (len : nat) : nat :=
  Z.to_nat (if (i <? 0)%Z then Z.max (Z.of_nat len + i) 0 else Z.min i (Z.of_nat len)).

Definition slice_to (e : Z) (s : string) : string :=
  Js.str_take (relative_index e (String.length s)) s.

Definition slice_from (b : Z) (s : string) : string :=
  Js.str_drop (relative_index b (String.length s)) s.

(** [truncateAddress(address, chars = 4)] for an integer [chars]. *)
Definition truncateAddress (address : string) (chars : option Z) : string :=
  let chars := match chars with Some c => c | None => 4%Z end in
  slice_to chars address ++ "..." ++ slice_from (- chars) address.

(** ** adapters/shadowwire.ts: setApiUrl *)

(** [ShadowWireAdapter.setApiUrl]. *)
Definition setApiUrl (url : string) : SW unit :=
  st <- get_state ;;
  put_state {| sw_base := sw_base st; sw_apiBaseUrl := url |}.

(** ** Observing a run *)

(** What a request asks for, without its payload. *)
Inductive request_kind : Type :=
| KRandomBytes (length : nat)
| KMathRandom
| KDateNow
| KSleep (ms : Z)
| KFetch (method url : string)
| KSignMessage
| KSignTransaction
| KGetLatestBlockhash
| KSendRawTransaction
| KConfirmTransaction
| KInvoke (label : string).

Definition kind_of {X : Type} (e : event X) : request_kind :=
  match e with
  | RandomBytes n => KRandomBytes n
  | MathRandom => KMathRandom
  | DateNow => KDateNow
  | Sleep ms => KSleep ms
  | Fetch req => KFetch (method req) (url req)
  | SignMessage _ => KSignMessage
  | SignTransaction _ => KSignTransaction
  | GetLatestBlockhash => KGetLatestBlockhash
  | SendRawTransaction _ => KSendRawTransaction
  | ConfirmTransaction _ _ _ => KConfirmTransaction
  | Invoke _ label => KInvoke label
  end.

Definition entry_kind (en : entry) : request_kind :=
  match en with Entry e _ => kind_of e end.

Definition kinds (tr : list entry) : list request_kind := map entry_kind tr.

Definition is_fetch (k : request_kind) : bool :=
  match k with KFetch _ _ => true | _ => false end.

Definition is_invoke (k : request_kind) : bool :=
  match k with KInvoke _ => true | _ => false end.

(** The calls of the callback in a run. *)
Definition invoke_count (tr : list entry) : nat :=
  List.length (filter is_invoke (kinds tr)).

(** The HTTP requests of a run, and the pauses between its requests. *)
Definition fetch_count (tr : list entry) : nat :=
  List.length (filter is_fetch (kinds tr)).

Definition sleeps (tr : list entry) : list Z :=
  flat_map (fun k => match k with KSleep ms => [ms] | _ => [] end) (kinds tr).

(** The requests of [retry] around a callback that makes one request of
    kind [k] per call: the call, then [retries] times a pause and a call,
    the first pause being the one after attempt [attempt]. *)
Fixpoint retry_shape (k : request_kind) (base maxDelay : Z) (attempt : Z) (retries : nat)
    : list request_kind :=
  match retries with
  | O => [k]
  | S r =>
      k :: KSleep (retry_delay base maxDelay attempt)
        :: retry_shape k base maxDelay (attempt + 1) r
  end.

(** How the method [m] ends when run from state [s] in the world [w], its
    first request being the [n]-th: outcome, final state, and requests. *)
Definition result_of {S A : Type} (w : world) (n : nat) (m : M S A) (s : S) : outcome A :=
  fst (fst (run w n (m s))).

Definition state_after {S A : Type} (w : world) (n : nat) (m : M S A) (s : S) : S :=
  snd (fst (run w n (m s))).

Definition trace_of {S A : Type} (w : world) (n : nat) (m : M S A) (s : S) : list entry :=
  snd (run w n (m s)).

(** Every run of [m] from [s] ends in an outcome, a state and a trace
    that satisfy [Q]. *)
Definition every_run {S A : Type} (m : M S A) (s : S)
    (Q : outcome A -> S -> list entry -> Prop) : Prop :=
  forall (w : world) (n : nat), Q (result_of w n m s) (state_after w n m s) (trace_of w n m s).

(** The callback makes exactly one request, of kind [k], and leaves the
    object as it was. *)
Definition one_request {S A : Type} (fn : M S A) (k : request_kind) : Prop :=
  forall s, every_run fn s (fun _ s' tr => s' = s /\ kinds tr = [k]).

(** The last request of a run was a confirmation, and it succeeded. *)
Definition ends_confirmed (tr : list entry) : Prop :=
  exists tr' signature blockhash height,
    tr = (tr' ++ [Entry (ConfirmTransaction signature blockhash height) (inr tt)])%list.

End Sdk.

Arguments Ret {NUM A} a.
Arguments Vis {NUM A X} e k.
Arguments Ok {NUM A} a.
Arguments Thrown {NUM A} e.
Arguments OutOfModel {NUM A} why.
Arguments Entry {NUM X} e x.

(* ================================================================== *)
(** * Predicates of the statements *)
(* ================================================================== *)

Section Predicates.

Context {NUM : JsNumber}.

Variable findProgramAddressSync : list (list byte) -> PublicKey -> option PublicKey.

(** What follows a value inside an object: a comma or the closing brace. *)
Definition ends_value (rest : string) : Prop :=
  exists r, rest = String "," r \/ rest = String "}" r.

(** The values of a note's members: strings and finite numbers. *)
Definition scalar (v : json) : Prop :=
  match v with
  | JString _ => True
  | JNumber x => nfinite x = true
  | _ => False
  end.

Definition member_text (kv : string * json) : string :=
  (quote (fst kv) ++ ":" ++ stringify (snd kv))%string.

(** How a run of [m] from [s] ends. *)
Definition runs_to {S A : Type} (w : world) (n : nat) (m : M S A) (s : S)
    (o : outcome A) (s' : S) (tr : list entry) : Prop :=
  run w n (m s) = ((o, s'), tr).

(** However [m] ends, the object is as before. *)
Definition keeps {S A : Type} (m : M S A) : Prop :=
  forall s, every_run m s (fun _ s' _ => s' = s).

(** How a withdrawal of [note] from the state [st] may end. *)
Definition withdrawn {A : Type} (st : PrivacyCashAdapter) (note : DepositNote)
    (o : outcome A) (st' : PrivacyCashAdapter) (tr : list entry) : Prop :=
  match o with
  | Ok _ =>
      st' = with_notes st (map_delete (commitment note) (depositNotes st))
      /\ ends_confirmed tr
  | _ => st' = st
  end.

(** What [transfer] does once the deposit has returned. *)
Definition after_deposit (request : TransferRequest) (depositResult : DepositResult)
    : PC TransferResult :=
  bind (pc_withdraw findProgramAddressSync
          {| wr_amount := tr_amount request;
             wr_token := tr_token request;
             wr_recipient := tr_recipient request;
             wr_commitment := dres_commitment depositResult |})
    (fun withdrawResult =>
       ret {| tres_signature := wres_signature withdrawResult;
              tres_provider := PRIVACY_CASH;
              tres_privacyLevel := COMPLIANT_POOL;
              tres_fee := nadd (dres_fee depositResult) (wres_fee withdrawResult);
              tres_anonymitySet :=
                option_map anonymitySet
                  (own_property POOL_CONFIGS (Js.toUpperCase (tr_token request))) |}).
(** Whenever [m] returns a value, the value satisfies [Q]. *)
Definition returns_only {S A : Type} (m : M S A) (Q : A -> Prop) : Prop :=
  forall s, every_run m s (fun o _ _ => match o with Ok a => Q a | _ => True end).

(** The number that little-endian bytes denote. *)
Definition le_value (bs : list byte) : Z :=
  fold_right (fun b acc => (Z.of_N (Byte.to_N b) + 256 * acc)%Z) 0%Z bs.

(** [map.get(k)]. *)
Fixpoint map_get {V : Type} (k : string) (m : list (string * V)) : option V :=
  match m with
  | [] => None
  | (k', v) :: r => if String.eqb k k' then Some v else map_get k r
  end.

(** The notes are kept under their commitments, no commitment twice. *)
Definition keyed_by_commitment (notes : list (string * DepositNote)) : Prop :=
  NoDup (map fst notes) /\ Forall (fun kv => fst kv = commitment (snd kv)) notes.

(** [for (const text of texts) adapter.importNote(text)]. *)
Fixpoint import_all (texts : list string) : PC unit :=
  match texts with
  | [] => ret tt
  | text :: rest => bind (importNote text) (fun _ => import_all rest)
  end.

(** Every HTTP request of the run went to an address that starts with
    [api]. *)
Definition fetches_under (api : string) (tr : list entry) : Prop :=
  Forall (fun k => match k with
                   | KFetch _ address => Js.startsWith api address = true
                   | _ => True
                   end) (kinds tr).


End Predicates.

(* ================================================================== *)
(** * Instances in decimal arithmetic *)
(* ================================================================== *)

Section Examples.

#[local] Existing Instance DecNumber.

(** Concrete inputs on which the statements are run: requests, adapters
    and worlds, with numbers in decimal arithmetic. *)

(** A stand-in for [toSmallestUnit]: nine decimals, whatever the token. *)
Definition ex_units (a : num) (_ : string) : error + Z :=
  match nfloor (nmul a (num_of_Z (10 ^ 9))) with
  | Some z => inr z
  | None => inl range_error
  end.

(** A stand-in for [findProgramAddressSync]: the first 32 bytes of the
    seeds and the program id. *)
Definition ex_pda (seeds : list (list byte)) (p : PublicKey) : option PublicKey :=
  Some (firstn 32 (List.concat seeds ++ p ++ repeat x00 32)%list).

Definition ex_wallet : WalletAdapter := {| publicKey := repeat x01 32 |}.

Definition ex_base : BaseAdapter :=
  {| initialized := true; wallet := Some ex_wallet; connected := true |}.

Definition ex_sw : ShadowWireAdapter :=
  {| sw_base := ex_base; sw_apiBaseUrl := "https://api.example" |}.

Definition ex_note (c : string) (a : Z) (t : string) : DepositNote :=
  {| commitment := c; nullifier := "bb"; secret := "cc"; amount := num_of_Z a;
     token := t; timestamp := num_of_Z 1700000000000 |}.

Definition ex_pc : PrivacyCashAdapter :=
  {| pc_base := ex_base;
     pc_programId := PRIVACY_CASH_PROGRAM_ID;
     depositNotes :=
       [ ("c1", ex_note "c1" 5 "SOL"); ("c2", ex_note "c2" 20 "USDC");
         ("c3", ex_note "c3" 3 "SOL") ];
     pc_apiBaseUrl := "https://api.example" |}.

(** A world in which the wallet signs, the chain confirms, and the API
    answers every request with the status [code] and the text of [body]. *)
Definition ex_world (code : Z) (body : json) : world := fun n X e =>
  match e in event X return X with
  | RandomBytes k => repeat x11 k
  | MathRandom => lit 7 1
  | DateNow => 1700000000000%Z
  | Sleep _ => tt
  | Fetch _ => inr {| status := code; text := stringify body |}
  | SignMessage m => inr m
  | SignTransaction tx => inr [x01]
  | GetLatestBlockhash => inr ("blockhash", 1%Z)
  | SendRawTransaction _ => inr "sig"
  | ConfirmTransaction _ _ _ => inr tt
  | Invoke T l => inl (Rejected l)
  end.

Definition ex_accepted : json :=
  JObject [("success", JBool true); ("transactionId", JString "tx1")].

Definition ex_small_withdraw : WithdrawRequest :=
  {| wr_amount := lit 1 3; wr_token := "SOL"; wr_recipient := inl "someone";
     wr_commitment := None |}.

Definition ex_small_transfer : TransferRequest :=
  {| tr_recipient := inl "someone"; tr_amount := lit 1 3; tr_token := "sol";
     tr_privacy := AMOUNT_HIDDEN; tr_options := None |}.

Definition ex_small_deposit : DepositRequest := {| dr_amount := lit 1 3; dr_token := "sol" |}.

Definition ex_unknown_estimate : EstimateRequest :=
  {| er_operation := Some OpTransfer; er_amount := Some (num_of_Z 1);
     er_token := Some "doge"; er_privacy := None |}.

Definition ex_pool : PoolConfig :=
  {| mint := repeat x05 32; decimals := 9; minDeposit := lit 1 1; maxDeposit := lit 100 0;
     anonymitySet := lit 500 0 |}.

Definition ex_program : PublicKey := repeat x0a 32.

Definition ex_recipient : PublicKey := repeat x02 32.

(** The numbers 1, 2 and 3 as the hex text of 31 bytes, the size of the
    secret and the nullifier that [deposit] draws. *)
Definition ex_hex31 (last : byte) : string := Js.bytesToHex (repeat x00 30 ++ [last]).

Definition ex_deposit_note : DepositNote :=
  {| commitment := "0a~~~"; nullifier := "0b"; secret := "0c"; amount := num_of_Z 5;
     token := "SOL"; timestamp := num_of_Z 1700000000000 |}.

Definition ex_transfer : TransferRequest :=
  {| tr_recipient := inl "someone"; tr_amount := num_of_Z 1; tr_token := "sol";
     tr_privacy := AMOUNT_HIDDEN; tr_options := None |}.

Definition ex_not_found : json := JObject [("error", JString "recipient not found")].

(** A world in which the indexer cannot be reached and everything else
    succeeds. *)
Definition ex_offline : world := fun n X e =>
  match e in event X return X with
  | RandomBytes k => repeat x11 k
  | MathRandom => lit 7 1
  | DateNow => 1700000000000%Z
  | Sleep _ => tt
  | Fetch _ => inl (Rejected "offline")
  | SignMessage m => inr m
  | SignTransaction tx => inr [x01]
  | GetLatestBlockhash => inr ("blockhash", 1%Z)
  | SendRawTransaction _ => inr "sig"
  | ConfirmTransaction _ _ _ => inr tt
  | Invoke T l => inl (Rejected l)
  end.

Definition ex_held : DepositNote :=
  {| commitment := "c1"; nullifier := Js.bytesToHex (repeat x07 32); secret := "0c";
     amount := num_of_Z 5; token := "SOL"; timestamp := num_of_Z 1700000000000 |}.

Definition ex_holding : PrivacyCashAdapter :=
  {| pc_base := ex_base; pc_programId := ex_program;
     depositNotes := [("c1", ex_held)]; pc_apiBaseUrl := "https://api.example" |}.

Definition ex_withdraw : WithdrawRequest :=
  {| wr_amount := num_of_Z 5; wr_token := "SOL"; wr_recipient := inr ex_recipient;
     wr_commitment := Some (encodeNote ex_held) |}.

Definition ex_pool_transfer : TransferRequest :=
  {| tr_recipient := inr ex_recipient; tr_amount := num_of_Z 5; tr_token := "sol";
     tr_privacy := COMPLIANT_POOL; tr_options := None |}.

Definition ex_empty : PrivacyCashAdapter :=
  {| pc_base := ex_base; pc_programId := ex_program;
     depositNotes := []; pc_apiBaseUrl := "https://api.example" |}.
(** A ShadowWire adapter with no wallet connected. *)
Definition ex_sw_no_wallet : ShadowWireAdapter :=
  {| sw_base := {| initialized := true; wallet := None; connected := true |};
     sw_apiBaseUrl := "https://api.example" |}.

(** The body of a refusal, and that of a balance. *)
Definition ex_rejected : json :=
  JObject [("success", JBool false); ("error", JString "denied")].

Definition ex_balance : json := JObject [("balance", JNumber (lit 15 1))].

(** A stand-in for a [toSmallestUnit] that throws. *)
Definition ex_no_units (_ : num) (_ : string) : error + Z := inl range_error.

Definition ex_deposit : DepositRequest := {| dr_amount := num_of_Z 1; dr_token := "sol" |}.

Definition ex_arc : ArciumAdapter := {| arc_base := ex_base; mpcSession := None |}.

Definition ex_usdc : CSPLTokenConfig :=
  {| cspl_mint := key_literal "EPjFWdd5AufqSSqeM2qN1xzybapC8G4wEGGkZwyTDt1v";
     cspl_decimals := 6 |}.

Definition ex_pool_deposit : DepositRequest := {| dr_amount := num_of_Z 5; dr_token := "sol" |}.

(** The note that [deposit] makes of [ex_pool_deposit] in the worlds
    above, where every random byte is 0x11. *)
Definition ex_made : DepositNote :=
  {| commitment := Js.bytesToHex (repeat x11 32);
     nullifier := Js.bytesToHex (repeat x11 31);
     secret := Js.bytesToHex (repeat x11 31);
     amount := num_of_Z 5;
     token := "SOL";
     timestamp := num_of_Z 1700000000000 |}.

Definition ex_lower : DepositNote :=
  {| commitment := "c9"; nullifier := "0b"; secret := "0c"; amount := num_of_Z 5;
     token := "sol"; timestamp := num_of_Z 1700000000000 |}.

Definition ex_inherited : DepositNote :=
  {| commitment := "c8"; nullifier := "0b"; secret := "0c"; amount := num_of_Z 5;
     token := "constructor"; timestamp := num_of_Z 1700000000000 |}.

(** A stand-in for [findProgramAddressSync] that tells seeds of different
    lengths apart: the lengths of the seeds, then zeros. *)
Definition ex_pda_sized (seeds : list (list byte)) (p : PublicKey) : option PublicKey :=
  Some (firstn 32 (map (fun seed => Js.byte_of_Z (Z.of_nat (List.length seed))) seeds
                     ++ repeat x00 32)%list).


End Examples.

(* ================================================================== *)
(** * Facts about strings, hex and base64 *)
(* ================================================================== *)

Lemma append_assoc (a b c : string) : ((a ++ b) ++ c = a ++ (b ++ c))%string.
Proof.
  induction a as [|x a IH]; simpl; [reflexivity | now rewrite IH].
Qed.

Lemma append_nil_r (a : string) : (a ++ "" = a)%string.
Proof.
  induction a as [|x a IH]; simpl; [reflexivity | now rewrite IH].
Qed.

Lemma length_append (a b : string) :
  String.length (a ++ b) = String.length a + String.length b.
Proof.
  induction a as [|x a IH]; simpl; [reflexivity | now rewrite IH].
Qed.

Lemma str_take_append (a b : string) : Js.str_take (String.length a) (a ++ b) = a.
Proof.
  induction a as [|x a IH]; simpl; [now destruct b | now rewrite IH].
Qed.

Lemma str_take_all (n : nat) (a : string) :
  String.length a <= n -> Js.str_take n a = a.
Proof.
  revert n; induction a as [|x a IH]; intros [|n] H; simpl in *;
    try reflexivity; try lia.
  rewrite IH by lia; reflexivity.
Qed.

(** One byte printed in hex reads back as itself. *)
Lemma parse_byte_to_hex (b : byte) : Js.to_uint8 (Js.parseInt16 (Js.byte_to_hex b)) = b.
Proof. destruct b; reflexivity. Qed.

Lemma hex_pairs_byte (b : byte) (r : string) :
  Js.hex_pairs (Js.byte_to_hex b ++ r) = b :: Js.hex_pairs r.
Proof.
  change (Js.byte_to_hex b ++ r)%string with
    (String (Js.hex_char (Byte.to_N b / 16))
       (String (Js.hex_char (Byte.to_N b mod 16)) r)).
  cbn [Js.hex_pairs].
  change (String (Js.hex_char (Byte.to_N b / 16))
            (String (Js.hex_char (Byte.to_N b mod 16)) EmptyString))
    with (Js.byte_to_hex b).
  now rewrite parse_byte_to_hex.
Qed.

Lemma hex_pairs_bytesToHex (bs : list byte) : Js.hex_pairs (Js.bytesToHex bs) = bs.
Proof.
  induction bs as [|b bs IH]; [reflexivity|].
  cbn [Js.bytesToHex]. now rewrite hex_pairs_byte, IH.
Qed.

(** The hex text of bytes never starts with the [0x] that [hexToBytes]
    strips. *)
Lemma bytesToHex_no_0x (bs : list byte) : Js.startsWith "0x" (Js.bytesToHex bs) = false.
Proof.
  destruct bs as [|b bs]; [reflexivity|].
  destruct b; reflexivity.
Qed.

(** [hexToBytes] undoes [bytesToHex]. *)
Lemma hexToBytes_bytesToHex (bs : list byte) : Js.hexToBytes (Js.bytesToHex bs) = bs.
Proof.
  unfold Js.hexToBytes. rewrite bytesToHex_no_0x. apply hex_pairs_bytesToHex.
Qed.

Lemma bytesToHex_app (a b : list byte) :
  Js.bytesToHex (a ++ b) = (Js.bytesToHex a ++ Js.bytesToHex b)%string.
Proof.
  induction a as [|x a IH]; [reflexivity|].
  cbn [Js.bytesToHex app]. rewrite IH. now rewrite append_assoc.
Qed.

Lemma length_bytesToHex (bs : list byte) :
  String.length (Js.bytesToHex bs) = 2 * List.length bs.
Proof.
  induction bs as [|b bs IH]; [reflexivity|].
  cbn [Js.bytesToHex List.length]. rewrite length_append, IH.
  change (String.length (Js.byte_to_hex b)) with 2. lia.
Qed.

(** The first [2 k] hex characters are the first [k] bytes. *)
Lemma str_take_bytesToHex (k : nat) (bs : list byte) :
  Js.str_take (2 * k) (Js.bytesToHex bs) = Js.bytesToHex (firstn k bs).
Proof.
  revert bs; induction k as [|k IH]; intros bs.
  - simpl. now destruct (Js.bytesToHex bs).
  - destruct bs as [|b bs]; [reflexivity|].
    replace (2 * S k) with (S (S (2 * k))) by lia.
    cbn [Js.bytesToHex firstn].
    change (Js.byte_to_hex b ++ Js.bytesToHex bs)%string with
      (String (Js.hex_char (Byte.to_N b / 16))
         (String (Js.hex_char (Byte.to_N b mod 16)) (Js.bytesToHex bs))).
    cbn [Js.str_take]. rewrite IH. reflexivity.
Qed.

(** ** Base64 *)

Lemma unbase64_b64_char (n : nat) :
  n < 64 ->
  Base64.unbase64 (Base64.b64_char (N.of_nat n)) = Some (N.of_nat n)
  /\ Ascii.eqb (Base64.b64_char (N.of_nat n)) "="%char = false.
Proof.
  intros H.
  do 64 (destruct n as [|n]; [split; reflexivity|]).
  lia.
Qed.

Lemma sextets_b64_char (v : N) (r : string) :
  (v < 64)%N ->
  Base64.sextets (String (Base64.b64_char v) r) = v :: Base64.sextets r.
Proof.
  intros H.
  destruct (unbase64_b64_char (N.to_nat v)) as [H1 H2]; [lia|].
  rewrite N2Nat.id in H1, H2.
  cbn [Base64.sextets]. now rewrite H2, H1.
Qed.

Lemma sextet_byte_to_N (b : byte) : Base64.sextet_byte (Byte.to_N b) = b.
Proof.
  unfold Base64.sextet_byte.
  pose proof (Byte.to_N_bounded b).
  rewrite N.mod_small by lia.
  now rewrite Byte.of_to_N.
Qed.

(** The arithmetic of regrouping three bytes as four sextets and back. *)
Lemma regroup_first (x y : N) :
  (x <= 255 -> y <= 255 -> (x / 4) * 4 + ((x mod 4) * 16 + y / 16) / 16 = x)%N.
Proof. intros; zify; Z.to_euclidean_division_equations; lia. Qed.

Lemma regroup_second (x y z : N) :
  (x <= 255 -> y <= 255 -> z <= 255 ->
   (((x mod 4) * 16 + y / 16) mod 16) * 16 + ((y mod 16) * 4 + z / 64) / 4 = y)%N.
Proof. intros; zify; Z.to_euclidean_division_equations; lia. Qed.

Lemma regroup_third (y z : N) :
  (y <= 255 -> z <= 255 ->
   (((y mod 16) * 4 + z / 64) mod 4) * 64 + z mod 64 = z)%N.
Proof. intros; zify; Z.to_euclidean_division_equations; lia. Qed.

Lemma sextet_bounds (x y : N) :
  (x <= 255 -> y <= 255 ->
   x / 4 < 64 /\ (x mod 4) * 16 + y / 16 < 64 /\ (x mod 16) * 4 + y / 64 < 64
   /\ x mod 64 < 64 /\ (x mod 4) * 16 < 64 /\ (x mod 16) * 4 < 64)%N.
Proof. intros; zify; Z.to_euclidean_division_equations; lia. Qed.

Lemma sextets_pad (r : string) : Base64.sextets (String "=" r) = [].
Proof. reflexivity. Qed.

Lemma decode_encode_upto (n : nat) (bs : list byte) :
  List.length bs <= n -> Base64.bytes_of_sextets (Base64.sextets (Base64.encode bs)) = bs.
Proof.
  revert bs; induction n as [|n IH]; intros bs H.
  - destruct bs; [reflexivity | simpl in H; lia].
  - destruct bs as [|a [|b [|c r]]]; [reflexivity| | |].
    + pose proof (Byte.to_N_bounded a) as Ha.
      destruct (sextet_bounds (Byte.to_N a) 0 Ha) as (B1 & _ & _ & _ & B5 & _); [lia|].
      cbn [Base64.encode].
      rewrite (sextets_b64_char _ _ B1), (sextets_b64_char _ _ B5), sextets_pad.
      cbn [Base64.bytes_of_sextets].
      replace (Byte.to_N a / 4 * 4 + Byte.to_N a mod 4 * 16 / 16)%N with (Byte.to_N a)
        by (zify; Z.to_euclidean_division_equations; lia).
      now rewrite sextet_byte_to_N.
    + pose proof (Byte.to_N_bounded a) as Ha.
      pose proof (Byte.to_N_bounded b) as Hb.
      destruct (sextet_bounds (Byte.to_N a) (Byte.to_N b) Ha Hb) as (B1 & B2 & _).
      destruct (sextet_bounds (Byte.to_N b) 0 Hb) as (_ & _ & _ & _ & _ & B6); [lia|].
      cbn [Base64.encode].
      rewrite (sextets_b64_char _ _ B1), (sextets_b64_char _ _ B2),
        (sextets_b64_char _ _ B6), sextets_pad.
      cbn [Base64.bytes_of_sextets].
      rewrite (regroup_first _ _ Ha Hb).
      replace (((Byte.to_N a mod 4) * 16 + Byte.to_N b / 16) mod 16 * 16
               + Byte.to_N b mod 16 * 4 / 4)%N with (Byte.to_N b)
        by (zify; Z.to_euclidean_division_equations; lia).
      now rewrite !sextet_byte_to_N.
    + pose proof (Byte.to_N_bounded a) as Ha.
      pose proof (Byte.to_N_bounded b) as Hb.
      pose proof (Byte.to_N_bounded c) as Hc.
      destruct (sextet_bounds (Byte.to_N a) (Byte.to_N b) Ha Hb) as (B1 & B2 & _).
      destruct (sextet_bounds (Byte.to_N b) (Byte.to_N c) Hb Hc) as (_ & _ & B3 & _).
      destruct (sextet_bounds (Byte.to_N c) 0 Hc) as (_ & _ & _ & B4 & _); [lia|].
      cbn [Base64.encode].
      rewrite (sextets_b64_char _ _ B1), (sextets_b64_char _ _ B2),
        (sextets_b64_char _ _ B3), (sextets_b64_char _ _ B4).
      cbn [Base64.bytes_of_sextets].
      rewrite (regroup_first _ _ Ha Hb), (regroup_second _ _ _ Ha Hb Hc),
        (regroup_third _ _ Hb Hc), !sextet_byte_to_N.
      rewrite IH; [reflexivity | simpl in H; lia].
Qed.

(** Decoding what [toString('base64')] wrote gives the bytes back. *)
Lemma decode_encode (bs : list byte) : Base64.decode (Base64.encode bs) = bs.
Proof. apply (decode_encode_upto (List.length bs)). lia. Qed.

(* ================================================================== *)
(** * Decimal numbers satisfy the laws *)
(* ================================================================== *)

Lemma all_chars_app (p : ascii -> bool) (a b : string) :
  all_chars p (a ++ b) = all_chars p a && all_chars p b.
Proof.
  induction a as [|c a IH]; simpl; [reflexivity|].
  now rewrite IH, andb_assoc.
Qed.

Lemma all_chars_weaken (p q : ascii -> bool) (s : string) :
  (forall c, p c = true -> q c = true) -> all_chars p s = true -> all_chars q s = true.
Proof.
  intros H; induction s as [|c s IH]; simpl; [reflexivity|].
  intros E; apply andb_prop in E as [E1 E2].
  now rewrite (H _ E1), IH.
Qed.

Lemma digit_is_number_char (c : ascii) : Dec.is_digit c = true -> is_number_char c = true.
Proof.
  unfold Dec.is_digit, is_number_char. intros ->. reflexivity.
Qed.

Lemma digits_string_of_uint (d : Decimal.uint) :
  all_chars Dec.is_digit (NilEmpty.string_of_uint d) = true.
Proof. induction d; simpl; auto. Qed.

Lemma digits_string_of_N (n : N) :
  all_chars Dec.is_digit (NilZero.string_of_uint (N.to_uint n)) = true.
Proof.
  unfold NilZero.string_of_uint.
  destruct (N.to_uint n); try reflexivity; apply digits_string_of_uint.
Qed.

Lemma N_to_uint_nonnil (n : N) : N.to_uint n <> Decimal.Nil.
Proof.
  destruct n as [|p]; simpl; [discriminate | apply Unsigned.to_uint_nonnil].
Qed.

Lemma string_of_N_nonempty (n : N) :
  exists c r, NilZero.string_of_uint (N.to_uint n) = String c r /\ Dec.is_digit c = true.
Proof.
  pose proof (N_to_uint_nonnil n) as H.
  unfold NilZero.string_of_uint.
  destruct (N.to_uint n); try congruence;
    simpl; eexists _, _; split; reflexivity.
Qed.

Lemma unorm_N_to_uint (n : N) : Decimal.unorm (N.to_uint n) = N.to_uint n.
Proof.
  rewrite <- (DecimalN.Unsigned.to_of (N.to_uint n)).
  now rewrite DecimalN.Unsigned.of_to.
Qed.

Lemma uint_eqb_refl (d : Decimal.uint) : Dec.uint_eqb d d = true.
Proof. unfold Dec.uint_eqb. now destruct (Decimal.uint_eq_dec d d). Qed.

Lemma uint_eqb_eq (a b : Decimal.uint) : Dec.uint_eqb a b = true -> a = b.
Proof. unfold Dec.uint_eqb. now destruct (Decimal.uint_eq_dec a b). Qed.

Lemma read_int_string_of_N (n : N) :
  Dec.read_int (NilZero.string_of_uint (N.to_uint n)) = Some n.
Proof.
  unfold Dec.read_int.
  rewrite NilZero.usu by apply N_to_uint_nonnil.
  now rewrite unorm_N_to_uint, uint_eqb_refl, DecimalN.Unsigned.of_to.
Qed.

(** The digits of a text, when what follows does not start with a digit. *)
Lemma span_digits_app (a b : string) :
  all_chars Dec.is_digit a = true ->
  match b with String c _ => Dec.is_digit c = false | EmptyString => True end ->
  Dec.span_digits (a ++ b) = (a, b).
Proof.
  intros Ha Hb; induction a as [|c a IH]; cbn [Dec.span_digits append all_chars] in *.
  - destruct b as [|c b]; [reflexivity | cbn [Dec.span_digits]; now rewrite Hb].
  - apply andb_prop in Ha as [H1 H2]. now rewrite H1, IH.
Qed.

Lemma string_of_uint_nonempty (d : Decimal.uint) :
  d <> Decimal.Nil -> exists c r, NilEmpty.string_of_uint d = String c r.
Proof. destruct d; simpl; try congruence; eauto. Qed.

Lemma Dec_to_string_token (x : Dec.t) : is_number_token (Dec.to_string x) = true.
Proof.
  assert (A : all_chars is_number_char (Dec.to_string x) = true).
  { unfold Dec.to_string. rewrite !all_chars_app.
    rewrite (all_chars_weaken _ _ _ digit_is_number_char (digits_string_of_N _)).
    destruct (Dec.neg x), (Dec.is_nil (Dec.frac x)); simpl; try reflexivity;
      apply (all_chars_weaken _ _ _ digit_is_number_char (digits_string_of_uint _)). }
  unfold is_number_token.
  destruct (Dec.to_string x) eqn:E; [|exact A].
  exfalso. unfold Dec.to_string in E.
  destruct (string_of_N_nonempty (Dec.int_part x)) as (c & r & E1 & _).
  rewrite E1 in E. destruct (Dec.neg x); discriminate.
Qed.

Lemma Dec_of_string_unsigned (n : N) (f : Decimal.uint) (sign : bool) :
  Dec.uint_eqb (Dec.strip f) f = true ->
  let body := (NilZero.string_of_uint (N.to_uint n)
               ++ (if Dec.is_nil f then "" else "." ++ NilEmpty.string_of_uint f))%string in
  (let '(ip, rest) := Dec.span_digits body in
   match Dec.read_int ip with
   | None => None
   | Some m =>
       match rest with
       | EmptyString => Some (Dec.mk (sign && negb (m =? 0)%N) m Decimal.Nil)
       | String "." fr =>
           match fr, NilEmpty.uint_of_string fr with
           | String _ _, Some d =>
               let g := Dec.strip d in
               Some (Dec.mk (sign && negb ((m =? 0)%N && Dec.is_nil g)) m g)
           | _, _ => None
           end
       | _ => None
       end
   end) = Some (Dec.mk (sign && negb ((n =? 0)%N && Dec.is_nil f)) n f).
Proof.
  intros Hf body; subst body.
  rewrite span_digits_app; [|apply digits_string_of_N|].
  - rewrite read_int_string_of_N.
    destruct f eqn:Ef; cbn [Dec.is_nil];
      try (rewrite andb_true_r; reflexivity);
      rewrite <- Ef in *;
      (destruct (string_of_uint_nonempty f) as (c & r & Er); [subst f; discriminate|]);
      cbn [append]; rewrite Er, <- Er, NilEmpty.usu;
      cbn zeta; rewrite (uint_eqb_eq _ _ Hf);
      subst f; cbn [Dec.is_nil]; now rewrite !andb_false_r.
  - destruct (Dec.is_nil f); simpl; [exact I | reflexivity].
Qed.

Lemma sign_of_digit (c : ascii) (r : string) :
  Dec.is_digit c = true ->
  match String c r with
  | String "-" t => (true, t)
  | _ => (false, String c r)
  end = (false, String c r).
Proof.
  intros H. destruct c as [[] [] [] [] [] [] [] []]; try reflexivity; discriminate H.
Qed.

Lemma Dec_of_string_to_string (x : Dec.t) :
  Dec.finite x = true -> Dec.of_string (Dec.to_string x) = Some x.
Proof.
  destruct x as [sg n f]. unfold Dec.finite, Dec.to_string. cbn [Dec.neg Dec.int_part Dec.frac].
  intros H. apply andb_prop in H as [Hf Hz].
  pose proof (Dec_of_string_unsigned n f sg Hf) as P. cbn zeta in P.
  assert (S : sg && negb ((n =? 0)%N && Dec.is_nil f) = sg).
  { destruct sg; [|reflexivity]. simpl in Hz |- *. exact Hz. }
  rewrite S in P.
  unfold Dec.of_string.
  set (body := (NilZero.string_of_uint (N.to_uint n)
                ++ (if Dec.is_nil f then "" else "." ++ NilEmpty.string_of_uint f))%string) in *.
  destruct sg.
  - change ("-" ++ body)%string with (String "-" body). exact P.
  - change ("" ++ body)%string with body.
    destruct (string_of_N_nonempty n) as (c & r & E & Hc).
    assert (B : exists r', body = String c r').
    { subst body. rewrite E. simpl. eauto. }
    destruct B as (r' & B). rewrite B in *.
    rewrite (sign_of_digit c r' Hc). exact P.
Qed.

Lemma Dec_finite_of_Z (z : Z) : Dec.finite (Dec.of_Z z) = true.
Proof.
  unfold Dec.finite, Dec.of_Z. cbn [Dec.neg Dec.int_part Dec.frac Dec.is_nil].
  change (Dec.uint_eqb (Dec.strip Decimal.Nil) Decimal.Nil) with true.
  rewrite andb_true_r. cbn [andb].
  destruct (z <? 0)%Z eqn:E; [|reflexivity].
  apply Z.ltb_lt in E. cbn [andb].
  destruct (Z.abs_N z =? 0)%N eqn:E0; [|reflexivity].
  apply N.eqb_eq in E0. lia.
Qed.

(** The decimal numbers are a model of the laws. *)
Lemma DecNumber_laws : JsNumberLaws DecNumber.
Proof.
  constructor.
  - intros x _. apply Dec_to_string_token.
  - apply Dec_of_string_to_string.
  - apply Dec_finite_of_Z.
Qed.

(* ================================================================== *)
(** * JSON: what [stringify] writes, [JSON.parse] reads back *)
(* ================================================================== *)

Section JsonFacts.

Context {NUM : JsNumber} {LAWS : JsNumberLaws NUM}.

(** One escaped character in front of a string body. *)
Lemma parse_escaped_char (c : ascii) (tail v rest : string) :
  parse_string_body tail = Some (v, rest) ->
  parse_string_body (escape_char c ++ tail) = Some (String c v, rest).
Proof.
  intros H.
  destruct c as [[] [] [] [] [] [] [] []];
    match goal with
    | |- context [escape_char ?x] =>
        let e := eval vm_compute in (escape_char x) in change (escape_char x) with e
    end;
    cbn; rewrite H; reflexivity.
Qed.

Lemma parse_escaped_string (s rest : string) :
  parse_string_body (escape_string s ++ String quote_char rest) = Some (s, rest).
Proof.
  induction s as [|c s IH].
  - cbn. reflexivity.
  - cbn [escape_string]. rewrite append_assoc. now apply parse_escaped_char.
Qed.

Lemma quote_append (s rest : string) :
  (quote s ++ rest)%string = String quote_char (escape_string s ++ String quote_char rest).
Proof.
  unfold quote. cbn [append]. now rewrite append_assoc.
Qed.

Lemma span_number_app (a b : string) :
  all_chars is_number_char a = true ->
  ends_value b ->
  span_number (a ++ b) = (a, b).
Proof.
  intros Ha (r & Hb); induction a as [|c a IH]; cbn [span_number append all_chars] in *.
  - destruct Hb as [-> | ->]; reflexivity.
  - apply andb_prop in Ha as [H1 H2]. now rewrite H1, IH.
Qed.

(** A text that starts with a number character is read as a number. *)
Lemma parse_value_number_char (f : nat) (c : ascii) (r : string) :
  is_number_char c = true ->
  parse_value (S f) (String c r) =
  let '(tok, rest) := span_number (String c r) in
  match parse_number tok with
  | Some x => Some (JNumber x, rest)
  | None => None
  end.
Proof.
  intros H.
  destruct c as [[] [] [] [] [] [] [] []]; try discriminate H; reflexivity.
Qed.

Lemma parse_value_number (f : nat) (x : num) (rest : string) :
  nfinite x = true ->
  ends_value rest ->
  parse_value (S f) (stringify (JNumber x) ++ rest) = Some (JNumber x, rest).
Proof.
  intros Hx Hr. cbn [stringify]. unfold stringify_number. rewrite Hx.
  pose proof (number_to_string_token x Hx) as T.
  pose proof (parse_number_to_string x Hx) as P.
  unfold is_number_token in T.
  destruct (number_to_string x) as [|c r] eqn:E; [discriminate|].
  cbn [append]. rewrite parse_value_number_char.
  - change (String c (r ++ rest)) with (String c r ++ rest)%string.
    rewrite span_number_app by assumption. now rewrite P.
  - cbn [all_chars] in T. now apply andb_prop in T as [T1 _].
Qed.

Lemma parse_value_string (f : nat) (s rest : string) :
  parse_value (S f) (stringify (JString s) ++ rest) = Some (JString s, rest).
Proof.
  cbn [stringify]. rewrite quote_append.
  cbn [parse_value skip_space]. change (is_json_space quote_char) with false. cbn iota.
  change (Ascii.eqb quote_char quote_char) with true. cbn iota.
  now rewrite parse_escaped_string.
Qed.

Lemma parse_value_scalar (f : nat) (v : json) (rest : string) :
  scalar v -> ends_value rest ->
  parse_value (S f) (stringify v ++ rest) = Some (v, rest).
Proof.
  destruct v; cbn [scalar]; intros Hv Hr; try contradiction.
  - now apply parse_value_number.
  - apply parse_value_string.
Qed.

(** Reading one member: its key, the colon, its value, and what follows. *)
Lemma parse_members_step (f : nat) (k tail : string) :
  parse_members (S f) (quote k ++ ":" ++ tail) =
  match parse_value f tail with
  | Some (v, r3) =>
      match skip_space r3 with
      | String "," r4 =>
          match parse_members f r4 with
          | Some (m, r5) => Some ((k, v) :: m, r5)
          | None => None
          end
      | String "}" r4 => Some ([(k, v)], r4)
      | _ => None
      end
  | None => None
  end.
Proof.
  rewrite quote_append.
  cbn [parse_members skip_space]. change (is_json_space quote_char) with false. cbn iota.
  change (Ascii.eqb quote_char quote_char) with true. cbn iota.
  rewrite parse_escaped_string.
  cbn [append skip_space]. change (is_json_space ":") with false. cbn iota.
  reflexivity.
Qed.

(** The members of an object whose values are scalars, up to the closing
    brace. *)
Lemma parse_members_scalars (m : list (string * json)) :
  m <> [] ->
  Forall (fun kv => scalar (snd kv)) m ->
  forall (f : nat) (rest : string),
    List.length m <= f ->
    parse_members (S f) (join "," (map member_text m) ++ String "}" rest) = Some (m, rest).
Proof.
  induction m as [|[k v] m IH]; [congruence|].
  intros _ Hall f rest Hf.
  inversion Hall as [|? ? Hv Hm]; subst. cbn [snd] in Hv.
  destruct m as [|kv' m'].
  - cbn [map join]. unfold member_text at 1. cbn [fst snd].
    rewrite !append_assoc, parse_members_step.
    destruct f as [|f]; [cbn in Hf; lia|].
    rewrite parse_value_scalar; [|assumption| eexists; right; reflexivity].
    reflexivity.
  - assert (E : (join "," (map member_text ((k, v) :: kv' :: m')) ++ String "}" rest)%string
                = (quote k ++ ":" ++ stringify v
                   ++ String "," (join "," (map member_text (kv' :: m')) ++ String "}" rest))%string).
    { cbn [map join]. unfold member_text at 1. cbn [fst snd].
      now rewrite !append_assoc. }
    rewrite E, parse_members_step.
    destruct f as [|f]; [cbn in Hf; lia|].
    rewrite parse_value_scalar; [|assumption| eexists; left; reflexivity].
    cbn [skip_space]. change (is_json_space ",") with false. cbn iota.
    rewrite IH; [reflexivity | discriminate | assumption | cbn in Hf |- *; lia].
Qed.

Lemma parse_object_step (f : nat) (t : string) :
  parse_value (S f) (String "{" (String quote_char t)) =
  match parse_members f (String quote_char t) with
  | Some (m, rest) => Some (JObject m, rest)
  | None => None
  end.
Proof. reflexivity. Qed.

(** An object of scalars reads back as itself, given fuel for its members. *)
Lemma parse_object_scalars (m : list (string * json)) (f : nat) (rest : string) :
  m <> [] ->
  Forall (fun kv => scalar (snd kv)) m ->
  List.length m <= f ->
  parse_value (S (S f)) (stringify (JObject m) ++ rest) = Some (JObject m, rest).
Proof.
  intros Hne Hall Hf.
  assert (E : (stringify (JObject m) ++ rest)%string
              = String "{" (join "," (map member_text m) ++ String "}" rest)).
  { cbn [stringify]. cbn [append]. f_equal.
    rewrite append_assoc. reflexivity. }
  rewrite E.
  destruct m as [|[k v] m]; [congruence|].
  assert (Q : exists t, (join "," (map member_text ((k, v) :: m)) ++ String "}" rest)%string
                        = String quote_char t).
  { destruct m; cbn [map join]; unfold member_text at 1; cbn [fst];
      rewrite ?append_assoc, quote_append; eauto. }
  destruct Q as (t & Q).
  rewrite Q, parse_object_step, <- Q.
  rewrite parse_members_scalars by assumption. reflexivity.
Qed.

End JsonFacts.

(* ================================================================== *)
(** * Runs: sequencing, handlers, and the retry loop *)
(* ================================================================== *)

Section RunFacts.

Context {NUM : JsNumber}.

Lemma run_pbind {A B : Type} (w : world) (p : prog A) (f : A -> prog B) (n : nat) :
  run w n (pbind p f) =
  (fst (run w (n + List.length (snd (run w n p))) (f (fst (run w n p)))),
   (snd (run w n p)
    ++ snd (run w (n + List.length (snd (run w n p))) (f (fst (run w n p)))))%list).
Proof.
  revert n; induction p as [a | X e k IH]; intros n.
  - cbn [pbind run fst snd List.length app]. rewrite Nat.add_0_r.
    now destruct (run w n (f a)).
  - cbn [pbind run fst snd List.length app]. rewrite IH.
    cbn [fst snd]. now rewrite Nat.add_succ_r.
Qed.

Lemma runs_to_intro {S A : Type} (w : world) (n : nat) (m : M S A) (s : S) :
  runs_to w n m s (result_of w n m s) (state_after w n m s) (trace_of w n m s).
Proof.
  unfold runs_to, result_of, state_after, trace_of.
  now destruct (run w n (m s)) as [[o s'] tr].
Qed.

Lemma runs_to_unique {S A : Type} (w : world) (n : nat) (m : M S A) (s : S)
    (o : outcome A) (s' : S) (tr : list entry) :
  runs_to w n m s o s' tr ->
  result_of w n m s = o /\ state_after w n m s = s' /\ trace_of w n m s = tr.
Proof.
  unfold runs_to, result_of, state_after, trace_of. intros ->. auto.
Qed.

Lemma runs_bind_ok {S A B : Type} (w : world) (n : nat) (m : M S A) (f : A -> M S B)
    (s s1 s2 : S) (a : A) (o : outcome B) (tr1 tr2 : list entry) :
  runs_to w n m s (Ok a) s1 tr1 ->
  runs_to w (n + List.length tr1) (f a) s1 o s2 tr2 ->
  runs_to w n (bind m f) s o s2 (tr1 ++ tr2).
Proof.
  unfold runs_to, bind. intros H1 H2. rewrite run_pbind, H1. cbn [fst snd].
  now rewrite H2.
Qed.

Lemma runs_bind_thrown {S A B : Type} (w : world) (n : nat) (m : M S A) (f : A -> M S B)
    (s s1 : S) (e : error) (tr1 : list entry) :
  runs_to w n m s (Thrown e) s1 tr1 ->
  runs_to w n (bind m f) s (Thrown e) s1 tr1.
Proof.
  unfold runs_to, bind. intros H1. rewrite run_pbind, H1. cbn [fst snd run].
  now rewrite List.app_nil_r.
Qed.

Lemma runs_bind_out {S A B : Type} (w : world) (n : nat) (m : M S A) (f : A -> M S B)
    (s s1 : S) (why : string) (tr1 : list entry) :
  runs_to w n m s (OutOfModel why) s1 tr1 ->
  runs_to w n (bind m f) s (OutOfModel why) s1 tr1.
Proof.
  unfold runs_to, bind. intros H1. rewrite run_pbind, H1. cbn [fst snd run].
  now rewrite List.app_nil_r.
Qed.

Lemma runs_try_thrown {S A : Type} (w : world) (n : nat) (m : M S A) (h : error -> M S A)
    (s s1 s2 : S) (e : error) (o : outcome A) (tr1 tr2 : list entry) :
  runs_to w n m s (Thrown e) s1 tr1 ->
  runs_to w (n + List.length tr1) (h e) s1 o s2 tr2 ->
  runs_to w n (try_catch m h) s o s2 (tr1 ++ tr2).
Proof.
  unfold runs_to, try_catch. intros H1 H2. rewrite run_pbind, H1. cbn [fst snd].
  now rewrite H2.
Qed.

Lemma runs_try_ok {S A : Type} (w : world) (n : nat) (m : M S A) (h : error -> M S A)
    (s s1 : S) (a : A) (tr1 : list entry) :
  runs_to w n m s (Ok a) s1 tr1 ->
  runs_to w n (try_catch m h) s (Ok a) s1 tr1.
Proof.
  unfold runs_to, try_catch. intros H1. rewrite run_pbind, H1. cbn [fst snd run].
  now rewrite List.app_nil_r.
Qed.

Lemma runs_try_out {S A : Type} (w : world) (n : nat) (m : M S A) (h : error -> M S A)
    (s s1 : S) (why : string) (tr1 : list entry) :
  runs_to w n m s (OutOfModel why) s1 tr1 ->
  runs_to w n (try_catch m h) s (OutOfModel why) s1 tr1.
Proof.
  unfold runs_to, try_catch. intros H1. rewrite run_pbind, H1. cbn [fst snd run].
  now rewrite List.app_nil_r.
Qed.

(** ** Rules for [every_run] *)

Lemma every_run_weaken {S A : Type} (m : M S A) (s : S)
    (P Q : outcome A -> S -> list entry -> Prop) :
  every_run m s P -> (forall o s' tr, P o s' tr -> Q o s' tr) -> every_run m s Q.
Proof. intros H HPQ w n. apply HPQ, H. Qed.

Lemma every_run_ret {S A : Type} (a : A) (s : S) (Q : outcome A -> S -> list entry -> Prop) :
  Q (Ok a) s [] -> every_run (ret a) s Q.
Proof. intros H w n. exact H. Qed.

Lemma every_run_throw {S A : Type} (e : error) (s : S)
    (Q : outcome A -> S -> list entry -> Prop) :
  Q (Thrown e) s [] -> every_run (throw e) s Q.
Proof. intros H w n. exact H. Qed.

Lemma every_run_out {S A : Type} (why : string) (s : S)
    (Q : outcome A -> S -> list entry -> Prop) :
  Q (OutOfModel why) s [] -> every_run (out_of_model why) s Q.
Proof. intros H w n. exact H. Qed.

Lemma every_run_perform {S X : Type} (ev : event X) (s : S)
    (Q : outcome X -> S -> list entry -> Prop) :
  (forall x, Q (Ok x) s [Entry ev x]) -> every_run (perform ev) s Q.
Proof. intros H w n. apply H. Qed.

Lemma every_run_await {S X : Type} (ev : event (error + X)) (s : S)
    (Q : outcome X -> S -> list entry -> Prop) :
  (forall x, Q (match x with inl e => Thrown e | inr v => Ok v end) s [Entry ev x]) ->
  every_run (await ev) s Q.
Proof. intros H w n. apply H. Qed.

Lemma every_run_get {S : Type} (s : S) (Q : outcome S -> S -> list entry -> Prop) :
  Q (Ok s) s [] -> every_run get_state s Q.
Proof. intros H w n. exact H. Qed.

Lemma every_run_put {S : Type} (s s' : S) (Q : outcome unit -> S -> list entry -> Prop) :
  Q (Ok tt) s' [] -> every_run (put_state s') s Q.
Proof. intros H w n. exact H. Qed.

Lemma every_run_bind {S A B : Type} (m : M S A) (f : A -> M S B) (s : S)
    (Q : outcome B -> S -> list entry -> Prop) :
  every_run m s (fun o s' tr =>
    match o with
    | Ok a => every_run (f a) s' (fun o' s'' tr' => Q o' s'' (tr ++ tr')%list)
    | Thrown e => Q (Thrown e) s' tr
    | OutOfModel why => Q (OutOfModel why) s' tr
    end) ->
  every_run (bind m f) s Q.
Proof.
  intros H w n. specialize (H w n).
  pose proof (runs_to_intro w n m s) as R.
  destruct (result_of w n m s) as [a | e | why].
  - specialize (H w (n + List.length (trace_of w n m s))).
    pose proof (runs_to_intro w (n + List.length (trace_of w n m s)) (f a)
                  (state_after w n m s)) as R2.
    destruct (runs_to_unique _ _ _ _ _ _ _ (runs_bind_ok _ _ _ _ _ _ _ _ _ _ _ R R2))
      as (-> & -> & ->).
    exact H.
  - destruct (runs_to_unique _ _ _ _ _ _ _ (runs_bind_thrown _ _ _ f _ _ _ _ R))
      as (-> & -> & ->).
    exact H.
  - destruct (runs_to_unique _ _ _ _ _ _ _ (runs_bind_out _ _ _ f _ _ _ _ R))
      as (-> & -> & ->).
    exact H.
Qed.

Lemma every_run_try_catch {S A : Type} (m : M S A) (h : error -> M S A) (s : S)
    (Q : outcome A -> S -> list entry -> Prop) :
  every_run m s (fun o s' tr =>
    match o with
    | Thrown e => every_run (h e) s' (fun o' s'' tr' => Q o' s'' (tr ++ tr')%list)
    | _ => Q o s' tr
    end) ->
  every_run (try_catch m h) s Q.
Proof.
  intros H w n. specialize (H w n).
  pose proof (runs_to_intro w n m s) as R.
  destruct (result_of w n m s) as [a | e | why].
  - destruct (runs_to_unique _ _ _ _ _ _ _ (runs_try_ok _ _ _ h _ _ _ _ R))
      as (-> & -> & ->).
    exact H.
  - specialize (H w (n + List.length (trace_of w n m s))).
    pose proof (runs_to_intro w (n + List.length (trace_of w n m s)) (h e)
                  (state_after w n m s)) as R2.
    destruct (runs_to_unique _ _ _ _ _ _ _ (runs_try_thrown _ _ _ _ _ _ _ _ _ _ _ R R2))
      as (-> & -> & ->).
    exact H.
  - destruct (runs_to_unique _ _ _ _ _ _ _ (runs_try_out _ _ _ h _ _ _ _ R))
      as (-> & -> & ->).
    exact H.
Qed.

End RunFacts.

Section RetryFacts.

Context {NUM : JsNumber}.

Variables (S A : Type) (fn : M S A) (k : request_kind).

Hypothesis fn_one : one_request fn k.

Variables (maxR base maxDelay : Z) (should : error -> bool).

Lemma one_request_run (w : world) (n : nat) (s : S) :
  exists en, runs_to w n fn s (result_of w n fn s) s [en] /\ entry_kind en = k.
Proof.
  destruct (fn_one s w n) as [Hs Hk].
  pose proof (runs_to_intro w n fn s) as R. rewrite Hs in R.
  destruct (trace_of w n fn s) as [|en [|en' tr]]; try discriminate Hk.
  exists en. split; [exact R | now inversion Hk].
Qed.

Lemma runs_throw (w : world) (n : nat) (e : error) (s : S) :
  runs_to w n (@throw NUM S A e) s (Thrown e) s [].
Proof. reflexivity. Qed.

Lemma runs_sleep (w : world) (n : nat) (ms : Z) (s : S) :
  runs_to w n (perform (Sleep ms)) s (Ok (w n unit (Sleep ms))) s
    [Entry (Sleep ms) (w n unit (Sleep ms))].
Proof. reflexivity. Qed.

(** The loop of [retry] around a callback of one request per call: it
    makes [r] retries for some [r] with [attempt + r <= maxRetries]; every
    call before the last threw an error that [shouldRetry] accepted; the
    loop ends as the last call ended, and when that was a throw, either
    [shouldRetry] refused the error or the retries were used up. *)
Lemma retry_loop_runs (fuel : nat) :
  forall (a : Z) (last : option error) (w : world) (n : nat) (s : S),
    (a + Z.of_nat fuel = maxR + 1)%Z ->
    1 <= fuel ->
    let loop := retry_loop fn maxR base maxDelay should fuel a last in
    exists r : nat,
      (a + Z.of_nat r <= maxR)%Z
      /\ kinds (trace_of w n loop s) = retry_shape k base maxDelay a r
      /\ (forall i, i < r ->
            exists e, result_of w (n + 2 * i) fn s = Thrown e /\ should e = true)
      /\ result_of w n loop s = result_of w (n + 2 * r) fn s
      /\ state_after w n loop s = s
      /\ (forall e, result_of w (n + 2 * r) fn s = Thrown e ->
            should e = false \/ (a + Z.of_nat r = maxR)%Z).
Proof.
  induction fuel as [|fuel IH]; intros a last w n s Hsum Hpos; [lia|].
  cbn zeta. cbn [retry_loop].
  match goal with |- context [try_catch fn ?h] => set (hd := h) end.
  destruct (one_request_run w n s) as (en & R & Hk).
  destruct (result_of w n fn s) as [x | e | why] eqn:Ho.
  - apply (runs_try_ok w n fn hd) in R.
    apply runs_to_unique in R as (R1 & R2 & R3).
    exists 0. rewrite R1, R2, R3, Nat.add_0_r, Ho. cbn [kinds map retry_shape].
    rewrite Hk. repeat split; try lia; try discriminate.
  - destruct ((a =? maxR)%Z || negb (should e)) eqn:C.
    + assert (T : runs_to w n (try_catch fn hd) s (Thrown e) s ([en] ++ [])).
      { eapply runs_try_thrown; [exact R|]. subst hd. cbv beta. rewrite C.
        apply runs_throw. }
      apply runs_to_unique in T as (R1 & R2 & R3).
      exists 0. rewrite R1, R2, R3, Nat.add_0_r, Ho. cbn [kinds map retry_shape app].
      rewrite Hk. repeat split; try lia.
      intros e' E; inversion E; subst e'.
      apply orb_prop in C as [C | C].
      * right. apply Z.eqb_eq in C. lia.
      * left. now apply negb_true_iff in C.
    + pose proof C as C'.
      apply orb_false_elim in C as [C1 C2].
      apply Z.eqb_neq in C1. apply negb_false_iff in C2.
      set (loop' := retry_loop fn maxR base maxDelay should fuel (a + 1)%Z (Some e)).
      destruct (IH (a + 1)%Z (Some e) w (n + 2) s) as (r & B1 & B2 & B3 & B4 & B5 & B6);
        [lia | lia |].
      fold loop' in B2, B4, B5.
      pose proof (runs_to_intro w (n + 2) loop' s) as L.
      rewrite B4, B5 in L.
      set (d := retry_delay base maxDelay a).
      assert (Bd : runs_to w (n + 1) (bind (perform (Sleep d)) (fun _ => loop')) s
                     (result_of w (n + 2 + 2 * r) fn s) s
                     ([Entry (Sleep d) (w (n + 1) unit (Sleep d))]
                      ++ trace_of w (n + 2) loop' s)).
      { eapply runs_bind_ok; [apply runs_sleep|].
        cbn [List.length]. replace (n + 1 + 1) with (n + 2) by lia. exact L. }
      assert (T : runs_to w n (try_catch fn hd) s
                    (result_of w (n + 2 + 2 * r) fn s) s
                    ([en] ++ [Entry (Sleep d) (w (n + 1) unit (Sleep d))]
                     ++ trace_of w (n + 2) loop' s)).
      { eapply runs_try_thrown; [exact R|]. subst hd. cbv beta. rewrite C'.
        cbn [List.length]. exact Bd. }
      apply runs_to_unique in T as (R1 & R2 & R3).
      exists (Datatypes.S r). rewrite R1, R2, R3.
      replace (n + 2 * Datatypes.S r) with (n + 2 + 2 * r) by lia.
      repeat split.
      * lia.
      * cbn [app]. unfold kinds in *. cbn [map retry_shape entry_kind kind_of].
        rewrite Hk. do 2 f_equal. exact B2.
      * intros [|i] Hi.
        -- rewrite Nat.mul_0_r, Nat.add_0_r. exists e. split; [exact Ho | exact C2].
        -- replace (n + 2 * Datatypes.S i) with (n + 2 + 2 * i) by lia. apply B3. lia.
      * intros e' E. destruct (B6 e' E) as [F | F]; [now left | right; lia].
  - apply (runs_try_out w n fn hd) in R.
    apply runs_to_unique in R as (R1 & R2 & R3).
    exists 0. rewrite R1, R2, R3, Nat.add_0_r, Ho. cbn [kinds map retry_shape].
    rewrite Hk. repeat split; try lia; try discriminate.
Qed.

End RetryFacts.

(* ================================================================== *)
(** * The retry helper *)
(* ================================================================== *)

Section RetryPolicy.

Context {NUM : JsNumber}.

Lemma await_one_request (S X : Type) (ev : event (error + X)) :
  one_request (await ev : M S X) (kind_of ev).
Proof. intros s w n. split; reflexivity. Qed.

(** C8. [retry] with the default [maxRetries], [baseDelayMs] and
    [maxDelayMs], around any callback and with any [shouldRetry]: the
    callback is called [r + 1] times for some [r <= 3], so at most 4 times;
    between consecutive calls [retry] sleeps min(1000 * 2^attempt, 10000)
    milliseconds, and makes no other request; every call but the last
    threw an error that [shouldRetry] accepted; the result is the value or
    the error of the last call, and when the last call threw, [shouldRetry]
    refused its error or it was the fourth call.  The callback is a
    function known by its label only, whose calls the world answers. *)
Theorem retry_default_policy (S T : Type) (label : string) (p : option (error -> bool))
    (w : world) (n : nat) (s : S) :
  let should := opt_or p (fun _ => true) in
  let fn : M S T := await (Invoke T label) in
  let m : M S T :=
    retry fn {| maxRetries := None; baseDelayMs := None; maxDelayMs := None;
                shouldRetry := p |} in
  exists r : nat,
    r <= 3
    /\ invoke_count (trace_of w n m s) = r + 1
    /\ kinds (trace_of w n m s) = retry_shape (KInvoke label) 1000 10000 0 r
    /\ sleeps (trace_of w n m s)
       = map (fun i => Z.min (1000 * 2 ^ Z.of_nat i) 10000) (seq 0 r)
    /\ (forall i, i < r ->
          exists e, w (n + 2 * i) _ (Invoke T label) = inl e /\ should e = true)
    /\ result_of w n m s
       = match w (n + 2 * r) _ (Invoke T label) with
         | inl e => Thrown e
         | inr x => Ok x
         end
    /\ state_after w n m s = s
    /\ (forall e, w (n + 2 * r) _ (Invoke T label) = inl e -> should e = false \/ r = 3).
Proof.
  cbn zeta. unfold retry. cbn [maxRetries baseDelayMs maxDelayMs shouldRetry opt_or].
  change (Z.to_nat (3 + 1)) with 4.
  destruct (retry_loop_runs S T (await (Invoke T label)) (KInvoke label)
              (await_one_request S T (Invoke T label)) 3 1000 10000
              (opt_or p (fun _ => true)) 4 0%Z None w n s)
    as (r & B1 & B2 & B3 & B4 & B5 & B6); [reflexivity | lia |].
  cbn zeta in B2, B4, B5.
  assert (R3 : r <= 3) by lia.
  assert (Res : forall j, result_of w j (await (Invoke T label) : M S T) s
                          = match w j _ (Invoke T label) with
                            | inl e => Thrown e
                            | inr x => Ok x
                            end).
  { intros j. reflexivity. }
  exists r. split; [exact R3|].
  unfold invoke_count, sleeps. rewrite B2, B4, B5, Res.
  repeat split.
  - destruct r as [|[|[|[|r]]]]; try reflexivity; lia.
  - destruct r as [|[|[|[|r]]]]; try reflexivity; lia.
  - intros i Hi. destruct (B3 i Hi) as (e & E1 & E2). rewrite Res in E1.
    exists e. split; [|exact E2].
    destruct (w (n + 2 * i) (error + T)%type (Invoke T label)); congruence.
  - intros e E. destruct (B6 e) as [F | F]; [rewrite Res, E; reflexivity | now left | right; lia].
Qed.

End RetryPolicy.

(* ================================================================== *)
(** * Tables, estimates and pre-operation checks *)
(* ================================================================== *)

Lemma upper_char_not_lower (c : ascii) : Js.is_lower (Js.upper_char c) = false.
Proof. destruct c as [[] [] [] [] [] [] [] []]; reflexivity. Qed.

Lemma toUpperCase_has_no_lower (s : string) : Js.has_lower (Js.toUpperCase s) = false.
Proof.
  induction s as [|c s IH]; [reflexivity|].
  cbn [Js.toUpperCase Js.has_lower]. now rewrite upper_char_not_lower, IH.
Qed.

(** An upper-cased key never names a property that an object literal
    inherits from [Object.prototype]: a table lookup after [toUpperCase]
    finds own properties only. *)
Lemma toUpperCase_not_inherited (s : string) : inherited_property (Js.toUpperCase s) = false.
Proof.
  destruct (inherited_property (Js.toUpperCase s)) eqn:E; [|reflexivity].
  exfalso. unfold inherited_property in E.
  apply existsb_exists in E as (name & Hin & Heq).
  apply String.eqb_eq in Heq.
  pose proof (toUpperCase_has_no_lower s) as L. rewrite Heq in L.
  unfold object_prototype_names in Hin. cbn [In] in Hin.
  repeat (destruct Hin as [<- | Hin]; [discriminate L|]).
  exact Hin.
Qed.

(** The checks that open an operation are decided by the hypotheses at
    hand: rewrite with them and reduce, as often as it makes progress. *)
Ltac step_checks :=
  repeat first
    [ progress cbn beta iota
    | progress cbn [ret throw pbind fst snd]
    | match goal with
      | H : _ = _ |- _ => rewrite H
      end ];
  try reflexivity.

Section AdapterFacts.

Context {NUM : JsNumber}.

Variable findProgramAddressSync : list (list byte) -> PublicKey -> option PublicKey.

Variable toSmallestUnit : num -> string -> error + Z.

(** The sum that [getBalance] accumulates is the left-to-right sum of the
    amounts of the notes of the token. *)
Lemma balance_loop (t : string) (notes : list DepositNote) (acc : num) :
  fold_left
    (fun total note =>
       if String.eqb (token note) t then nadd total (amount note) else total)
    notes acc
  = fold_left nadd (map amount (filter (fun note => String.eqb (token note) t) notes)) acc.
Proof.
  revert acc; induction notes as [|x notes IH]; intros acc; [reflexivity|].
  cbn [fold_left filter]. destruct (String.eqb (token x) t); cbn [map fold_left]; apply IH.
Qed.

(** C9. [PrivacyCashAdapter.getBalance(token)] on a ready adapter makes no
    request at all: when the upper-cased token has a pool configuration it
    returns the sum, from 0 and in insertion order, of the amounts of the
    notes of the local map whose token is the upper-cased one; otherwise it
    throws.  The map is left as it was. *)
Theorem getBalance_sums_local_notes (requested : string) (st : PrivacyCashAdapter) :
  initialized (pc_base st) = true ->
  pc_getBalance requested st =
  Ret (match own_property POOL_CONFIGS (Js.toUpperCase requested) with
       | Some _ =>
           Ok (fold_left nadd
                 (map amount
                    (filter (fun note => String.eqb (token note) (Js.toUpperCase requested))
                       (map_values (depositNotes st))))
                 (num_of_Z 0))
       | None => Thrown (JsError ("Token " ++ requested ++ " not supported by Privacy Cash"))
       end, st).
Proof.
  intros Hready. unfold pc_getBalance, bind, ensureReady. rewrite Hready.
  cbn [ret pbind fst snd].
  destruct (own_property POOL_CONFIGS (Js.toUpperCase requested)); [|reflexivity].
  cbn [get_state pbind fst snd ret]. now rewrite balance_loop.
Qed.

(** C10. [estimate] of the ShadowWire, Arcium and Privacy Cash adapters is
    a total function of the request (nothing is thrown, no request is
    made); when the token, defaulted to SOL and upper-cased, is not a key
    of the adapter's table, the result has fee 0, latency 0 and the one
    warning that names that token. *)
Theorem estimate_unsupported_token (request : EstimateRequest) :
  let t := Js.toUpperCase (Js.opt_str_or (er_token request) "SOL") in
  (own_property SHADOWWIRE_TOKENS t = None ->
     eres_fee (sw_estimate request) = num_of_Z 0
     /\ eres_latencyMs (sw_estimate request) = num_of_Z 0
     /\ eres_warnings (sw_estimate request) = ["Token " ++ t ++ " not supported by ShadowWire"])
  /\ (own_property CSPL_TOKENS t = None ->
        eres_fee (arc_estimate request) = num_of_Z 0
        /\ eres_latencyMs (arc_estimate request) = num_of_Z 0
        /\ eres_warnings (arc_estimate request) = ["Token " ++ t ++ " not supported by Arcium"])
  /\ (own_property POOL_CONFIGS t = None ->
        eres_fee (pc_estimate request) = num_of_Z 0
        /\ eres_latencyMs (pc_estimate request) = num_of_Z 0
        /\ eres_warnings (pc_estimate request)
           = ["Token " ++ t ++ " not supported by Privacy Cash"]).
Proof.
  cbn zeta. repeat split;
    unfold sw_estimate, arc_estimate, pc_estimate, estimate_token;
    match goal with H : _ = None |- _ => rewrite H end; reflexivity.
Qed.

(** C3 as the code has it.  On a ready adapter with a wallet, a request
    for a supported token whose amount is below the minimum of the token
    ends in AmountBelowMinimumError at once, before any request to the
    wallet, the network or the chain, and leaves the adapter as it was:
    for ShadowWire [transfer] and [deposit], and for Privacy Cash
    [deposit] and [transfer]. *)
Theorem below_minimum_fails_first :
  (forall (request : TransferRequest) (st : ShadowWireAdapter) (w : WalletAdapter)
          (cfg : ShadowWireToken),
      initialized (sw_base st) = true ->
      wallet (sw_base st) = Some w ->
      own_property SHADOWWIRE_TOKENS (Js.toUpperCase (tr_token request)) = Some cfg ->
      nltb (tr_amount request) (sw_minAmount cfg) = true ->
      sw_transfer request st =
      Ret (Thrown (AmountBelowMinimumError (tr_amount request) (sw_minAmount cfg)
                     (Js.toUpperCase (tr_token request)) SHADOWWIRE), st))
  /\ (forall (request : DepositRequest) (st : ShadowWireAdapter) (w : WalletAdapter)
             (cfg : ShadowWireToken),
        initialized (sw_base st) = true ->
        wallet (sw_base st) = Some w ->
        own_property SHADOWWIRE_TOKENS (Js.toUpperCase (dr_token request)) = Some cfg ->
        nltb (dr_amount request) (sw_minAmount cfg) = true ->
        sw_deposit toSmallestUnit request st =
        Ret (Thrown (AmountBelowMinimumError (dr_amount request) (sw_minAmount cfg)
                       (Js.toUpperCase (dr_token request)) SHADOWWIRE), st))
  /\ (forall (request : DepositRequest) (st : PrivacyCashAdapter) (w : WalletAdapter)
             (cfg : PoolConfig),
        initialized (pc_base st) = true ->
        wallet (pc_base st) = Some w ->
        connected (pc_base st) = true ->
        own_property POOL_CONFIGS (Js.toUpperCase (dr_token request)) = Some cfg ->
        nltb (dr_amount request) (minDeposit cfg) = true ->
        pc_deposit findProgramAddressSync request st =
        Ret (Thrown (AmountBelowMinimumError (dr_amount request) (minDeposit cfg)
                       (Js.toUpperCase (dr_token request)) PRIVACY_CASH), st))
  /\ (forall (request : TransferRequest) (st : PrivacyCashAdapter) (w : WalletAdapter)
             (cfg : PoolConfig),
        initialized (pc_base st) = true ->
        wallet (pc_base st) = Some w ->
        connected (pc_base st) = true ->
        own_property POOL_CONFIGS (Js.toUpperCase (tr_token request)) = Some cfg ->
        nltb (tr_amount request) (minDeposit cfg) = true ->
        pc_transfer findProgramAddressSync request st =
        Ret (Thrown (AmountBelowMinimumError (tr_amount request) (minDeposit cfg)
                       (Js.toUpperCase (tr_token request)) PRIVACY_CASH), st)).
Proof.
  repeat split; intros request st w cfg.
  - intros Hr Hw Ht Hlt.
    unfold sw_transfer, bind, ensureReady, ensureWallet. step_checks.
  - intros Hr Hw Ht Hlt.
    unfold sw_deposit, bind, ensureReady, ensureWallet. step_checks.
  - intros Hr Hw Hc Ht Hlt.
    unfold pc_deposit, bind, ensureReady, ensureWallet, getConnection. step_checks.
  - intros Hr Hw Hc Ht Hlt.
    unfold pc_transfer, pc_deposit, bind, ensureReady, ensureWallet, getConnection.
    cbn [dr_token dr_amount]. step_checks.
Qed.

End AdapterFacts.

(** ** The checks on concrete requests *)

Section Instances.

#[local] Existing Instance DecNumber.

Lemma getBalance_sums_local_notes_witness :
  initialized (pc_base ex_pc) = true
  /\ pc_getBalance "sol" ex_pc = Ret (Ok (num_of_Z 8), ex_pc)
  /\ pc_getBalance "doge" ex_pc
     = Ret (Thrown (JsError "Token doge not supported by Privacy Cash"), ex_pc).
Proof.
  split; [reflexivity|].
  split; [exact (getBalance_sums_local_notes "sol" ex_pc eq_refl)
         | exact (getBalance_sums_local_notes "doge" ex_pc eq_refl)].
Defined.

Lemma estimate_unsupported_token_witness :
  own_property SHADOWWIRE_TOKENS "DOGE" = None
  /\ own_property CSPL_TOKENS "DOGE" = None
  /\ own_property POOL_CONFIGS "DOGE" = None
  /\ eres_fee (sw_estimate ex_unknown_estimate) = num_of_Z 0
  /\ eres_latencyMs (arc_estimate ex_unknown_estimate) = num_of_Z 0
  /\ eres_warnings (pc_estimate ex_unknown_estimate) = ["Token DOGE not supported by Privacy Cash"].
Proof.
  destruct (estimate_unsupported_token ex_unknown_estimate) as (A & B & C).
  refine (conj eq_refl (conj eq_refl (conj eq_refl (conj _ (conj _ _))))).
  - exact (proj1 (A eq_refl)).
  - exact (proj1 (proj2 (B eq_refl))).
  - exact (proj2 (proj2 (C eq_refl))).
Defined.

Lemma below_minimum_fails_first_witness :
  nltb (lit 1 3) (lit 1 2) = true
  /\ sw_transfer ex_small_transfer ex_sw
     = Ret (Thrown (AmountBelowMinimumError (lit 1 3) (lit 1 2) "SOL" SHADOWWIRE), ex_sw)
  /\ sw_deposit ex_units ex_small_deposit ex_sw
     = Ret (Thrown (AmountBelowMinimumError (lit 1 3) (lit 1 2) "SOL" SHADOWWIRE), ex_sw)
  /\ pc_deposit ex_pda ex_small_deposit ex_pc
     = Ret (Thrown (AmountBelowMinimumError (lit 1 3) (lit 1 1) "SOL" PRIVACY_CASH), ex_pc)
  /\ pc_transfer ex_pda ex_small_transfer ex_pc
     = Ret (Thrown (AmountBelowMinimumError (lit 1 3) (lit 1 1) "SOL" PRIVACY_CASH), ex_pc).
Proof.
  destruct (below_minimum_fails_first ex_pda ex_units) as (A & B & C & D).
  refine (conj eq_refl (conj _ (conj _ (conj _ _)))).
  - exact (A ex_small_transfer ex_sw ex_wallet _ eq_refl eq_refl eq_refl eq_refl).
  - exact (B ex_small_deposit ex_sw ex_wallet _ eq_refl eq_refl eq_refl eq_refl).
  - exact (C ex_small_deposit ex_pc ex_wallet _ eq_refl eq_refl eq_refl eq_refl eq_refl).
  - exact (D ex_small_transfer ex_pc ex_wallet _ eq_refl eq_refl eq_refl eq_refl eq_refl).
Defined.

(** C3 does not hold of ShadowWire [withdraw]: 0.001 SOL is below the
    minimum of 0.01 SOL, and the withdrawal is signed, posted and
    reported as done. *)
Lemma withdraw_below_minimum_is_signed :
  own_property SHADOWWIRE_TOKENS "SOL"
  = Some {| sw_decimals := 9; sw_fee := lit 5 3; sw_minAmount := lit 1 2 |}
  /\ nltb (wr_amount ex_small_withdraw) (lit 1 2) = true
  /\ kinds (trace_of (ex_world 200 ex_accepted) 0 (sw_withdraw ex_units ex_small_withdraw) ex_sw)
     = [KDateNow; KSignMessage; KFetch "POST" "https://api.example/v1/withdraw"]
  /\ result_of (ex_world 200 ex_accepted) 0 (sw_withdraw ex_units ex_small_withdraw) ex_sw
     = Ok {| wres_signature := "tx1"; wres_provider := SHADOWWIRE;
             wres_fee := nmul (lit 1 3) (lit 5 3) |}.
Proof. refine (conj _ (conj _ (conj _ _))); reflexivity. Qed.

End Instances.

(* ================================================================== *)
(** * Commitments and the withdraw instruction *)
(* ================================================================== *)

(** Copying [src] over a window of its own length leaves what is before
    and after the window. *)
Lemma buffer_copy_at (src pre old post : list byte) (off : nat) :
  off = List.length pre ->
  List.length old = List.length src ->
  Js.buffer_copy src (pre ++ old ++ post)%list off = (pre ++ src ++ post)%list.
Proof.
  intros -> Hlen. unfold Js.buffer_copy.
  rewrite !List.length_app.
  rewrite (List.firstn_all2 (n := List.length pre + (List.length old + List.length post)
                                   - List.length pre) src) by lia.
  f_equal.
  - rewrite List.firstn_app, Nat.sub_diag, List.firstn_all. cbn [firstn].
    apply List.app_nil_r.
  - f_equal. rewrite List.skipn_app, List.skipn_all2 by lia. cbn [app].
    replace (List.length pre + List.length src - List.length pre) with (List.length old) by lia.
    rewrite List.skipn_app, List.skipn_all, Nat.sub_diag. reflexivity.
Qed.

Lemma length_le_bytes (n : nat) (v : Z) : List.length (Js.le_bytes n v) = n.
Proof. revert v; induction n as [|n IH]; intros v; cbn; [reflexivity | now rewrite IH]. Qed.

Lemma skipn_zeros (k m : nat) : skipn k (repeat x00 m) = repeat x00 (m - k).
Proof.
  revert k; induction m as [|m IH]; intros [|k]; cbn [repeat skipn Nat.sub]; auto.
Qed.

Lemma firstn_zeros (k m : nat) : firstn k (repeat x00 m) = repeat x00 (Nat.min k m).
Proof.
  revert k; induction m as [|m IH]; intros [|k]; cbn [repeat firstn Nat.min]; auto.
  now rewrite IH.
Qed.

Lemma buffer_copy_zeros (src pre : list byte) (m off : nat) :
  off = List.length pre ->
  Js.buffer_copy src (pre ++ repeat x00 m)%list off
  = (pre ++ firstn m (src ++ repeat x00 m))%list.
Proof.
  intros ->. unfold Js.buffer_copy.
  rewrite List.length_app, List.repeat_length.
  replace (List.length pre + m - List.length pre) with m by lia.
  rewrite List.firstn_app, Nat.sub_diag, List.firstn_all. cbn [firstn].
  rewrite List.app_nil_r. f_equal.
  rewrite List.skipn_app, List.skipn_all2 by lia. cbn [app].
  replace (List.length pre + List.length (firstn m src) - List.length pre)
    with (List.length (firstn m src)) by lia.
  rewrite List.firstn_app. f_equal.
  rewrite List.length_firstn.
  rewrite skipn_zeros, firstn_zeros. f_equal. lia.
Qed.

Lemma firstn_padded (k m : nat) (l : list byte) :
  k <= m -> firstn k (l ++ repeat x00 m) = firstn k (l ++ repeat x00 k).
Proof.
  intros H. rewrite !List.firstn_app, !firstn_zeros. do 2 f_equal. lia.
Qed.

Lemma split_three (a b : nat) (l : list byte) :
  l = (firstn a l ++ firstn b (skipn a l) ++ skipn (a + b) l)%list.
Proof.
  rewrite <- (List.firstn_skipn a l) at 1. f_equal.
  rewrite <- (List.firstn_skipn b (skipn a l)) at 1. f_equal.
  rewrite List.skipn_skipn. f_equal. lia.
Qed.

Section InstructionFacts.

Context {NUM : JsNumber}.

Variable findProgramAddressSync : list (list byte) -> PublicKey -> option PublicKey.

(** C1 as the code has it.  On the hex text of a secret and a nullifier,
    [computeCommitment] is the hex text of the first 32 bytes of the
    secret followed by the nullifier, and [hashNullifier] gives the
    nullifier back: neither is a hash. *)
Theorem commitment_is_plain_bytes (secretBytes nullifierBytes : list byte) :
  computeCommitment (Js.bytesToHex secretBytes) (Js.bytesToHex nullifierBytes)
  = Js.bytesToHex (firstn 32 (secretBytes ++ nullifierBytes))
  /\ hashNullifier (Js.bytesToHex nullifierBytes) = Js.bytesToHex nullifierBytes.
Proof.
  split.
  - unfold computeCommitment, Js.slice. cbn [Js.str_drop Nat.sub].
    rewrite <- bytesToHex_app.
    change 64 with (2 * 32). rewrite str_take_bytesToHex.
    now rewrite hexToBytes_bytesToHex.
  - unfold hashNullifier. now rewrite hexToBytes_bytesToHex.
Qed.

(** C7, as the code has it.  [createWithdrawInstruction], for a nullifier
    whose hash has at most 32 bytes, a proof shorter than 2^32 bytes and
    both program addresses: the data is the byte 0x02, a slot of 32 bytes
    that holds the nullifier hash followed by zeros, a slot of 32 bytes
    that holds the first 32 bytes of the root followed by zeros, the
    length of the proof in 4 little-endian bytes, and the proof; the
    accounts are the recipient, the address derived from the seeds
    ["pool", mint], the address derived from ["nullifier", nullifier
    hash], the hash as it is and not its slot, the mint and the system
    program.  A hash of 32 bytes fills its slot; that of a note made by
    [deposit] has 31. *)
Theorem withdraw_instruction_layout (programId recipient : PublicKey)
    (nullifier root : string) (proof : list byte) (poolConfig : PoolConfig)
    (poolPda nullifierPda : PublicKey) :
  let nullifierHash := Js.hexToBytes (hashNullifier nullifier) in
  let rootBytes := Js.hexToBytes root in
  List.length nullifierHash <= 32 ->
  (Z.of_nat (List.length proof) < 2 ^ 32)%Z ->
  findProgramAddressSync [Js.buffer_of_string "pool"; mint poolConfig] programId
  = Some poolPda ->
  findProgramAddressSync [Js.buffer_of_string "nullifier"; nullifierHash] programId
  = Some nullifierPda ->
  createWithdrawInstruction findProgramAddressSync programId recipient nullifier root proof
    poolConfig
  = inr {| ix_programId := programId;
           ix_keys :=
             [ {| pubkey := recipient; isSigner := false; isWritable := true |};
               {| pubkey := poolPda; isSigner := false; isWritable := true |};
               {| pubkey := nullifierPda; isSigner := false; isWritable := true |};
               {| pubkey := mint poolConfig; isSigner := false; isWritable := false |};
               {| pubkey := SystemProgram_programId; isSigner := false; isWritable := false |} ];
           ix_data :=
             ([x02]
                ++ nullifierHash ++ repeat x00 (32 - List.length nullifierHash)
                ++ firstn 32 (rootBytes ++ repeat x00 32)
                ++ Js.le_bytes 4 (Z.of_nat (List.length proof)) ++ proof)%list |}.
Proof.
  intros nullifierHash rootBytes Hn Hp Hpool Hnull.
  unfold createWithdrawInstruction. cbn zeta.
  fold nullifierHash. fold rootBytes. rewrite Hpool, Hnull.
  unfold Js.buffer_alloc, Js.writeUInt8, Js.writeUInt32LE.
  set (a := List.length nullifierHash) in *.
  set (len := List.length proof) in *.
  replace (1 + 32 + 32 + 4 + len) with (1 + (a + ((32 - a) + (36 + len)))) by lia.
  rewrite !List.repeat_app.
  match goal with
  | |- context [Js.buffer_copy [x02] (repeat x00 1 ++ ?r)%list 0] =>
      rewrite (buffer_copy_at [x02] [] (repeat x00 1) r 0 eq_refl eq_refl
               : Js.buffer_copy [x02] (repeat x00 1 ++ r)%list 0 = ([x02] ++ r)%list)
  end.
  rewrite (buffer_copy_at nullifierHash [x02] (repeat x00 a) _ 1)
    by (rewrite ?List.repeat_length; cbn [List.length]; lia).
  rewrite (List.app_assoc nullifierHash), (List.app_assoc [x02]).
  rewrite <- (List.repeat_app x00 36 len).
  set (pre := ([x02] ++ nullifierHash ++ repeat x00 (32 - a))%list).
  assert (Hpre : List.length pre = 33).
  { unfold pre. rewrite !List.length_app, List.repeat_length. cbn [List.length]. lia. }
  rewrite (buffer_copy_zeros rootBytes pre (36 + len) 33) by (symmetry; exact Hpre).
  set (R := firstn (36 + len) (rootBytes ++ repeat x00 (36 + len))).
  assert (HR : List.length R = 36 + len).
  { unfold R. rewrite List.length_firstn, List.length_app, List.repeat_length. lia. }
  assert (Hrange : ((0 <=? Z.of_nat len)%Z && (Z.of_nat len <? 2 ^ 32)%Z) = true).
  { apply andb_true_intro; split; [apply Z.leb_le; lia | apply Z.ltb_lt; exact Hp]. }
  rewrite Hrange.
  rewrite (split_three 32 4 R).
  assert (H32 : firstn 32 R = firstn 32 (rootBytes ++ repeat x00 32)).
  { unfold R. rewrite List.firstn_firstn.
    replace (Nat.min 32 (36 + len)) with 32 by lia.
    apply firstn_padded. lia. }
  rewrite H32.
  set (slot := firstn 32 (rootBytes ++ repeat x00 32)).
  assert (Hslot : List.length slot = 32).
  { unfold slot. rewrite List.length_firstn, List.length_app, List.repeat_length. lia. }
  rewrite (List.app_assoc pre slot).
  rewrite (buffer_copy_at _ (pre ++ slot) (firstn 4 (skipn 32 R)) _ 65)
    by (rewrite ?List.length_app, ?List.length_firstn, ?List.length_skipn, ?length_le_bytes,
          ?Hpre, ?Hslot, ?HR; lia).
  rewrite (List.app_assoc (pre ++ slot)).
  rewrite <- (List.app_nil_r (skipn (32 + 4) R)).
  rewrite (buffer_copy_at proof _ (skipn (32 + 4) R) [] 69)
    by (rewrite ?List.length_app, ?List.length_skipn, ?length_le_bytes, ?Hpre, ?Hslot, ?HR;
        fold len; lia).
  unfold pre, slot. rewrite List.app_nil_r, <- !List.app_assoc. reflexivity.
Qed.

End InstructionFacts.

Section InstructionInstances.

#[local] Existing Instance DecNumber.

Lemma withdraw_instruction_layout_witness :
  List.length (Js.hexToBytes (hashNullifier (nullifier ex_made))) = 31
  /\ option_map ix_data
       (match createWithdrawInstruction ex_pda ex_program ex_recipient
                (nullifier ex_made) (Js.bytesToHex (repeat x09 32)) [x0b; x0c; x0d] ex_pool with
        | inr ix => Some ix
        | inl _ => None
        end)
     = Some ([x02] ++ repeat x11 31 ++ [x00] ++ repeat x09 32 ++ [x03; x00; x00; x00]
               ++ [x0b; x0c; x0d])%list.
Proof.
  split; [reflexivity|].
  rewrite (withdraw_instruction_layout ex_pda ex_program ex_recipient
             (nullifier ex_made) (Js.bytesToHex (repeat x09 32)) [x0b; x0c; x0d] ex_pool
             (Js.buffer_of_string "pool" ++ repeat x05 28)%list
             (Js.buffer_of_string "nullifier" ++ repeat x11 23)%list
             ltac:(vm_compute; lia) eq_refl eq_refl eq_refl).
  reflexivity.
Defined.

(** C7 does not hold of the notes that [deposit] makes.  The nullifier
    of such a note has 31 bytes: the slot of the instruction holds them
    and a zero byte, while the seed of the nullifier address is the 31
    bytes, which is not the 32 bytes of the slot. *)
Lemma nullifier_seed_is_not_the_slot :
  result_of ex_offline 0 (pc_deposit ex_pda_sized ex_pool_deposit) ex_empty
  = Ok {| dres_signature := "sig"; dres_provider := PRIVACY_CASH;
          dres_commitment := Some (encodeNote ex_made);
          dres_fee := nmul (lit 5 3) (num_of_Z 5) |}
  /\ Js.hexToBytes (hashNullifier (nullifier ex_made)) = repeat x11 31
  /\ option_map ix_data
       (match createWithdrawInstruction ex_pda_sized ex_program ex_recipient
                (nullifier ex_made) (Js.bytesToHex (repeat x09 32)) [x0b; x0c; x0d] ex_pool with
        | inr ix => Some ix
        | inl _ => None
        end)
     = Some ([x02] ++ (repeat x11 31 ++ [x00]) ++ repeat x09 32 ++ [x03; x00; x00; x00]
               ++ [x0b; x0c; x0d])%list
  /\ option_map (fun ix => map (fun k => Some (pubkey k)) (ix_keys ix))
       (match createWithdrawInstruction ex_pda_sized ex_program ex_recipient
                (nullifier ex_made) (Js.bytesToHex (repeat x09 32)) [x0b; x0c; x0d] ex_pool with
        | inr ix => Some ix
        | inl _ => None
        end)
     = Some [ Some ex_recipient;
              ex_pda_sized [Js.buffer_of_string "pool"; mint ex_pool] ex_program;
              ex_pda_sized [Js.buffer_of_string "nullifier"; repeat x11 31] ex_program;
              Some (mint ex_pool);
              Some SystemProgram_programId ]
  /\ ex_pda_sized [Js.buffer_of_string "nullifier"; repeat x11 31] ex_program
     <> ex_pda_sized [Js.buffer_of_string "nullifier"; (repeat x11 31 ++ [x00])%list] ex_program.
Proof.
  refine (conj _ (conj _ (conj _ (conj _ _)))); try reflexivity.
  intros H. discriminate H.
Qed.

(** C1 does not hold of the code.  With the secret 1 and the nullifiers 2
    and 3, each on 31 bytes as [deposit] makes them, the two commitments
    are the same text, which begins with the secret itself, and the
    nullifier hash is the nullifier: no function that tells (1, 2) from
    (1, 3) is computed here. *)
Lemma commitment_ignores_nullifier :
  ex_hex31 x02 <> ex_hex31 x03
  /\ computeCommitment (ex_hex31 x01) (ex_hex31 x02)
     = computeCommitment (ex_hex31 x01) (ex_hex31 x03)
  /\ computeCommitment (ex_hex31 x01) (ex_hex31 x02) = (ex_hex31 x01 ++ "00")%string
  /\ hashNullifier (ex_hex31 x02) = ex_hex31 x02.
Proof.
  refine (conj _ (conj _ (conj _ _))); [intros H; discriminate H | reflexivity ..].
Qed.

End InstructionInstances.

(* ================================================================== *)
(** * The note codec *)
(* ================================================================== *)

Section NoteCodec.

Context {NUM : JsNumber} {LAWS : JsNumberLaws NUM}.

Lemma length_note_text (note : DepositNote) :
  7 <= String.length (stringify (note_json note)).
Proof.
  unfold note_json. cbn [stringify map join fst snd].
  rewrite !length_append. cbn [String.length]. lia.
Qed.

Lemma parse_note_text (note : DepositNote) :
  nfinite (amount note) = true ->
  nfinite (timestamp note) = true ->
  JSON_parse (stringify (note_json note)) = Some (note_json note).
Proof.
  intros Ha Ht. unfold JSON_parse.
  pose proof (length_note_text note) as L.
  destruct (String.length (stringify (note_json note))) as [|f]; [lia|].
  rewrite <- (append_nil_r (stringify (note_json note))).
  unfold note_json. rewrite parse_object_scalars.
  - reflexivity.
  - discriminate.
  - repeat constructor; cbn [snd scalar]; assumption.
  - cbn [List.length]. lia.
Qed.

(** C2 as the code has it.  [encodeNote] writes no prefix: the text is
    the base64 of the JSON text of the object with the members c, n, s,
    a, t, ts, whose c, n and s are the strings of the note as they are.
    For a note whose amount and timestamp are finite numbers,
    [decodeNote] reads that text back into the six properties of the
    note, which make up the note again. *)
Theorem note_codec_round_trip (note : DepositNote) :
  nfinite (amount note) = true ->
  nfinite (timestamp note) = true ->
  Js.startsWith "privacy-cash-note-v1-" (encodeNote note) = false
  /\ Js.string_of_buffer (Base64.decode (encodeNote note))
     = stringify (JObject [ ("c", JString (commitment note));
                            ("n", JString (nullifier note));
                            ("s", JString (secret note));
                            ("a", JNumber (amount note));
                            ("t", JString (token note));
                            ("ts", JNumber (timestamp note)) ])
  /\ decodeNote (encodeNote note) = Some (raw_of_note note)
  /\ note_of_raw (raw_of_note note) = Some note.
Proof.
  intros Ha Ht.
  assert (T : Js.string_of_buffer (Base64.decode (encodeNote note))
              = stringify (note_json note)).
  { unfold encodeNote. rewrite decode_encode.
    apply string_of_list_byte_of_string. }
  split; [reflexivity|]. split; [exact T|]. split.
  - unfold decodeNote. rewrite T, parse_note_text by assumption. reflexivity.
  - now destruct note.
Qed.

End NoteCodec.

Section NoteInstances.

#[local] Existing Instance DecNumber.

Lemma note_codec_round_trip_witness :
  nfinite (amount ex_deposit_note) = true
  /\ nfinite (timestamp ex_deposit_note) = true
  /\ decodeNote (encodeNote ex_deposit_note) = Some (raw_of_note ex_deposit_note).
Proof.
  refine (conj eq_refl (conj eq_refl _)).
  exact (proj1 (proj2 (proj2
           (note_codec_round_trip (LAWS := DecNumber_laws) ex_deposit_note eq_refl eq_refl)))).
Defined.

(** C2 does not hold of the code.  The text of a note has no prefix and
    is in the standard alphabet (here with a [+]); its members are c, n,
    s, a, t, ts, the first three as they are in the note.  [decodeNote]
    accepts the base64 of the empty object, every property then being
    undefined, and rejects the text of a note once the prefix is put
    before it. *)
Lemma note_text_is_plain_base64 :
  encodeNote ex_deposit_note
  = "eyJjIjoiMGF+fn4iLCJuIjoiMGIiLCJzIjoiMGMiLCJhIjo1LCJ0IjoiU09MIiwidHMiOjE3MDAwMDAwMDAwMDB9"
  /\ Js.startsWith "privacy-cash-note-v1-" (encodeNote ex_deposit_note) = false
  /\ Js.includes "+" (encodeNote ex_deposit_note) = true
  /\ stringify (note_json ex_deposit_note)
     = stringify (JObject [ ("c", JString "0a~~~"); ("n", JString "0b"); ("s", JString "0c");
                            ("a", JNumber (num_of_Z 5)); ("t", JString "SOL");
                            ("ts", JNumber (num_of_Z 1700000000000)) ])
  /\ decodeNote "e30="
     = Some {| raw_commitment := None; raw_nullifier := None; raw_secret := None;
               raw_amount := None; raw_token := None; raw_timestamp := None |}
  /\ decodeNote ("privacy-cash-note-v1-" ++ encodeNote ex_deposit_note) = None.
Proof. refine (conj _ (conj _ (conj _ (conj _ (conj _ _))))); reflexivity. Qed.

End NoteInstances.

(* ================================================================== *)
(** * Retries inside the ShadowWire adapter *)
(* ================================================================== *)

Section AdapterRetries.

Context {NUM : JsNumber}.

(** A continuation that makes no request adds nothing to the trace. *)
Lemma trace_pbind_silent {A B : Type} (W : world) (n : nat) (p : prog A) (f : A -> prog B) :
  (forall x, exists y, f x = Ret y) ->
  snd (run W n (pbind p f)) = snd (run W n p).
Proof.
  intros Hf. rewrite run_pbind. cbn [snd].
  destruct (Hf (fst (run W n p))) as (y & ->). cbn [run snd].
  apply List.app_nil_r.
Qed.

Lemma sw_check_success_silent {A : Type} (response : json) (failed : string)
    (k : string -> SW A) (s : ShadowWireAdapter) :
  (forall id, exists y, k id s = Ret y) ->
  exists y, sw_check_success response failed k s = Ret y.
Proof.
  intros Hk. unfold sw_check_success.
  repeat match goal with
         | |- context [match ?x with _ => _ end] => destruct x
         end;
    try (eexists; reflexivity); apply Hk.
Qed.

Lemma sw_rethrow_typed_silent {A : Type} (context : string) (e : error)
    (s : ShadowWireAdapter) :
  exists y, @sw_rethrow_typed NUM A context e s = Ret y.
Proof. destruct e; eexists; reflexivity. Qed.

(** The callback of [transfer] makes one request per call, the POST. *)
Lemma sw_transfer_attempt_one_request (api : string) (w : WalletAdapter)
    (request : TransferRequest) (token recipient transferType : string) (timestamp : Z)
    (signature : list byte) :
  one_request
    (sw_transfer_attempt api w request token recipient transferType timestamp signature)
    (KFetch "POST" (api ++ "/v1/transfer")).
Proof.
  intros s W n. unfold trace_of, state_after, sw_transfer_attempt, bind, await.
  cbn [pbind run fst snd].
  destruct (W n _ _) as [e | res]; cbn [fst snd]; [split; reflexivity|].
  destruct (negb (res_ok res)).
  - destruct (get_property _ _) as [[[] |] |]; try (split; reflexivity).
    repeat match goal with |- context [if ?c then _ else _] => destruct c end;
      split; reflexivity.
  - unfold res_json, of_option. destruct (JSON_parse _); split; reflexivity.
Qed.

(** What the callback of [transfer] makes of a response that is not 2xx
    and carries an error text: one of the three typed errors, thrown. *)
Lemma sw_transfer_attempt_rejected (api : string) (w : WalletAdapter)
    (request : TransferRequest) (token recipient transferType : string) (timestamp : Z)
    (signature : list byte) (W : world) (p : nat) (s : ShadowWireAdapter)
    (res : HttpResponse) (msg : string) :
  W p _ (Fetch (sw_transfer_post api w request token recipient transferType timestamp signature))
  = inr res ->
  res_ok res = false ->
  get_property (res_json_or_unknown res) "error" = Some (Some (JString msg)) ->
  result_of W p
    (sw_transfer_attempt api w request token recipient transferType timestamp signature) s
  = Thrown (if Js.includes "not found" msg then RecipientNotFoundError recipient
            else if Js.includes "insufficient" msg then
              InsufficientBalanceError (tr_amount request) (num_of_Z 0) token
            else TransactionError (Js.str_or msg "Transfer failed")).
Proof.
  intros HW Hok Herr. unfold result_of, sw_transfer_attempt, bind, await.
  cbn [pbind run fst snd]. rewrite HW. cbn [fst snd]. rewrite Hok. cbn [negb].
  rewrite Herr.
  destruct (Js.includes "not found" msg); [reflexivity|].
  destruct (Js.includes "insufficient" msg); reflexivity.
Qed.

End AdapterRetries.

Section TransferRetries.

Context {NUM : JsNumber}.

(** C4 as the code has it.  [transfer] hands [retry] a callback and no
    [shouldRetry], so every error thrown inside the callback is retried.
    On a ready adapter, for an amount that passes the checks and a wallet
    that signs: the run is the clock, the signature, then [r + 1] POSTs
    for some [r <= 2] with pauses of 1000 and 2000 ms between them and
    nothing else; each of the first [r] attempts threw, whatever the
    error; an attempt that threw was the last one only if it was the
    third; and an attempt answered by a response that is not 2xx (a 4xx
    as much as a 5xx) with an error text throws the typed error made
    from that text, so it is retried like any other. *)
Theorem transfer_retries_every_failure (request : TransferRequest) (st : ShadowWireAdapter)
    (w : WalletAdapter) (cfg : ShadowWireToken) (W : world) (n : nat)
    (signature : list byte) :
  let token := Js.toUpperCase (tr_token request) in
  let transferType :=
    match tr_privacy request with AMOUNT_HIDDEN => "internal" | _ => "external" end in
  let recipient := recipient_text (tr_recipient request) in
  let timestamp := W n _ DateNow in
  let attempt :=
    sw_transfer_attempt (sw_apiBaseUrl st) w request token recipient transferType timestamp
      signature in
  let post :=
    sw_transfer_post (sw_apiBaseUrl st) w request token recipient transferType timestamp
      signature in
  initialized (sw_base st) = true ->
  wallet (sw_base st) = Some w ->
  own_property SHADOWWIRE_TOKENS token = Some cfg ->
  nltb (tr_amount request) (sw_minAmount cfg) = false ->
  W (S n) _ (SignMessage (sw_transfer_message w request token recipient transferType timestamp))
  = inr signature ->
  exists r : nat,
    r <= 2
    /\ kinds (trace_of W n (sw_transfer request) st)
       = ([KDateNow; KSignMessage]
            ++ retry_shape (KFetch "POST" (sw_apiBaseUrl st ++ "/v1/transfer")) 1000 10000 0 r)%list
    /\ fetch_count (trace_of W n (sw_transfer request) st) = r + 1
    /\ sleeps (trace_of W n (sw_transfer request) st) = firstn r [1000; 2000]%Z
    /\ (forall i, i < r -> exists e, result_of W (S (S n) + 2 * i) attempt st = Thrown e)
    /\ (forall e, result_of W (S (S n) + 2 * r) attempt st = Thrown e -> r = 2)
    /\ (forall p res msg,
          W p _ (Fetch post) = inr res ->
          res_ok res = false ->
          get_property (res_json_or_unknown res) "error" = Some (Some (JString msg)) ->
          exists e, result_of W p attempt st = Thrown e).
Proof.
  intros token transferType recipient timestamp attempt post Hr Hw Ht Hlt Hs.
  destruct (retry_loop_runs ShadowWireAdapter json attempt
              (KFetch "POST" (sw_apiBaseUrl st ++ "/v1/transfer"))
              (sw_transfer_attempt_one_request _ _ _ _ _ _ _ _) 2 1000 10000
              (fun _ => true) 3 0%Z None W (S (S n)) st)
    as (r & B1 & B2 & B3 & _ & _ & B6); [reflexivity | lia |].
  cbn zeta in B2.
  assert (R2 : r <= 2) by lia.
  assert (T : trace_of W n (sw_transfer request) st
              = Entry DateNow timestamp
                  :: Entry (SignMessage (sw_transfer_message w request token recipient
                                           transferType timestamp)) (inr signature)
                  :: trace_of W (S (S n))
                       (retry_loop attempt 2 1000 10000 (fun _ => true) 3 0%Z None) st).
  { unfold trace_of, sw_transfer.
    unfold bind at 1 2, ensureReady, ensureWallet. rewrite Hr. cbn [ret pbind fst snd].
    rewrite Hw. cbn [ret pbind fst snd].
    fold token. rewrite Ht, Hlt. fold transferType recipient.
    unfold try_catch. unfold bind at 1 2 3. unfold perform, await, get_state.
    cbn [pbind run fst snd]. fold timestamp. rewrite Hs. cbn [pbind fst snd].
    do 2 f_equal.
    rewrite trace_pbind_silent.
    - unfold bind. rewrite trace_pbind_silent; [reflexivity|].
      intros [[response | e | why] s]; cbn [fst snd]; try (eexists; reflexivity).
      apply sw_check_success_silent. intros id.
      destruct (get_property response "fee") as [fee|]; [|eexists; reflexivity].
      destruct (number_or fee _); eexists; reflexivity.
    - intros [[x | e | why] s]; cbn [fst snd]; try (eexists; reflexivity).
      apply sw_rethrow_typed_silent. }
  exists r. split; [exact R2|].
  unfold fetch_count, sleeps. rewrite T. cbn [kinds map entry_kind kind_of].
  fold (kinds (trace_of W (S (S n))
                 (retry_loop attempt 2 1000 10000 (fun _ => true) 3 0%Z None) st)).
  rewrite B2.
  split; [reflexivity|].
  split; [destruct r as [|[|[|r]]]; try reflexivity; lia|].
  split; [destruct r as [|[|[|r]]]; try reflexivity; lia|].
  split; [intros i Hi; destruct (B3 i Hi) as (e & E & _); now exists e|].
  split.
  - intros e E. destruct (B6 e E) as [F | F]; [discriminate F | lia].
  - intros p res msg HW Hok Herr. eexists.
    exact (sw_transfer_attempt_rejected _ _ _ _ _ _ _ _ W p st res msg HW Hok Herr).
Qed.

End TransferRetries.

Section RetryInstances.

#[local] Existing Instance DecNumber.

Lemma transfer_retries_every_failure_witness :
  own_property SHADOWWIRE_TOKENS "SOL"
  = Some {| sw_decimals := 9; sw_fee := lit 5 3; sw_minAmount := lit 1 2 |}
  /\ nltb (tr_amount ex_transfer) (lit 1 2) = false
  /\ fetch_count (trace_of (ex_world 200 ex_accepted) 0 (sw_transfer ex_transfer) ex_sw) <= 3.
Proof.
  refine (conj eq_refl (conj eq_refl _)).
  destruct (transfer_retries_every_failure ex_transfer ex_sw ex_wallet _
              (ex_world 200 ex_accepted) 0 _ eq_refl eq_refl eq_refl eq_refl eq_refl)
    as (r & Hr & _ & Hf & _).
  rewrite Hf. lia.
Defined.

(** C4 does not hold of the code.  The API answers every POST of a
    transfer with 404 and the error text of an unknown recipient: the
    POST is made three times, with pauses of 1000 and 2000 ms, before
    RecipientNotFound reaches the caller. *)
Lemma not_found_is_retried :
  res_ok {| status := 404; text := stringify ex_not_found |} = false
  /\ kinds (trace_of (ex_world 404 ex_not_found) 0 (sw_transfer ex_transfer) ex_sw)
     = [ KDateNow; KSignMessage;
         KFetch "POST" "https://api.example/v1/transfer"; KSleep 1000;
         KFetch "POST" "https://api.example/v1/transfer"; KSleep 2000;
         KFetch "POST" "https://api.example/v1/transfer" ]
  /\ fetch_count (trace_of (ex_world 404 ex_not_found) 0 (sw_transfer ex_transfer) ex_sw) = 3
  /\ result_of (ex_world 404 ex_not_found) 0 (sw_transfer ex_transfer) ex_sw
     = Thrown (RecipientNotFoundError "someone").
Proof. refine (conj _ (conj _ (conj _ _))); reflexivity. Qed.

End RetryInstances.

(* ================================================================== *)
(** * Methods that leave the adapter as it was *)
(* ================================================================== *)

Section Keeps.

Context {NUM : JsNumber}.

Lemma keeps_ret {S A : Type} (a : A) : keeps (ret a : M S A).
Proof. intros s w n. reflexivity. Qed.

Lemma keeps_throw {S A : Type} (e : error) : keeps (throw e : M S A).
Proof. intros s w n. reflexivity. Qed.

Lemma keeps_out {S A : Type} (why : string) : keeps (out_of_model why : M S A).
Proof. intros s w n. reflexivity. Qed.

Lemma keeps_perform {S X : Type} (ev : event X) : keeps (perform ev : M S X).
Proof. intros s w n. reflexivity. Qed.

Lemma keeps_await {S X : Type} (ev : event (error + X)) : keeps (await ev : M S X).
Proof. intros s w n. reflexivity. Qed.

Lemma keeps_get {S : Type} : keeps (get_state : M S S).
Proof. intros s w n. reflexivity. Qed.

Lemma keeps_of_sum {S A : Type} (r : error + A) : keeps (of_sum r : M S A).
Proof. destruct r; [apply keeps_throw | apply keeps_ret]. Qed.

Lemma keeps_of_option {S A : Type} (o : option A) (e : error) : keeps (of_option o e : M S A).
Proof. destruct o; [apply keeps_ret | apply keeps_throw]. Qed.

Lemma keeps_bind {S A B : Type} (m : M S A) (f : A -> M S B) :
  keeps m -> (forall a, keeps (f a)) -> keeps (bind m f).
Proof.
  intros Hm Hf s. apply every_run_bind.
  eapply every_run_weaken; [apply Hm|].
  intros [a | e | why] s' tr ->; cbn beta iota; try reflexivity.
  eapply every_run_weaken; [apply Hf|]. intros o s'' tr' E; exact E.
Qed.

Lemma keeps_try_catch {S A : Type} (m : M S A) (h : error -> M S A) :
  keeps m -> (forall e, keeps (h e)) -> keeps (try_catch m h).
Proof.
  intros Hm Hh s. apply every_run_try_catch.
  eapply every_run_weaken; [apply Hm|].
  intros [a | e | why] s' tr ->; cbn beta iota; try reflexivity.
  eapply every_run_weaken; [apply Hh|]. intros o s'' tr' E; exact E.
Qed.

End Keeps.

Create HintDb keeps discriminated.

#[export] Hint Resolve keeps_ret keeps_throw keeps_out keeps_perform keeps_await keeps_get
  keeps_of_sum keeps_of_option : keeps.

#[export] Hint Extern 2 (keeps (bind _ _)) => apply keeps_bind; [|intro] : keeps.

#[export] Hint Extern 2 (keeps (try_catch _ _)) => apply keeps_try_catch; [|intro] : keeps.

Section WithdrawFacts.

Context {NUM : JsNumber}.

Variable findProgramAddressSync : list (list byte) -> PublicKey -> option PublicKey.

Lemma keeps_randomBytes {S : Type} (k : nat) : keeps (randomBytes k : M S (list byte)).
Proof. unfold randomBytes. auto with keeps. Qed.

Lemma keeps_placeholder_path (k : nat) : keeps (placeholder_path k).
Proof.
  induction k as [|k IH]; cbn [placeholder_path]; [auto with keeps|].
  apply keeps_bind; [apply keeps_randomBytes | intros e].
  apply keeps_bind; [auto with keeps | intros r].
  apply keeps_bind; [exact IH | intros rest]. auto with keeps.
Qed.

Lemma keeps_placeholder_proof : keeps placeholder_proof.
Proof.
  unfold placeholder_proof.
  apply keeps_bind; [apply keeps_placeholder_path | intros path].
  apply keeps_bind; [apply keeps_randomBytes | intros r]. auto with keeps.
Qed.

Lemma keeps_getMerkleProof (c t : string) : keeps (getMerkleProof c t).
Proof.
  unfold getMerkleProof.
  apply keeps_bind; [auto with keeps | intros st].
  apply keeps_bind; [auto with keeps | intros [e | response]].
  - apply keeps_placeholder_proof.
  - destruct (res_ok response); [|apply keeps_placeholder_proof].
    destruct (JSON_parse (text response)) as [j|]; [|apply keeps_placeholder_proof].
    destruct (merkle_of_json j); auto with keeps.
Qed.

Lemma keeps_generateWithdrawalProof : keeps generateWithdrawalProof.
Proof.
  unfold generateWithdrawalProof.
  repeat (apply keeps_bind; [apply keeps_randomBytes | intros ?]).
  auto with keeps.
Qed.

End WithdrawFacts.

(* ================================================================== *)
(** * Withdrawals and the map of notes *)
(* ================================================================== *)

Section WithdrawRuns.

Context {NUM : JsNumber}.

Variable findProgramAddressSync : list (list byte) -> PublicKey -> option PublicKey.

Lemma ends_confirmed_app (tr tr' : list entry) :
  ends_confirmed tr' -> ends_confirmed (tr ++ tr').
Proof.
  intros (t & sg & bh & h & ->). exists (tr ++ t)%list, sg, bh, h.
  now rewrite List.app_assoc.
Qed.

(** Sending an instruction leaves the adapter as it was, and returns only
    after a confirmation that succeeded. *)
Lemma send_and_confirm_runs {St : Type} (w : WalletAdapter) (ix : TransactionInstruction)
    (s : St) :
  every_run (send_and_confirm w ix) s (fun o s' tr =>
    s' = s /\ match o with Ok _ => ends_confirmed tr | _ => True end).
Proof.
  intros W n. unfold result_of, state_after, trace_of, send_and_confirm, bind, await, ret.
  cbn [pbind run fst snd].
  destruct (W n _ GetLatestBlockhash) as [e | bh]; cbn [pbind run fst snd]; [auto|].
  destruct (W (S n) _ _) as [e | signedTx]; cbn [pbind run fst snd]; [auto|].
  destruct (W (S (S n)) _ _) as [e | signature]; cbn [pbind run fst snd]; [auto|].
  destruct (W (S (S (S n))) _ _) as [e | []] eqn:E; cbn [pbind run fst snd]; [auto|].
  split; [reflexivity|].
  eexists [_; _; _], _, _, _. reflexivity.
Qed.

Lemma withdrawn_app {A : Type} (st : PrivacyCashAdapter) (note : DepositNote)
    (o : outcome A) (st' : PrivacyCashAdapter) (tr tr' : list entry) :
  withdrawn st note o st' tr' -> withdrawn st note o st' (tr ++ tr').
Proof.
  destruct o; cbn [withdrawn]; auto. intros [E C]. split; [exact E|].
  now apply ends_confirmed_app.
Qed.

(** Sequencing after a step that keeps the state. *)
Lemma withdrawn_bind {A B : Type} (st : PrivacyCashAdapter) (note : DepositNote)
    (m : PC A) (f : A -> PC B) :
  keeps m ->
  (forall a, every_run (f a) st (withdrawn st note)) ->
  every_run (bind m f) st (withdrawn st note).
Proof.
  intros Hm Hf. apply every_run_bind.
  eapply every_run_weaken; [apply Hm|].
  intros [a | e | why] s' tr ->; cbn beta iota; try reflexivity.
  eapply every_run_weaken; [apply Hf|].
  intros o s'' tr' H. now apply withdrawn_app.
Qed.

(** The [try] block of [withdraw]. *)
Lemma withdraw_body_runs (w : WalletAdapter) (note : DepositNote)
    (poolConfig : option PoolConfig) (recipient : PublicKey) (st : PrivacyCashAdapter) :
  every_run (pc_withdraw_body findProgramAddressSync w note poolConfig recipient) st
    (withdrawn st note).
Proof.
  unfold pc_withdraw_body.
  apply withdrawn_bind; [apply keeps_getMerkleProof | intros merkleProof].
  apply withdrawn_bind; [apply keeps_generateWithdrawalProof | intros zkProof].
  apply withdrawn_bind; [apply keeps_get | intros st0].
  apply withdrawn_bind; [destruct poolConfig; auto with keeps | intros ix].
  apply every_run_bind.
  eapply every_run_weaken; [apply send_and_confirm_runs|].
  intros [signature | e | why] s' tr [-> C]; cbn beta iota; try reflexivity.
  intros W n. split; [reflexivity|].
  unfold trace_of, bind, get_state, put_state, ret. cbn [pbind run fst snd].
  rewrite List.app_nil_r. exact C.
Qed.

(** [withdraw] from the recipient on. *)
Lemma withdraw_try_runs (w : WalletAdapter) (note : DepositNote)
    (poolConfig : option PoolConfig) (dest : string + PublicKey) (st : PrivacyCashAdapter) :
  every_run
    (bind (recipient_key dest) (fun recipient =>
       try_catch (pc_withdraw_body findProgramAddressSync w note poolConfig recipient)
         (fun e => throw (wrapError e "Privacy Cash withdrawal failed"))))
    st (withdrawn st note).
Proof.
  apply withdrawn_bind; [destruct dest; cbn [recipient_key]; auto with keeps | intros recipient].
  apply every_run_try_catch.
  eapply every_run_weaken; [apply withdraw_body_runs|].
  intros [res | e | why] s' tr H; cbn beta iota; try exact H.
  cbn [withdrawn] in H. subst s'. intros W n. reflexivity.
Qed.

(** C5 as the code has it.  However a run of [withdraw] goes: when it
    returns a result, the request carried the text of a note, the map is
    the one before without the entry under the commitment of that note,
    nothing else of the adapter has changed, and the last request of the
    run was the confirmation of the transaction, which succeeded; when it
    throws (or the decoded note is outside the model), the adapter is as
    it was before the call. *)
Theorem withdraw_removes_note_when_confirmed (request : WithdrawRequest)
    (st : PrivacyCashAdapter) :
  every_run (pc_withdraw findProgramAddressSync request) st (fun o st' tr =>
    match o with
    | Ok _ =>
        exists encoded raw note,
          wr_commitment request = Some encoded
          /\ decodeNote encoded = Some raw
          /\ note_of_raw raw = Some note
          /\ st' = with_notes st (map_delete (commitment note) (depositNotes st))
          /\ ends_confirmed tr
    | _ => st' = st
    end).
Proof.
  intros W n. unfold result_of, state_after, trace_of.
  remember (run W n (pc_withdraw findProgramAddressSync request st)) as R eqn:ER.
  unfold pc_withdraw, ensureReady, ensureWallet, getConnection in ER.
  unfold bind at 1 in ER.
  destruct (initialized (pc_base st)); cbn [ret throw pbind fst snd run] in ER;
    [|subst R; reflexivity].
  unfold bind at 1 in ER.
  destruct (wallet (pc_base st)) as [w|]; cbn [ret throw pbind fst snd run] in ER;
    [|subst R; reflexivity].
  unfold bind at 1 in ER.
  destruct (connected (pc_base st)); cbn [ret throw pbind fst snd run] in ER;
    [|subst R; reflexivity].
  destruct (wr_commitment request) as [[|c0 encoded]|] eqn:Ec; try (subst R; reflexivity).
  destruct (decodeNote (String c0 encoded)) as [raw|] eqn:Ed; [|subst R; reflexivity].
  destruct (note_of_raw raw) as [note|] eqn:En; [|subst R; reflexivity].
  pose proof (withdraw_try_runs w note (own_property POOL_CONFIGS (token note))
                (wr_recipient request) st W n) as H.
  unfold result_of, state_after, trace_of in H.
  assert (G : withdrawn st note (fst (fst R)) (snd (fst R)) (snd R) ->
              match fst (fst R) with
              | Ok _ =>
                  exists text0 raw note,
                    Some (String c0 encoded) = Some text0
                    /\ decodeNote text0 = Some raw
                    /\ note_of_raw raw = Some note
                    /\ snd (fst R) = with_notes st (map_delete (commitment note) (depositNotes st))
                    /\ ends_confirmed (snd R)
              | _ => snd (fst R) = st
              end).
  { destruct R as [[[res | e | why] s'] tr]; cbn [fst snd withdrawn]; auto.
    intros [E C]. exists (String c0 encoded), raw, note.
    repeat (split; [solve [auto]|]). exact C. }
  destruct (own_property POOL_CONFIGS (token note)) as [cfg|];
    [|destruct (inherited_property (token note)); [|subst R; reflexivity]];
    apply G; subst R; exact H.
Qed.
End WithdrawRuns.

(* ================================================================== *)
(** * Transfers through the pool *)
(* ================================================================== *)

Section TransferRuns.

Context {NUM : JsNumber}.

Variable findProgramAddressSync : list (list byte) -> PublicKey -> option PublicKey.

(** C6. A run of [transfer] is the run of [deposit] of the requested
    amount and token and, when that returns, the run of [withdraw] of the
    note it returned to the recipient of the request, from the state and
    at the point where the deposit ended: the requests of the transfer are
    those of the two, in this order; when both return, the fee of the
    result is the fee of the deposit plus the fee of the withdrawal and
    the signature is that of the withdrawal; when one of them throws, the
    transfer throws that error, and no withdrawal is run after a deposit
    that threw. *)
Theorem transfer_is_deposit_then_withdraw (request : TransferRequest)
    (st : PrivacyCashAdapter) (W : world) (n : nat) :
  let deposit :=
    pc_deposit findProgramAddressSync
      {| dr_amount := tr_amount request; dr_token := tr_token request |} in
  let transfer := pc_transfer findProgramAddressSync request in
  match result_of W n deposit st with
  | Ok d =>
      let st1 := state_after W n deposit st in
      let n1 := n + List.length (trace_of W n deposit st) in
      let withdraw :=
        pc_withdraw findProgramAddressSync
          {| wr_amount := tr_amount request;
             wr_token := tr_token request;
             wr_recipient := tr_recipient request;
             wr_commitment := dres_commitment d |} in
      trace_of W n transfer st
      = (trace_of W n deposit st ++ trace_of W n1 withdraw st1)%list
      /\ state_after W n transfer st = state_after W n1 withdraw st1
      /\ result_of W n transfer st
         = match result_of W n1 withdraw st1 with
           | Ok wd =>
               Ok {| tres_signature := wres_signature wd;
                     tres_provider := PRIVACY_CASH;
                     tres_privacyLevel := COMPLIANT_POOL;
                     tres_fee := nadd (dres_fee d) (wres_fee wd);
                     tres_anonymitySet :=
                       option_map anonymitySet
                         (own_property POOL_CONFIGS (Js.toUpperCase (tr_token request))) |}
           | Thrown e => Thrown e
           | OutOfModel why => OutOfModel why
           end
  | Thrown e =>
      trace_of W n transfer st = trace_of W n deposit st
      /\ state_after W n transfer st = state_after W n deposit st
      /\ result_of W n transfer st = Thrown e
  | OutOfModel why =>
      trace_of W n transfer st = trace_of W n deposit st
      /\ state_after W n transfer st = state_after W n deposit st
      /\ result_of W n transfer st = OutOfModel why
  end.
Proof.
  intros deposit transfer.
  assert (E : transfer st
              = bind deposit (after_deposit findProgramAddressSync request) st).
  { subst transfer deposit. unfold pc_transfer. unfold bind at 1. unfold ensureReady.
    destruct (initialized (pc_base st)) eqn:Hi; cbn [ret throw pbind fst snd]; [reflexivity|].
    unfold bind at 1, pc_deposit. unfold bind at 1. unfold ensureReady. rewrite Hi.
    reflexivity. }
  assert (U : forall o s' tr,
             runs_to W n (bind deposit (after_deposit findProgramAddressSync request)) st o s' tr ->
             trace_of W n transfer st = tr
             /\ state_after W n transfer st = s'
             /\ result_of W n transfer st = o).
  { intros o s' tr R. unfold runs_to in R. rewrite <- E in R.
    destruct (runs_to_unique W n transfer st o s' tr R) as (A & B & C). auto. }
  pose proof (runs_to_intro W n deposit st) as R1.
  destruct (result_of W n deposit st) as [d | e | why].
  - cbn zeta.
    set (st1 := state_after W n deposit st) in *.
    set (n1 := n + List.length (trace_of W n deposit st)) in *.
    set (withdraw := pc_withdraw _ _).
    pose proof (runs_to_intro W n1 withdraw st1) as R2.
    destruct (result_of W n1 withdraw st1) as [wd | e | why].
    + rewrite <- (List.app_nil_r (trace_of W n1 withdraw st1)).
      apply U. eapply runs_bind_ok; [exact R1|].
      unfold after_deposit. eapply runs_bind_ok; [exact R2 | reflexivity].
    + apply U. eapply runs_bind_ok; [exact R1|].
      unfold after_deposit. eapply runs_bind_thrown. exact R2.
    + apply U. eapply runs_bind_ok; [exact R1|].
      unfold after_deposit. eapply runs_bind_out. exact R2.
  - apply U. eapply runs_bind_thrown. exact R1.
  - apply U. eapply runs_bind_out. exact R1.
Qed.

End TransferRuns.

Section PoolInstances.

#[local] Existing Instance DecNumber.

(** C5 does not hold of the request for the Merkle proof.  The request
    is the first of the withdrawal and it is rejected; the withdrawal goes
    on with a proof it makes up, the transaction is confirmed, and the
    note is gone from the map. *)
Lemma withdraw_survives_failed_proof_request :
  (forall n request, ex_offline n _ (Fetch request) = inl (Rejected "offline"))
  /\ depositNotes ex_holding = [("c1", ex_held)]
  /\ hd_error (kinds (trace_of ex_offline 0 (pc_withdraw ex_pda ex_withdraw) ex_holding))
     = Some (KFetch "GET" "https://api.example/v1/proof/SOL/c1")
  /\ fetch_count (trace_of ex_offline 0 (pc_withdraw ex_pda ex_withdraw) ex_holding) = 1
  /\ result_of ex_offline 0 (pc_withdraw ex_pda ex_withdraw) ex_holding
     = Ok {| wres_signature := "sig"; wres_provider := PRIVACY_CASH;
             wres_fee := nmul (lit 5 3) (num_of_Z 5) |}
  /\ depositNotes (state_after ex_offline 0 (pc_withdraw ex_pda ex_withdraw) ex_holding) = [].
Proof.
  split; [intros n request; reflexivity|].
  refine (conj _ (conj _ (conj _ (conj _ _)))); reflexivity.
Qed.

(** A transfer of 5 SOL through the pool: the fee is 0.025 + 0.025, and
    the note of the deposit is spent by the withdrawal. *)
Lemma pool_transfer_fee_example :
  result_of ex_offline 0 (pc_transfer ex_pda ex_pool_transfer) ex_empty
  = Ok {| tres_signature := "sig"; tres_provider := PRIVACY_CASH;
          tres_privacyLevel := COMPLIANT_POOL;
          tres_fee := nadd (nmul (lit 5 3) (num_of_Z 5)) (nmul (lit 5 3) (num_of_Z 5));
          tres_anonymitySet := Some (lit 500 0) |}
  /\ depositNotes (state_after ex_offline 0 (pc_transfer ex_pda ex_pool_transfer) ex_empty) = [].
Proof. refine (conj _ _); reflexivity. Qed.

End PoolInstances.

(* ================================================================== *)
(** * More of utils/index.ts: the hex codec *)
(* ================================================================== *)

Lemma length_hex_pairs (n : nat) : forall s : string,
  String.length s <= n -> List.length (Js.hex_pairs s) = Nat.div2 (String.length s).
Proof.
  induction n as [|n IH]; intros [|a [|b r]] H;
    cbn [Js.hex_pairs String.length List.length Nat.div2] in *;
    try reflexivity; try lia.
  f_equal. apply IH. lia.
Qed.

Lemma upper_hex_pair (b : byte) (r : string) :
  Js.hex_pairs (Js.toUpperCase (Js.byte_to_hex b) ++ r) = b :: Js.hex_pairs r.
Proof. destruct b; reflexivity. Qed.

Lemma toUpperCase_append (a b : string) :
  Js.toUpperCase (a ++ b) = (Js.toUpperCase a ++ Js.toUpperCase b)%string.
Proof. induction a as [|c a IH]; cbn; [reflexivity | now rewrite IH]. Qed.

Lemma upper_hex_no_0x (bs : list byte) :
  Js.startsWith "0x" (Js.toUpperCase (Js.bytesToHex bs)) = false.
Proof. destruct bs as [|b bs]; [reflexivity | destruct b; reflexivity]. Qed.

Lemma startsWith_0x (digits : string) : Js.startsWith "0x" ("0x" ++ digits) = true.
Proof. destruct digits; reflexivity. Qed.

(** X1. [hexToBytes] undoes [bytesToHex], with or without the prefix 0x
    before the digits, and the text of [n] bytes has [2 n] characters. *)
Theorem hex_round_trip (bytes : list byte) :
  Js.hexToBytes (Js.bytesToHex bytes) = bytes
  /\ Js.hexToBytes ("0x" ++ Js.bytesToHex bytes) = bytes
  /\ String.length (Js.bytesToHex bytes) = 2 * List.length bytes.
Proof.
  split; [apply hexToBytes_bytesToHex|].
  split; [|apply length_bytesToHex].
  unfold Js.hexToBytes. rewrite startsWith_0x.
  apply hex_pairs_bytesToHex.
Qed.

(** X2. [hexToBytes] rejects no text: of a text of [n] characters, after
    the prefix 0x when there is one, it makes [floor (n / 2)] bytes, so
    the last character of a text of odd length is dropped. *)
Theorem hexToBytes_length (hex : string) :
  List.length (Js.hexToBytes hex)
  = Nat.div2 (String.length (if Js.startsWith "0x" hex then Js.str_drop 2 hex else hex)).
Proof. unfold Js.hexToBytes. eapply length_hex_pairs. reflexivity. Qed.

(** X3. [hexToBytes] reads upper-case digits as it reads lower-case ones:
    the upper-cased text of [bytesToHex] decodes to the same bytes. *)
Theorem hexToBytes_upper_case (bytes : list byte) :
  Js.hexToBytes (Js.toUpperCase (Js.bytesToHex bytes)) = bytes.
Proof.
  unfold Js.hexToBytes. rewrite upper_hex_no_0x.
  induction bytes as [|b bytes IH]; [reflexivity|].
  cbn [Js.bytesToHex]. rewrite toUpperCase_append, upper_hex_pair. now rewrite IH.
Qed.

(* ================================================================== *)
(** * The budget of [retry] *)
(* ================================================================== *)

Section RetryBudget.

Context {NUM : JsNumber}.

Lemma retry_shape_invokes (label : string) (base maxDelay a : Z) (r : nat) :
  List.length (filter is_invoke (retry_shape (KInvoke label) base maxDelay a r)) = r + 1.
Proof.
  revert a; induction r as [|r IH]; intros a; [reflexivity|].
  cbn [retry_shape filter is_invoke List.length]. now rewrite IH.
Qed.

Lemma retry_shape_sleeps (label : string) (base maxDelay a : Z) (r : nat) :
  flat_map (fun k => match k with KSleep ms => [ms] | _ => [] end)
    (retry_shape (KInvoke label) base maxDelay a r)
  = map (fun i => retry_delay base maxDelay (a + Z.of_nat i)) (seq 0 r).
Proof.
  revert a; induction r as [|r IH]; intros a; [reflexivity|].
  cbn [retry_shape flat_map app seq map]. rewrite IH, Z.add_0_r. f_equal.
  rewrite <- seq_shift, map_map. apply map_ext. intros i.
  f_equal. lia.
Qed.

(** X4. [retry] with any [maxRetries >= 0], base delay, delay cap and
    [shouldRetry]: the callback is called [r + 1] times with
    [r <= maxRetries]; the pause after the call number [i] (from 0) is
    min(baseDelayMs * 2^i, maxDelayMs) and nothing else is requested;
    every call but the last threw an error that [shouldRetry] accepted;
    the result is that of the last call, which, if it threw, was refused
    by [shouldRetry] or was the call number [maxRetries]. *)
Theorem retry_budget (S T : Type) (label : string) (budget base maxDelay : Z)
    (p : option (error -> bool)) (w : world) (n : nat) (s : S) :
  (0 <= budget)%Z ->
  let should := opt_or p (fun _ => true) in
  let fn : M S T := await (Invoke T label) in
  let m : M S T :=
    retry fn {| maxRetries := Some budget; baseDelayMs := Some base;
                maxDelayMs := Some maxDelay; shouldRetry := p |} in
  exists r : nat,
    (Z.of_nat r <= budget)%Z
    /\ invoke_count (trace_of w n m s) = r + 1
    /\ sleeps (trace_of w n m s)
       = map (fun i => Z.min (base * 2 ^ Z.of_nat i) maxDelay) (seq 0 r)
    /\ List.length (trace_of w n m s) = 2 * r + 1
    /\ (forall i, i < r ->
          exists e, w (n + 2 * i) _ (Invoke T label) = inl e /\ should e = true)
    /\ result_of w n m s
       = match w (n + 2 * r) _ (Invoke T label) with
         | inl e => Thrown e
         | inr x => Ok x
         end
    /\ state_after w n m s = s
    /\ (forall e, w (n + 2 * r) _ (Invoke T label) = inl e ->
          should e = false \/ Z.of_nat r = budget).
Proof.
  intros Hb. cbn zeta. unfold retry.
  cbn [maxRetries baseDelayMs maxDelayMs shouldRetry opt_or].
  destruct (retry_loop_runs S T (await (Invoke T label)) (KInvoke label)
              (await_one_request S T (Invoke T label)) budget base maxDelay
              (opt_or p (fun _ => true)) (Z.to_nat (budget + 1)) 0%Z None w n s)
    as (r & B1 & B2 & B3 & B4 & B5 & B6); [lia | lia |].
  cbn zeta in B2, B4, B5.
  assert (Res : forall j, result_of w j (await (Invoke T label) : M S T) s
                          = match w j _ (Invoke T label) with
                            | inl e => Thrown e
                            | inr x => Ok x
                            end) by (intros j; reflexivity).
  exists r. split; [lia|].
  unfold invoke_count, sleeps. rewrite B2, B4, B5, Res.
  split; [apply retry_shape_invokes|].
  split; [rewrite retry_shape_sleeps; apply map_ext; intros i; reflexivity|].
  split.
  { rewrite <- (List.length_map entry_kind). fold (kinds (trace_of w n
      (retry_loop (await (Invoke T label)) budget base maxDelay (opt_or p (fun _ => true))
         (Z.to_nat (budget + 1)) 0%Z None) s)).
    rewrite B2. clear. generalize 0%Z. induction r as [|r IH]; intros a; [reflexivity|].
    cbn [retry_shape List.length]. rewrite IH. lia. }
  split.
  { intros i Hi. destruct (B3 i Hi) as (e & E1 & E2). rewrite Res in E1.
    exists e. split; [|exact E2].
    destruct (w (n + 2 * i) (error + T)%type (Invoke T label)); congruence. }
  split; [reflexivity|]. split; [reflexivity|].
  intros e E. destruct (B6 e) as [F | F]; [rewrite Res, E; reflexivity | now left | right; lia].
Qed.

(** X5. [retry] with a negative [maxRetries] never calls the callback: the
    loop is not entered and [lastError], still undefined, is thrown. *)
Theorem retry_negative_budget (S T : Type) (fn : M S T) (budget : Z)
    (base maxDelay : option Z) (p : option (error -> bool)) (s : S) :
  (budget < 0)%Z ->
  retry fn {| maxRetries := Some budget; baseDelayMs := base; maxDelayMs := maxDelay;
              shouldRetry := p |} s
  = Ret (Thrown ThrownUndefined, s).
Proof.
  intros Hb. unfold retry. cbn [maxRetries opt_or].
  replace (Z.to_nat (budget + 1)) with 0 by lia. reflexivity.
Qed.

End RetryBudget.

(* ================================================================== *)
(** * The ShadowWire adapter: what it keeps, asks and refuses *)
(* ================================================================== *)

Section ShadowWireFrame.

Context {NUM : JsNumber}.

Variable toSmallestUnit : num -> string -> error + Z.

Lemma keeps_retry_loop {S A : Type} (fn : M S A) (maxR base maxDelay : Z)
    (should : error -> bool) (fuel : nat) :
  keeps fn ->
  forall (attempt : Z) (last : option error),
    keeps (retry_loop fn maxR base maxDelay should fuel attempt last).
Proof.
  intros Hfn. induction fuel as [|fuel IH]; intros attempt last; cbn [retry_loop].
  - apply keeps_throw.
  - apply keeps_try_catch; [exact Hfn | intros e].
    destruct ((attempt =? maxR)%Z || negb (should e)); [apply keeps_throw|].
    apply keeps_bind; [apply keeps_perform | intros _]. apply IH.
Qed.

Lemma keeps_retry {S A : Type} (fn : M S A) (options : RetryOptions) :
  keeps fn -> keeps (retry fn options).
Proof. intros Hfn. unfold retry. now apply keeps_retry_loop. Qed.

Lemma keeps_ensureReady {S : Type} (base : S -> BaseAdapter) (p : PrivacyProvider) :
  keeps (ensureReady base p).
Proof.
  intros s. unfold ensureReady. intros w n. unfold state_after.
  destruct (initialized (base s)); reflexivity.
Qed.

Lemma keeps_ensureWallet {S : Type} (base : S -> BaseAdapter) : keeps (ensureWallet base).
Proof.
  intros s w n. unfold state_after, ensureWallet.
  destruct (wallet (base s)); reflexivity.
Qed.

Lemma keeps_getConnection {S : Type} (base : S -> BaseAdapter) : keeps (getConnection base).
Proof.
  intros s w n. unfold state_after, getConnection.
  destruct (connected (base s)); reflexivity.
Qed.

Lemma keeps_res_json {S : Type} (res : HttpResponse) : keeps (res_json res : M S json).
Proof. unfold res_json. apply keeps_of_option. Qed.

Lemma keeps_sw_check_success {A : Type} (response : json) (failed : string)
    (k : string -> SW A) :
  (forall id, keeps (k id)) -> keeps (sw_check_success response failed k).
Proof.
  intros Hk. unfold sw_check_success.
  repeat match goal with
         | |- context [match ?x with _ => _ end] => destruct x
         end; auto with keeps.
Qed.

Lemma keeps_sw_transfer_attempt (api : string) (w : WalletAdapter) (request : TransferRequest)
    (token recipient transferType : string) (timestamp : Z) (signature : list byte) :
  keeps (sw_transfer_attempt api w request token recipient transferType timestamp signature).
Proof.
  unfold sw_transfer_attempt.
  apply keeps_bind; [apply keeps_await | intros res].
  destruct (negb (res_ok res)); [|apply keeps_res_json].
  repeat match goal with
         | |- context [match ?x with _ => _ end] => destruct x
         end; auto with keeps.
Qed.

Lemma keeps_sw_post_attempt (endpoint failed : string) (fields : Z -> list (string * json))
    (amount : num) (token : string) :
  keeps (sw_post_attempt toSmallestUnit endpoint failed fields amount token).
Proof.
  unfold sw_post_attempt. destruct (toSmallestUnit amount token); [apply keeps_throw|].
  apply keeps_bind; [apply keeps_await | intros res].
  destruct (negb (res_ok res)); [|apply keeps_res_json].
  repeat match goal with
         | |- context [match ?x with _ => _ end] => destruct x
         end; auto with keeps.
Qed.

Lemma keeps_sw_balance_attempt (api walletAddress token : string) :
  keeps (sw_balance_attempt api walletAddress token).
Proof.
  unfold sw_balance_attempt.
  apply keeps_bind; [apply keeps_await | intros res].
  destruct (negb (res_ok res)); [apply keeps_throw | apply keeps_res_json].
Qed.

Lemma keeps_sw_rethrow_typed {A : Type} (context : string) (e : error) :
  keeps (sw_rethrow_typed context e : SW A).
Proof. destruct e; apply keeps_throw. Qed.

Lemma keeps_sw_rethrow_transaction {A : Type} (context : string) (e : error) :
  keeps (sw_rethrow_transaction context e : SW A).
Proof. destruct e; apply keeps_throw. Qed.

(** X6. No method of the ShadowWire adapter changes the adapter object:
    however a run of [getBalance], [transfer], [deposit] or [withdraw]
    ends, with a result or with an error, the adapter is as it was. *)
Theorem shadowwire_keeps_adapter :
  (forall token address, keeps (sw_getBalance token address))
  /\ (forall request, keeps (sw_transfer request))
  /\ (forall request, keeps (sw_deposit toSmallestUnit request))
  /\ (forall request, keeps (sw_withdraw toSmallestUnit request)).
Proof.
  repeat split.
  - intros token address. unfold sw_getBalance.
    apply keeps_bind; [apply keeps_ensureReady | intros _].
    apply keeps_bind; [apply keeps_get | intros st].
    destruct (String.eqb _ _); [apply keeps_throw|].
    destruct (own_property _ _); [|apply keeps_throw].
    apply keeps_try_catch; [|intros e; apply keeps_throw].
    apply keeps_bind; [apply keeps_retry, keeps_sw_balance_attempt | intros response].
    repeat match goal with
           | |- context [match ?x with _ => _ end] => destruct x
           end; auto with keeps.
  - intros request. unfold sw_transfer.
    apply keeps_bind; [apply keeps_ensureReady | intros _].
    apply keeps_bind; [apply keeps_ensureWallet | intros w].
    destruct (own_property _ _) as [cfg|]; [|apply keeps_throw].
    destruct (nltb _ _); [apply keeps_throw|].
    apply keeps_try_catch; [|intros e; apply keeps_sw_rethrow_typed].
    apply keeps_bind; [apply keeps_perform | intros timestamp].
    apply keeps_bind; [apply keeps_await | intros signature].
    apply keeps_bind; [apply keeps_get | intros st].
    apply keeps_bind; [apply keeps_retry, keeps_sw_transfer_attempt | intros response].
    apply keeps_sw_check_success. intros id.
    repeat match goal with
           | |- context [match ?x with _ => _ end] => destruct x
           end; auto with keeps.
  - intros request. unfold sw_deposit.
    apply keeps_bind; [apply keeps_ensureReady | intros _].
    apply keeps_bind; [apply keeps_ensureWallet | intros w].
    destruct (own_property _ _) as [cfg|]; [|apply keeps_throw].
    destruct (nltb _ _); [apply keeps_throw|].
    apply keeps_try_catch; [|intros e; apply keeps_sw_rethrow_transaction].
    apply keeps_bind; [apply keeps_perform | intros timestamp].
    apply keeps_bind; [apply keeps_await | intros signature].
    apply keeps_bind; [apply keeps_get | intros st].
    apply keeps_bind; [apply keeps_retry, keeps_sw_post_attempt | intros response].
    apply keeps_sw_check_success. intros id.
    repeat match goal with
           | |- context [match ?x with _ => _ end] => destruct x
           end; auto with keeps.
  - intros request. unfold sw_withdraw.
    apply keeps_bind; [apply keeps_ensureReady | intros _].
    apply keeps_bind; [apply keeps_ensureWallet | intros w].
    destruct (own_property _ _) as [cfg|]; [|apply keeps_throw].
    apply keeps_try_catch; [|intros e; apply keeps_sw_rethrow_transaction].
    apply keeps_bind; [apply keeps_perform | intros timestamp].
    apply keeps_bind; [apply keeps_await | intros signature].
    apply keeps_bind; [apply keeps_get | intros st].
    apply keeps_bind; [apply keeps_retry, keeps_sw_post_attempt | intros response].
    apply keeps_sw_check_success. intros id. apply keeps_ret.
Qed.

End ShadowWireFrame.

Section BalanceRequests.

Context {NUM : JsNumber}.

Lemma sw_balance_attempt_one_request (api walletAddress token : string) :
  one_request (sw_balance_attempt api walletAddress token)
    (KFetch "GET" (api ++ "/v1/balance/" ++ walletAddress ++ "?token=" ++ token)).
Proof.
  intros s W n. unfold trace_of, state_after, sw_balance_attempt, bind, await.
  cbn [pbind run fst snd].
  destruct (W n _ _) as [e | res]; cbn [fst snd]; [split; reflexivity|].
  destruct (negb (res_ok res)); [split; reflexivity|].
  unfold res_json, of_option. destruct (JSON_parse _); split; reflexivity.
Qed.

(** X7. [getBalance] on a ready adapter, with an address and a supported
    token, makes [r + 1] GET requests for some [r <= 3], all to
    /v1/balance/<address>?token=<TOKEN>, with pauses of 1000, 2000 and
    4000 ms between them and nothing else; every attempt but the last
    threw (a rejected fetch, an answer that is not 2xx, a body that is no
    JSON); an error of the last attempt comes only after the fourth GET
    and is wrapped; a body whose [balance] is a number gives that number. *)
Theorem getBalance_requests (token : string) (address : option string)
    (st : ShadowWireAdapter) (cfg : ShadowWireToken) (W : world) (n : nat) :
  let walletAddress :=
    Js.opt_str_or address
      (match wallet (sw_base st) with Some w => toBase58 (publicKey w) | None => EmptyString end) in
  let attempt := sw_balance_attempt (sw_apiBaseUrl st) walletAddress (Js.toUpperCase token) in
  initialized (sw_base st) = true ->
  String.eqb walletAddress EmptyString = false ->
  own_property SHADOWWIRE_TOKENS (Js.toUpperCase token) = Some cfg ->
  exists r : nat,
    r <= 3
    /\ kinds (trace_of W n (sw_getBalance token address) st)
       = retry_shape
           (KFetch "GET" (sw_apiBaseUrl st ++ "/v1/balance/" ++ walletAddress ++ "?token="
                            ++ Js.toUpperCase token))
           1000 10000 0 r
    /\ (forall i, i < r -> exists e, result_of W (n + 2 * i) attempt st = Thrown e)
    /\ (forall e, result_of W (n + 2 * r) attempt st = Thrown e ->
          r = 3
          /\ result_of W n (sw_getBalance token address) st
             = Thrown (wrapError e "Failed to get ShadowWire balance"))
    /\ (forall response x,
          result_of W (n + 2 * r) attempt st = Ok response ->
          get_property response "balance" = Some (Some (JNumber x)) ->
          result_of W n (sw_getBalance token address) st = Ok x).
Proof.
  intros walletAddress attempt Hr Hw Ht.
  destruct (retry_loop_runs ShadowWireAdapter json attempt _
              (sw_balance_attempt_one_request _ _ _) 3 1000 10000
              (fun _ => true) 4 0%Z None W n st)
    as (r & B1 & B2 & B3 & B4 & B5 & B6); [reflexivity | lia |].
  cbn zeta in B2, B4, B5.
  set (loop := retry_loop attempt 3 1000 10000 (fun _ => true) 4 0%Z None) in *.
  pose proof (runs_to_intro W n loop st) as R. rewrite B5, B4 in R. unfold runs_to in R.
  set (K := fun response : json =>
              match get_property response "balance" with
              | None => throw null_property_error
              | Some (Some (JNumber x)) => ret x
              | Some _ => out_of_model "response.balance is no number"
              end : SW num).
  set (H := fun e : error => throw (wrapError e "Failed to get ShadowWire balance") : SW num).
  assert (E : sw_getBalance token address st = try_catch (bind loop K) H st).
  { unfold sw_getBalance. unfold bind at 1. unfold ensureReady. rewrite Hr.
    cbn [ret pbind fst snd]. unfold bind at 1, get_state. cbn [pbind fst snd].
    fold walletAddress. rewrite Hw, Ht. reflexivity. }
  assert (KS : forall response s, exists y, K response s = Ret y).
  { intros response s. unfold K.
    destruct (get_property response "balance") as [[[] |] |]; eexists; reflexivity. }
  exists r. split; [lia|]. split; [|split; [|split]].
  - unfold trace_of. rewrite E. unfold try_catch. rewrite trace_pbind_silent.
    + unfold bind. rewrite trace_pbind_silent; [exact B2|].
      intros [[response | e | why] s]; cbn [fst snd]; try (eexists; reflexivity). apply KS.
    + intros [[x | e | why] s]; cbn [fst snd]; eexists; reflexivity.
  - intros i Hi. destruct (B3 i Hi) as (e & Ee & _). now exists e.
  - intros e Ee. split.
    + destruct (B6 e Ee) as [F | F]; [discriminate F | lia].
    + unfold result_of. rewrite E. unfold try_catch, bind. rewrite !run_pbind, R.
      cbn [fst snd]. rewrite Ee. reflexivity.
  - intros response x Eo G.
    unfold result_of. rewrite E. unfold try_catch, bind. rewrite !run_pbind, R.
    cbn [fst snd]. rewrite Eo. cbn [fst snd]. unfold K. rewrite G. reflexivity.
Qed.

End BalanceRequests.

Section ShadowWireEdges.

Context {NUM : JsNumber}.

Variable toSmallestUnit : num -> string -> error + Z.

Lemma runs_step {S A B : Type} (W : world) (n : nat) (m : M S A) (f : A -> M S B)
    (s s1 s2 : S) (a : A) (o : outcome B) (tr : list entry) :
  m s = Ret (Ok a, s1) ->
  runs_to W n (f a) s1 o s2 tr ->
  runs_to W n (bind m f) s o s2 tr.
Proof. unfold runs_to, bind. intros -> H. exact H. Qed.

Lemma runs_perform {S X : Type} (W : world) (n : nat) (ev : event X) (s : S) :
  runs_to W n (perform ev) s (Ok (W n X ev)) s [Entry ev (W n X ev)].
Proof. reflexivity. Qed.

Lemma runs_await {S X : Type} (W : world) (n : nat) (ev : event (error + X)) (s : S) :
  runs_to W n (await ev) s
    (match W n _ ev with inl e => Thrown e | inr x => Ok x end) s [Entry ev (W n _ ev)].
Proof. reflexivity. Qed.

Lemma runs_await_ok {S X : Type} (W : world) (n : nat) (ev : event (error + X)) (s : S)
    (x : X) :
  W n _ ev = inr x -> runs_to W n (await ev) s (Ok x) s [Entry ev (inr x)].
Proof. intros H. unfold runs_to, await. cbn [run]. now rewrite H. Qed.

Lemma runs_await_thrown {S X : Type} (W : world) (n : nat) (ev : event (error + X)) (s : S)
    (e : error) :
  W n _ ev = inl e -> runs_to W n (await ev : M S X) s (Thrown e) s [Entry ev (inl e)].
Proof. intros H. unfold runs_to, await. cbn [run]. now rewrite H. Qed.

Lemma runs_silent {S A : Type} (W : world) (n : nat) (m : M S A) (s s' : S) (o : outcome A) :
  m s = Ret (o, s') -> runs_to W n m s o s' [].
Proof. unfold runs_to. now intros ->. Qed.

(** X8. [getBalance] on a ready adapter, before any request: with no
    address (or the empty one) and no wallet it throws that no wallet
    address was provided; with an address, given or the wallet's, and a
    token outside the table it throws that the token is not supported. *)
Theorem getBalance_validation (token : string) (address : option string)
    (st : ShadowWireAdapter) :
  initialized (sw_base st) = true ->
  let walletAddress :=
    Js.opt_str_or address
      (match wallet (sw_base st) with Some w => toBase58 (publicKey w) | None => EmptyString end) in
  (walletAddress = EmptyString ->
     sw_getBalance token address st
     = Ret (Thrown (JsError "No wallet address provided"), st))
  /\ (walletAddress <> EmptyString ->
      own_property SHADOWWIRE_TOKENS (Js.toUpperCase token) = None ->
      sw_getBalance token address st
      = Ret (Thrown (JsError ("Token " ++ token ++ " not supported by ShadowWire")), st)).
Proof.
  intros Hr walletAddress. split.
  - intros Hw. unfold sw_getBalance. unfold bind at 1. unfold ensureReady. rewrite Hr.
    cbn [ret pbind fst snd]. unfold bind at 1, get_state. cbn [pbind fst snd].
    fold walletAddress. rewrite Hw. reflexivity.
  - intros Hw Ht. unfold sw_getBalance. unfold bind at 1. unfold ensureReady. rewrite Hr.
    cbn [ret pbind fst snd]. unfold bind at 1, get_state. cbn [pbind fst snd].
    fold walletAddress. apply String.eqb_neq in Hw. rewrite Hw, Ht. reflexivity.
Qed.

(** X9. In [deposit] the conversion to base units is made inside the
    callback of [retry]: when it throws, no request is posted, yet the
    failure is retried like any other, so the run is the clock, the
    signature and two pauses of 1000 and 2000 ms before the error reaches
    the caller (as it is when a TransactionError, else wrapped). *)
Theorem deposit_retries_conversion_error (request : DepositRequest)
    (st : ShadowWireAdapter) (w : WalletAdapter) (cfg : ShadowWireToken) (W : world) (n : nat)
    (sign : list byte -> list byte) (e : error) :
  initialized (sw_base st) = true ->
  wallet (sw_base st) = Some w ->
  own_property SHADOWWIRE_TOKENS (Js.toUpperCase (dr_token request)) = Some cfg ->
  nltb (dr_amount request) (sw_minAmount cfg) = false ->
  (forall message, W (S n) _ (SignMessage message) = inr (sign message)) ->
  toSmallestUnit (dr_amount request) (Js.toUpperCase (dr_token request)) = inl e ->
  kinds (trace_of W n (sw_deposit toSmallestUnit request) st)
  = [KDateNow; KSignMessage; KSleep 1000; KSleep 2000]
  /\ result_of W n (sw_deposit toSmallestUnit request) st
     = Thrown (match e with
               | TransactionError _ => e
               | _ => wrapError e "ShadowWire deposit failed"
               end)
  /\ state_after W n (sw_deposit toSmallestUnit request) st = st.
Proof.
  intros Hr Hw Ht Hlt Hs He.
  assert (R : exists tr,
             runs_to W n (sw_deposit toSmallestUnit request) st
               (Thrown (match e with
                        | TransactionError _ => e
                        | _ => wrapError e "ShadowWire deposit failed"
                        end)) st tr
             /\ kinds tr = [KDateNow; KSignMessage; KSleep 1000; KSleep 2000]).
  { unfold sw_deposit.
    eexists. split.
    - eapply runs_step; [unfold ensureReady; rewrite Hr; reflexivity|].
      eapply runs_step; [unfold ensureWallet; rewrite Hw; reflexivity|].
      cbv zeta. rewrite Ht, Hlt.
      eapply runs_try_thrown.
      + eapply runs_bind_ok; [apply runs_perform|].
        cbn [List.length]. rewrite Nat.add_1_r.
        eapply runs_bind_ok; [apply runs_await_ok; apply Hs|].
        eapply runs_step; [reflexivity|].
        eapply runs_bind_thrown.
        unfold retry, sw_post_attempt. rewrite He.
        cbn [maxRetries baseDelayMs maxDelayMs shouldRetry opt_or].
        change (Z.to_nat (2 + 1)) with 3.
        unfold runs_to. reflexivity.
      + apply runs_silent. destruct e; reflexivity.
    - reflexivity. }
  destruct R as (tr & R & Hk).
  apply runs_to_unique in R as (R1 & R2 & R3).
  rewrite R1, R2, R3. auto.
Qed.


(** X10. A 2xx answer to the POST of [transfer] whose body is an object
    with a falsy [success] ends the transfer at once: the POST is made
    once, nothing is retried, and a TransactionError carries the [error]
    text of the body, or "Transfer failed" when there is none. *)
Theorem transfer_rejection_is_not_retried (request : TransferRequest)
    (st : ShadowWireAdapter) (w : WalletAdapter) (cfg : ShadowWireToken) (W : world) (n : nat)
    (sign : list byte -> list byte) (res : HttpResponse) (members : list (string * json))
    (msg : string) :
  initialized (sw_base st) = true ->
  wallet (sw_base st) = Some w ->
  own_property SHADOWWIRE_TOKENS (Js.toUpperCase (tr_token request)) = Some cfg ->
  nltb (tr_amount request) (sw_minAmount cfg) = false ->
  (forall message, W (S n) _ (SignMessage message) = inr (sign message)) ->
  (forall post, W (S (S n)) _ (Fetch post) = inr res) ->
  res_ok res = true ->
  JSON_parse (text res) = Some (JObject members) ->
  js_truthy (last_binding "success" members) = false ->
  string_or (last_binding "error" members) "Transfer failed" = Some msg ->
  kinds (trace_of W n (sw_transfer request) st)
  = [KDateNow; KSignMessage; KFetch "POST" (sw_apiBaseUrl st ++ "/v1/transfer")]
  /\ result_of W n (sw_transfer request) st = Thrown (TransactionError msg)
  /\ state_after W n (sw_transfer request) st = st.
Proof.
  intros Hr Hw Ht Hlt Hs Hf Hok Hj Hsucc Hmsg.
  assert (R : exists tr,
             runs_to W n (sw_transfer request) st (Thrown (TransactionError msg)) st tr
             /\ kinds tr
                = [KDateNow; KSignMessage;
                   KFetch "POST" (sw_apiBaseUrl st ++ "/v1/transfer")]).
  { unfold sw_transfer. eexists. split.
    - eapply runs_step; [unfold ensureReady; rewrite Hr; reflexivity|].
      eapply runs_step; [unfold ensureWallet; rewrite Hw; reflexivity|].
      cbv zeta. rewrite Ht, Hlt.
      eapply runs_try_thrown.
      + eapply runs_bind_ok; [apply runs_perform|].
        cbn [List.length]. rewrite Nat.add_1_r.
        eapply runs_bind_ok; [apply runs_await_ok; apply Hs|].
        cbn [List.length]. rewrite Nat.add_1_r.
        eapply runs_step; [reflexivity|].
        eapply runs_bind_ok.
        * unfold retry.
          cbn [maxRetries baseDelayMs maxDelayMs shouldRetry opt_or].
          change (Z.to_nat (2 + 1)) with 3. cbn [retry_loop].
          eapply runs_try_ok. unfold sw_transfer_attempt.
          eapply runs_bind_ok; [apply runs_await_ok; apply Hf|].
          rewrite Hok. cbn [negb]. apply runs_silent.
          unfold res_json. rewrite Hj. reflexivity.
        * apply runs_silent. unfold sw_check_success. cbn [get_property].
          rewrite Hsucc. cbn [negb]. rewrite Hmsg. reflexivity.
      + apply runs_silent. reflexivity.
    - reflexivity. }
  destruct R as (tr & R & Hk).
  apply runs_to_unique in R as (R1 & R2 & R3).
  rewrite R1, R2, R3. auto.
Qed.

End ShadowWireEdges.


Section Returns.

Context {NUM : JsNumber}.

Lemma returns_ret {S A : Type} (a : A) (Q : A -> Prop) : Q a -> returns_only (ret a : M S A) Q.
Proof. intros H s w n. exact H. Qed.

Lemma returns_throw {S A : Type} (e : error) (Q : A -> Prop) : returns_only (throw e : M S A) Q.
Proof. intros s w n. exact I. Qed.

Lemma returns_out {S A : Type} (why : string) (Q : A -> Prop) :
  returns_only (out_of_model why : M S A) Q.
Proof. intros s w n. exact I. Qed.

Lemma returns_bind {S A B : Type} (m : M S A) (f : A -> M S B) (Q : B -> Prop) :
  (forall a, returns_only (f a) Q) -> returns_only (bind m f) Q.
Proof.
  intros Hf s. apply every_run_bind. intros w n.
  destruct (result_of w n m s) as [a | e | why]; try exact I.
  eapply every_run_weaken; [apply Hf|]. intros o s' tr H; exact H.
Qed.

Lemma returns_try_catch {S A : Type} (m : M S A) (h : error -> M S A) (Q : A -> Prop) :
  returns_only m Q -> (forall e, returns_only (h e) Q) -> returns_only (try_catch m h) Q.
Proof.
  intros Hm Hh s. apply every_run_try_catch. intros w n.
  pose proof (Hm s w n) as H.
  destruct (result_of w n m s) as [a | e | why]; try exact I; [exact H|].
  eapply every_run_weaken; [apply Hh|]. intros o s' tr H'; exact H'.
Qed.

Lemma returns_sw_check_success {A : Type} (response : json) (failed : string)
    (k : string -> SW A) (Q : A -> Prop) :
  (forall id, returns_only (k id) Q) -> returns_only (sw_check_success response failed k) Q.
Proof.
  intros Hk. unfold sw_check_success.
  repeat match goal with
         | |- context [match ?x with _ => _ end] => destruct x
         end;
    first [apply returns_throw | apply returns_out | apply Hk].
Qed.

Variable toSmallestUnit : num -> string -> error + Z.

Lemma sw_deposit_returns (request : DepositRequest) :
  returns_only (sw_deposit toSmallestUnit request) (fun d =>
    exists cfg,
      own_property SHADOWWIRE_TOKENS (Js.toUpperCase (dr_token request)) = Some cfg
      /\ dres_fee d = nmul (dr_amount request) (sw_fee cfg)
      /\ dres_provider d = SHADOWWIRE).
Proof.
  unfold sw_deposit. apply returns_bind; intros _. apply returns_bind; intros w.
  cbv zeta. destruct (own_property _ _) as [cfg|] eqn:Ht; [|apply returns_throw].
  destruct (nltb _ _); [apply returns_throw|].
  apply returns_try_catch.
  - apply returns_bind; intros timestamp. apply returns_bind; intros signature.
    apply returns_bind; intros st. apply returns_bind; intros response.
    apply returns_sw_check_success. intros id.
    destruct (get_property response "commitment") as [[[] |] |];
      first [apply returns_throw | apply returns_out | apply returns_ret; eauto].
  - intros e. destruct e; apply returns_throw.
Qed.

Lemma sw_withdraw_returns (request : WithdrawRequest) :
  returns_only (sw_withdraw toSmallestUnit request) (fun d =>
    exists cfg,
      own_property SHADOWWIRE_TOKENS (Js.toUpperCase (wr_token request)) = Some cfg
      /\ wres_fee d = nmul (wr_amount request) (sw_fee cfg)
      /\ wres_provider d = SHADOWWIRE).
Proof.
  unfold sw_withdraw. apply returns_bind; intros _. apply returns_bind; intros w.
  cbv zeta. destruct (own_property _ _) as [cfg|] eqn:Ht; [|apply returns_throw].
  apply returns_try_catch.
  - apply returns_bind; intros timestamp. apply returns_bind; intros signature.
    apply returns_bind; intros st. apply returns_bind; intros response.
    apply returns_sw_check_success. intros id. apply returns_ret; eauto.
  - intros e. destruct e; apply returns_throw.
Qed.

Lemma estimate_token_supported {A : Type} (table : list (string * A)) (token : string) (cfg : A) :
  own_property table (Js.toUpperCase token) = Some cfg ->
  own_property table EmptyString = None ->
  estimate_token (Some token) = Js.toUpperCase token.
Proof.
  intros Ht He. unfold estimate_token. destruct token as [|c r]; [|reflexivity].
  cbn [Js.toUpperCase] in Ht. congruence.
Qed.

(** X11. The fee that a ShadowWire [deposit] or [withdraw] reports when it
    succeeds is the fee [estimate] gives for the same token and amount
    (an amount that is not 0 or NaN): the amount times the fee rate of the
    token's row. *)
Theorem shadowwire_fee_is_estimated (W : world) (n : nat) (st : ShadowWireAdapter) :
  (forall (request : DepositRequest) (d : DepositResult),
      result_of W n (sw_deposit toSmallestUnit request) st = Ok d ->
      ntruthy (dr_amount request) = true ->
      dres_fee d
      = eres_fee (sw_estimate {| er_operation := Some OpDeposit;
                                 er_amount := Some (dr_amount request);
                                 er_token := Some (dr_token request);
                                 er_privacy := None |}))
  /\ (forall (request : WithdrawRequest) (d : WithdrawResult),
        result_of W n (sw_withdraw toSmallestUnit request) st = Ok d ->
        ntruthy (wr_amount request) = true ->
        wres_fee d
        = eres_fee (sw_estimate {| er_operation := Some OpWithdraw;
                                   er_amount := Some (wr_amount request);
                                   er_token := Some (wr_token request);
                                   er_privacy := None |})).
Proof.
  split; intros request d Hres Htruthy.
  - pose proof (sw_deposit_returns request st W n) as H. cbv beta in H. rewrite Hres in H.
    destruct H as (cfg & Ht & Hfee & _).
    unfold sw_estimate. cbn [er_token er_amount].
    rewrite (estimate_token_supported _ _ _ Ht eq_refl), Ht.
    cbn [eres_fee amount_or_zero]. now rewrite Htruthy.
  - pose proof (sw_withdraw_returns request st W n) as H. cbv beta in H. rewrite Hres in H.
    destruct H as (cfg & Ht & Hfee & _).
    unfold sw_estimate. cbn [er_token er_amount].
    rewrite (estimate_token_supported _ _ _ Ht eq_refl), Ht.
    cbn [eres_fee amount_or_zero]. now rewrite Htruthy.
Qed.

End Returns.

(* ================================================================== *)
(** * Runs of retry and of the ShadowWire adapter in decimal arithmetic *)
(* ================================================================== *)

Section MoreInstances.

#[local] Existing Instance DecNumber.

Lemma retry_budget_witness :
  (0 <= 2)%Z
  /\ exists r : nat,
       (Z.of_nat r <= 2)%Z
       /\ invoke_count
            (trace_of (ex_world 200 ex_accepted) 0
               (retry (await (Invoke nat "op"))
                  {| maxRetries := Some 2%Z; baseDelayMs := Some 500%Z;
                     maxDelayMs := Some 800%Z; shouldRetry := None |}) tt) = r + 1
       /\ sleeps
            (trace_of (ex_world 200 ex_accepted) 0
               (retry (await (Invoke nat "op"))
                  {| maxRetries := Some 2%Z; baseDelayMs := Some 500%Z;
                     maxDelayMs := Some 800%Z; shouldRetry := None |}) tt)
          = map (fun i => Z.min (500 * 2 ^ Z.of_nat i) 800) (seq 0 r).
Proof.
  split; [lia|].
  destruct (retry_budget unit nat "op" 2 500 800 None (ex_world 200 ex_accepted) 0 tt
              ltac:(lia)) as (r & A & B & C & _).
  exists r. exact (conj A (conj B C)).
Defined.

Lemma retry_negative_budget_witness :
  (-1 < 0)%Z
  /\ retry (await (Invoke nat "op"))
       {| maxRetries := Some (-1)%Z; baseDelayMs := None; maxDelayMs := None;
          shouldRetry := None |} tt
     = Ret (Thrown ThrownUndefined, tt).
Proof.
  split; [lia|].
  exact (retry_negative_budget unit nat (await (Invoke nat "op")) (-1) None None None tt
           ltac:(lia)).
Defined.

Lemma getBalance_requests_witness :
  initialized (sw_base ex_sw) = true
  /\ own_property SHADOWWIRE_TOKENS "SOL"
     = Some {| sw_decimals := 9; sw_fee := lit 5 3; sw_minAmount := lit 1 2 |}
  /\ exists r : nat,
       r <= 3
       /\ kinds (trace_of (ex_world 200 ex_balance) 0 (sw_getBalance "sol" (Some "someone")) ex_sw)
          = retry_shape (KFetch "GET" "https://api.example/v1/balance/someone?token=SOL")
              1000 10000 0 r.
Proof.
  refine (conj eq_refl (conj eq_refl _)).
  destruct (getBalance_requests "sol" (Some "someone") ex_sw _ (ex_world 200 ex_balance) 0
              eq_refl eq_refl eq_refl) as (r & A & B & _).
  exists r. exact (conj A B).
Defined.

Lemma getBalance_validation_witness :
  initialized (sw_base ex_sw_no_wallet) = true
  /\ sw_getBalance "sol" None ex_sw_no_wallet
     = Ret (Thrown (JsError "No wallet address provided"), ex_sw_no_wallet)
  /\ sw_getBalance "doge" (Some "someone") ex_sw_no_wallet
     = Ret (Thrown (JsError "Token doge not supported by ShadowWire"), ex_sw_no_wallet).
Proof.
  split; [reflexivity|].
  split.
  - exact (proj1 (getBalance_validation "sol" None ex_sw_no_wallet eq_refl) eq_refl).
  - refine (proj2 (getBalance_validation "doge" (Some "someone") ex_sw_no_wallet eq_refl)
             _ eq_refl).
    discriminate.
Defined.

Lemma deposit_retries_conversion_error_witness :
  nltb (dr_amount ex_deposit) (lit 1 2) = false
  /\ ex_no_units (dr_amount ex_deposit) "SOL" = inl range_error
  /\ kinds (trace_of (ex_world 200 ex_accepted) 0 (sw_deposit ex_no_units ex_deposit) ex_sw)
     = [KDateNow; KSignMessage; KSleep 1000; KSleep 2000]
  /\ result_of (ex_world 200 ex_accepted) 0 (sw_deposit ex_no_units ex_deposit) ex_sw
     = Thrown (WrappedError "ShadowWire deposit failed" range_error).
Proof.
  refine (conj eq_refl (conj eq_refl _)).
  destruct (deposit_retries_conversion_error ex_no_units ex_deposit ex_sw ex_wallet _
              (ex_world 200 ex_accepted) 0 (fun m => m) range_error
              eq_refl eq_refl eq_refl eq_refl (fun _ => eq_refl) eq_refl) as (A & B & _).
  exact (conj A B).
Defined.

Lemma transfer_rejection_is_not_retried_witness :
  res_ok {| status := 200; text := stringify ex_rejected |} = true
  /\ kinds (trace_of (ex_world 200 ex_rejected) 0 (sw_transfer ex_transfer) ex_sw)
     = [KDateNow; KSignMessage; KFetch "POST" "https://api.example/v1/transfer"]
  /\ result_of (ex_world 200 ex_rejected) 0 (sw_transfer ex_transfer) ex_sw
     = Thrown (TransactionError "denied").
Proof.
  refine (conj eq_refl _).
  destruct (transfer_rejection_is_not_retried ex_transfer ex_sw ex_wallet _
              (ex_world 200 ex_rejected) 0 (fun m => m)
              {| status := 200; text := stringify ex_rejected |}
              [("success", JBool false); ("error", JString "denied")] "denied"
              eq_refl eq_refl eq_refl eq_refl (fun _ => eq_refl) (fun _ => eq_refl)
              eq_refl eq_refl eq_refl eq_refl) as (A & B & _).
  exact (conj A B).
Defined.

Lemma shadowwire_fee_is_estimated_witness :
  result_of (ex_world 200 ex_accepted) 0 (sw_withdraw ex_units ex_small_withdraw) ex_sw
  = Ok {| wres_signature := "tx1"; wres_provider := SHADOWWIRE;
          wres_fee := nmul (lit 1 3) (lit 5 3) |}
  /\ eres_fee (sw_estimate {| er_operation := Some OpWithdraw; er_amount := Some (lit 1 3);
                              er_token := Some "SOL"; er_privacy := None |})
     = nmul (lit 1 3) (lit 5 3).
Proof.
  split; [reflexivity|].
  symmetry.
  exact (proj2 (shadowwire_fee_is_estimated ex_units (ex_world 200 ex_accepted) 0 ex_sw)
           ex_small_withdraw _ eq_refl eq_refl).
Defined.

End MoreInstances.

(* ================================================================== *)
(** * More of utils/index.ts: truncateAddress and the Noir commitment *)
(* ================================================================== *)

Section UtilsFacts.

Context {NUM : JsNumber}.

Lemma str_take_app (n : nat) (a b : string) :
  Js.str_take n (a ++ b) = (Js.str_take n a ++ Js.str_take (n - String.length a) b)%string.
Proof.
  revert n; induction a as [|c a IH]; intros n; cbn [append String.length].
  - rewrite Nat.sub_0_r. destruct n; reflexivity.
  - destruct n as [|n]; cbn [Js.str_take Nat.sub append]; [destruct b; reflexivity|].
    now rewrite IH.
Qed.

Lemma str_drop_all (n : nat) (a : string) : String.length a <= n -> Js.str_drop n a = EmptyString.
Proof.
  revert n; induction a as [|c a IH]; intros [|n] H; cbn in *; try reflexivity; try lia.
  apply IH. lia.
Qed.

Lemma length_str_take (n : nat) (a : string) :
  String.length (Js.str_take n a) = Nat.min n (String.length a).
Proof.
  revert n; induction a as [|c a IH]; intros [|n]; cbn; try reflexivity. now rewrite IH.
Qed.

Lemma length_str_drop (n : nat) (a : string) :
  String.length (Js.str_drop n a) = String.length a - n.
Proof.
  revert n; induction a as [|c a IH]; intros [|n]; cbn; try reflexivity. now rewrite IH.
Qed.

(** X12. [truncateAddress] with [chars] characters on each side: an
    address longer than [chars] gives its first [chars] characters, three
    dots and its last [chars] characters, [2 chars + 3] in all; an address
    of at most [chars] characters is not shortened but written twice,
    around the dots; and with [chars = 0] the whole address follows the
    dots, since [slice(-0)] is [slice(0)]. *)
Theorem truncateAddress_edges (address : string) (chars : nat) :
  let n := String.length address in
  (0 < chars <= n ->
     truncateAddress address (Some (Z.of_nat chars))
     = Js.str_take chars address ++ "..." ++ Js.str_drop (n - chars) address
     /\ String.length (truncateAddress address (Some (Z.of_nat chars))) = 2 * chars + 3)
  /\ (n <= chars ->
      truncateAddress address (Some (Z.of_nat chars)) = address ++ "..." ++ address)
  /\ truncateAddress address (Some 0%Z) = "..." ++ address
  /\ truncateAddress address None = truncateAddress address (Some 4%Z).
Proof.
  intros n. unfold truncateAddress, slice_to, slice_from, relative_index. fold n.
  split; [|split; [|split]].
  - intros [H0 Hn].
    assert (E1 : Z.to_nat (if (Z.of_nat chars <? 0)%Z
                           then Z.max (Z.of_nat n + Z.of_nat chars) 0
                           else Z.min (Z.of_nat chars) (Z.of_nat n)) = chars).
    { destruct (Z.ltb_spec (Z.of_nat chars) 0); lia. }
    assert (E2 : Z.to_nat (if (- Z.of_nat chars <? 0)%Z
                           then Z.max (Z.of_nat n + - Z.of_nat chars) 0
                           else Z.min (- Z.of_nat chars) (Z.of_nat n)) = n - chars).
    { destruct (Z.ltb_spec (- Z.of_nat chars) 0); lia. }
    rewrite E1, E2. split; [reflexivity|].
    rewrite !length_append, length_str_take, length_str_drop. fold n.
    cbn [String.length]. lia.
  - intros Hn.
    assert (E1 : Z.to_nat (if (Z.of_nat chars <? 0)%Z
                           then Z.max (Z.of_nat n + Z.of_nat chars) 0
                           else Z.min (Z.of_nat chars) (Z.of_nat n)) = n).
    { destruct (Z.ltb_spec (Z.of_nat chars) 0); lia. }
    assert (E2 : Z.to_nat (if (- Z.of_nat chars <? 0)%Z
                           then Z.max (Z.of_nat n + - Z.of_nat chars) 0
                           else Z.min (- Z.of_nat chars) (Z.of_nat n)) = 0).
    { destruct (Z.ltb_spec (- Z.of_nat chars) 0); lia. }
    rewrite E1, E2. rewrite str_take_all by (unfold n; lia).
    destruct address; reflexivity.
  - cbn. destruct address; reflexivity.
  - reflexivity.
Qed.

Lemma string_of_firstn (n : nat) (s : string) :
  Js.string_of_buffer (firstn n (Js.buffer_of_string s)) = Js.str_take n s.
Proof.
  unfold Js.string_of_buffer, Js.buffer_of_string, string_of_list_byte, list_byte_of_string.
  revert n; induction s as [|c s IH]; intros [|n];
    cbn [list_ascii_of_string map firstn string_of_list_ascii Js.str_take]; try reflexivity.
  now rewrite IH, Ascii.ascii_of_byte_of_ascii.
Qed.

(** X13. The commitment of the Noir adapter hides nothing and binds to
    little: read back as text, its bytes are the first 32 characters of
    the amount, a colon and the salt, so the amount stands at its start;
    and two salts that agree on their first [31 - d] characters, [d]
    being the length of the amount's text, give the same commitment. *)
Theorem noir_commitment_is_plain_text (amount : num) (salt : string) :
  let d := String.length (number_to_string amount) in
  Js.string_of_buffer (Js.hexToBytes (createCommitment amount salt))
  = Js.str_take 32 (number_to_string amount ++ ":" ++ salt)
  /\ (forall salt',
        Js.str_take (31 - d) salt = Js.str_take (31 - d) salt' ->
        createCommitment amount salt = createCommitment amount salt').
Proof.
  intros d. split.
  - unfold createCommitment. rewrite hexToBytes_bytesToHex. apply string_of_firstn.
  - intros salt' H. unfold createCommitment. f_equal.
    assert (E : forall t, firstn 32 (Js.buffer_of_string t)
                          = Js.buffer_of_string (Js.str_take 32 t)).
    { intros t. rewrite <- (string_of_firstn 32 t).
      unfold Js.string_of_buffer, Js.buffer_of_string.
      now rewrite list_byte_of_string_of_list_byte. }
    rewrite !E. f_equal.
    rewrite !str_take_app. cbn [String.length]. fold d.
    replace (32 - d - 1) with (31 - d) by lia. now rewrite H.
Qed.

End UtilsFacts.

(* ================================================================== *)
(** * The Noir adapter *)
(* ================================================================== *)

Section NoirFacts.

Context {NUM : JsNumber}.




(** X16. [createVerifyInstruction], for a proof and public inputs shorter
    than 2^32 bytes: the data is the byte 0x01, the length of the proof
    in 4 little-endian bytes, the proof, the length of the JSON text of
    the public inputs in 4 little-endian bytes, and that text; the
    accounts are the wallet, as signer, and the system program. *)
Theorem verify_instruction_layout (w : WalletAdapter) (proof : list byte)
    (publicInputs : json) :
  let inputsBytes := Js.buffer_of_string (stringify publicInputs) in
  (Z.of_nat (List.length proof) < 2 ^ 32)%Z ->
  (Z.of_nat (List.length inputsBytes) < 2 ^ 32)%Z ->
  createVerifyInstruction w proof publicInputs
  = inr {| ix_programId := SUNSPOT_PROGRAM_ID;
           ix_keys :=
             [ {| pubkey := publicKey w; isSigner := true; isWritable := true |};
               {| pubkey := SystemProgram_programId; isSigner := false;
                  isWritable := false |} ];
           ix_data :=
             ([x01] ++ Js.le_bytes 4 (Z.of_nat (List.length proof)) ++ proof
                ++ Js.le_bytes 4 (Z.of_nat (List.length inputsBytes)) ++ inputsBytes)%list |}.
Proof.
  intros inputsBytes Hp Hi. unfold createVerifyInstruction. cbn zeta. fold inputsBytes.
  unfold Js.buffer_alloc, Js.writeUInt8, Js.writeUInt32LE.
  assert (R : forall k : nat, (Z.of_nat k < 2 ^ 32)%Z ->
                ((0 <=? Z.of_nat k)%Z && (Z.of_nat k <? 2 ^ 32)%Z) = true).
  { intros k Hk. apply andb_true_intro; split; [apply Z.leb_le; lia | now apply Z.ltb_lt]. }
  rewrite !List.repeat_app, <- !List.app_assoc.
  match goal with
  | |- context [Js.buffer_copy [x01] (repeat x00 1 ++ ?r)%list 0] =>
      rewrite (buffer_copy_at [x01] [] (repeat x00 1) r 0 eq_refl eq_refl
               : Js.buffer_copy [x01] (repeat x00 1 ++ r)%list 0 = ([x01] ++ r)%list)
  end.
  rewrite (R _ Hp). cbn [Nat.add].
  rewrite (buffer_copy_at _ [x01] (repeat x00 4) _ 1)
    by (rewrite ?List.repeat_length, ?length_le_bytes; cbn [List.length]; lia).
  rewrite (List.app_assoc [x01]).
  rewrite (buffer_copy_at proof _ (repeat x00 (List.length proof)) _ 5)
    by (rewrite ?List.length_app, ?List.repeat_length, ?length_le_bytes; cbn [List.length]; lia).
  rewrite (R _ Hi).
  rewrite (List.app_assoc ([x01] ++ _) proof).
  rewrite (buffer_copy_at _ _ (repeat x00 4) _ (5 + List.length proof))
    by (rewrite ?List.length_app, ?List.repeat_length, ?length_le_bytes; cbn [List.length]; lia).
  rewrite (List.app_assoc (([x01] ++ _) ++ proof)).
  rewrite <- (List.app_nil_r (repeat x00 (List.length inputsBytes))).
  rewrite (buffer_copy_at inputsBytes _ (repeat x00 (List.length inputsBytes)) []
             (5 + List.length proof + 4))
    by (rewrite ?List.length_app, ?List.repeat_length, ?length_le_bytes; cbn [List.length]; lia).
  rewrite List.app_nil_r, <- !List.app_assoc. reflexivity.
Qed.

End NoirFacts.

(* ================================================================== *)
(** * The Arcium adapter *)
(* ================================================================== *)

Lemma to_N_byte_of_Z (z : Z) : Z.of_N (Byte.to_N (Js.byte_of_Z z)) = (z mod 256)%Z.
Proof.
  unfold Js.byte_of_Z.
  assert (H : (0 <= z mod 256 < 256)%Z) by (apply Z.mod_pos_bound; lia).
  destruct (Byte.of_N (Z.to_N (z mod 256))) as [b|] eqn:E.
  - apply Byte.to_of_N in E. rewrite E. lia.
  - apply Byte.of_N_None_iff in E. lia.
Qed.

Lemma le_value_le_bytes (n : nat) : forall z : Z,
  (0 <= z < 256 ^ Z.of_nat n)%Z -> le_value (Js.le_bytes n z) = z.
Proof.
  induction n as [|n IH]; intros z Hz.
  - cbn in *. lia.
  - cbn [Js.le_bytes le_value fold_right]. fold (le_value (Js.le_bytes n (z / 256))).
    rewrite to_N_byte_of_Z, IH.
    + pose proof (Z.div_mod z 256). lia.
    + rewrite Nat2Z.inj_succ, Z.pow_succ_r in Hz by lia.
      split; [apply Z.div_pos; lia | apply Z.div_lt_upper_bound; lia].
Qed.

Section ArciumFacts.

Context {NUM : JsNumber}.

Lemma base_units_range (amount scale : num) (units : Z) :
  base_units amount scale = Some units ->
  nfloor (nmul amount scale) = Some units /\ (0 <= units < 2 ^ 64)%Z.
Proof.
  unfold base_units. destruct (nfloor _) as [z|]; [|discriminate].
  destruct (_ && _) eqn:E; [|discriminate]. intros [= ->].
  apply andb_prop in E as [A B]. apply Z.leb_le in A. apply Z.ltb_lt in B. auto.
Qed.

(** X17. The instruction of a confidential transfer carries the amount in
    clear.  For keys of 32 bytes the data is the byte 0x01, the sender,
    the recipient, a 12-byte nonce, the amount in units of 1e-9 as 8
    little-endian bytes, and 16 zero bytes: the amount is read back from
    the bytes 77 to 84.  The instruction is not built, and a RangeError is
    thrown, exactly when the amount has no such u64. *)
Theorem confidential_transfer_amount_is_clear (sender recipient : PublicKey)
    (amount : num) (tokenConfig : CSPLTokenConfig) (st : ArciumAdapter) :
  List.length sender = 32 ->
  List.length recipient = 32 ->
  every_run (createConfidentialTransferInstruction sender recipient amount tokenConfig) st
    (fun o _ _ =>
       match o with
       | Ok ix =>
           exists (units : Z) (nonce : list byte),
             base_units amount (num_of_Z 1000000000) = Some units
             /\ List.length nonce = 12
             /\ ix_data ix
                = ([x01] ++ sender ++ recipient ++ nonce ++ Js.le_bytes 8 units
                     ++ repeat x00 16)%list
             /\ le_value (firstn 8 (skipn 77 (ix_data ix))) = units
       | Thrown e => base_units amount (num_of_Z 1000000000) = None /\ e = range_error
       | OutOfModel _ => False
       end).
Proof.
  intros Hs Hr W n.
  unfold result_of, createConfidentialTransferInstruction, encryptAmount, bind.
  destruct (base_units amount (num_of_Z 1000000000)) as [units|] eqn:Hu;
    [|cbn [throw pbind run fst snd]; auto].
  unfold perform. cbn [ret pbind run fst snd].
  set (nonce := firstn 12 (W n _ (RandomBytes 12) ++ repeat x00 12)).
  assert (Hn : List.length nonce = 12).
  { unfold nonce. rewrite List.length_firstn, List.length_app, List.repeat_length. lia. }
  assert (Hd : forall data,
             data = ([x01] ++ sender ++ recipient ++ nonce ++ Js.le_bytes 8 units
                       ++ repeat x00 16)%list ->
             le_value (firstn 8 (skipn 77 data)) = units).
  { intros data ->.
    rewrite (List.app_assoc [x01]), (List.app_assoc ([x01] ++ sender)),
      (List.app_assoc (([x01] ++ sender) ++ recipient)).
    rewrite List.skipn_app, List.skipn_all2
      by (rewrite !List.length_app, Hs, Hr, Hn; cbn [List.length]; lia).
    rewrite !List.length_app, Hs, Hr, Hn. cbn [List.length Nat.add Nat.sub app skipn].
    rewrite List.firstn_app, length_le_bytes, Nat.sub_diag.
    rewrite List.firstn_all2 by (rewrite length_le_bytes; lia).
    cbn [firstn]. rewrite List.app_nil_r.
    apply base_units_range in Hu as [_ Hu].
    apply le_value_le_bytes. exact Hu. }
  exists units, nonce. split; [reflexivity|]. split; [exact Hn|].
  cbn [ix_data].
  match goal with |- ?d = ?r /\ _ => assert (E : d = r) end.
  2: { split; [exact E|]. apply Hd. exact E. }
  unfold Js.buffer_alloc, Js.writeUInt8.
  fold nonce.
  set (ct := (nonce ++ Js.le_bytes 8 units ++ repeat x00 16)%list).
  assert (Hc : List.length ct = 36).
  { unfold ct. rewrite !List.length_app, Hn, length_le_bytes, List.repeat_length. reflexivity. }
  rewrite Hc.
  change (1 + 32 + 32 + 36) with (1 + (32 + (32 + 36))).
  rewrite !List.repeat_app.
  match goal with
  | |- context [Js.buffer_copy [x01] (repeat x00 1 ++ ?r)%list 0] =>
      rewrite (buffer_copy_at [x01] [] (repeat x00 1) r 0 eq_refl eq_refl
               : Js.buffer_copy [x01] (repeat x00 1 ++ r)%list 0 = ([x01] ++ r)%list)
  end.
  rewrite (buffer_copy_at sender [x01] (repeat x00 32) _ 1)
    by (rewrite ?List.repeat_length; cbn [List.length]; lia).
  rewrite (List.app_assoc [x01] sender).
  rewrite (buffer_copy_at recipient ([x01] ++ sender) (repeat x00 32) _ 33)
    by (rewrite ?List.length_app, ?List.repeat_length; cbn [List.length]; lia).
  rewrite (List.app_assoc ([x01] ++ sender) recipient).
  rewrite <- (List.app_nil_r (repeat x00 36)).
  rewrite (buffer_copy_at ct _ (repeat x00 36) [] 65)
    by (rewrite ?List.length_app, ?List.repeat_length; cbn [List.length]; lia).
  rewrite List.app_nil_r, <- !List.app_assoc. reflexivity.
Qed.

End ArciumFacts.

Section ArciumRuns.

Context {NUM : JsNumber}.

Lemma every_run_kept_bind {S A B : Type} (m : M S A) (f : A -> M S B) (s : S)
    (Q : outcome B -> S -> Prop) :
  keeps m ->
  (forall e, Q (Thrown e) s) ->
  (forall why, Q (OutOfModel why) s) ->
  (forall a, every_run (f a) s (fun o s' _ => Q o s')) ->
  every_run (bind m f) s (fun o s' _ => Q o s').
Proof.
  intros Hk He Ho Hf. apply every_run_bind. intros w n. rewrite (Hk s w n).
  destruct (result_of w n m s); auto.
Qed.

Lemma keeps_send_and_confirm {S : Type} (w : WalletAdapter) (ix : TransactionInstruction) :
  keeps (send_and_confirm w ix : M S string).
Proof.
  intros s. eapply every_run_weaken; [apply send_and_confirm_runs|].
  intros o s' tr [H _]. exact H.
Qed.

Lemma keeps_recipient_key {S : Type} (r : string + PublicKey) :
  keeps (recipient_key r : M S PublicKey).
Proof. destruct r; cbn [recipient_key]; auto with keeps. Qed.

Lemma keeps_encryptAmount (amount : num) : keeps (encryptAmount amount).
Proof.
  unfold encryptAmount. destruct (base_units _ _); [|apply keeps_throw].
  apply keeps_bind; [apply keeps_perform | intros nonce; apply keeps_ret].
Qed.

Lemma keeps_createConfidentialTransferInstruction (sender recipient : PublicKey)
    (amount : num) (tokenConfig : CSPLTokenConfig) :
  keeps (createConfidentialTransferInstruction sender recipient amount tokenConfig).
Proof.
  unfold createConfidentialTransferInstruction.
  apply keeps_bind; [apply keeps_encryptAmount | intros ct; apply keeps_ret].
Qed.

Lemma initMPCSession_runs (st : ArciumAdapter) :
  every_run initMPCSession st (fun o st' _ =>
    (exists session, o = Ok session /\ mpcSession st' = Some session)
    /\ arc_base st' = arc_base st
    /\ (forall session, mpcSession st = Some session -> st' = st)).
Proof.
  intros W n. unfold result_of, state_after, initMPCSession, bind, get_state.
  cbn [pbind fst snd].
  destruct (mpcSession st) as [session|] eqn:E.
  - cbn [ret run fst snd]. rewrite E. split; [eauto|]. split; [reflexivity | auto].
  - unfold perform, put_state. cbn [ret pbind run fst snd mpcSession arc_base].
    split; [eauto|]. split; [reflexivity | intros; discriminate].
Qed.

(** X18. [transfer] of the Arcium adapter changes nothing of the adapter
    but the MPC session: the session that exists is kept as it is, so the
    adapter is unchanged, and one is opened at the first transfer that
    gets as far as its [try] block; after a transfer that succeeded there
    is a session.  [deposit] and [withdraw] leave the adapter as it was,
    however they end. *)
Theorem arcium_session_is_kept :
  (forall (request : TransferRequest) (st : ArciumAdapter),
      every_run (arc_transfer request) st (fun o st' _ =>
        arc_base st' = arc_base st
        /\ (forall session, mpcSession st = Some session -> st' = st)
        /\ match o with Ok _ => mpcSession st' <> None | _ => True end))
  /\ (forall request : DepositRequest, keeps (arc_deposit request))
  /\ (forall request : WithdrawRequest, keeps (arc_withdraw request)).
Proof.
  split; [|split].
  - intros request st. unfold arc_transfer.
    apply (every_run_kept_bind _ _ _
             (fun o st' =>
                arc_base st' = arc_base st
                /\ (forall session, mpcSession st = Some session -> st' = st)
                /\ match o with Ok _ => mpcSession st' <> None | _ => True end));
      [apply keeps_ensureReady | auto | auto | intros _].
    apply (every_run_kept_bind _ _ _
             (fun o st' =>
                arc_base st' = arc_base st
                /\ (forall session, mpcSession st = Some session -> st' = st)
                /\ match o with Ok _ => mpcSession st' <> None | _ => True end));
      [apply keeps_ensureWallet | auto | auto | intros w].
    apply (every_run_kept_bind _ _ _
             (fun o st' =>
                arc_base st' = arc_base st
                /\ (forall session, mpcSession st = Some session -> st' = st)
                /\ match o with Ok _ => mpcSession st' <> None | _ => True end));
      [apply keeps_getConnection | auto | auto | intros _].
    cbv zeta. destruct (own_property _ _) as [tokenConfig|];
      [|apply every_run_throw; auto].
    apply (every_run_kept_bind _ _ _
             (fun o st' =>
                arc_base st' = arc_base st
                /\ (forall session, mpcSession st = Some session -> st' = st)
                /\ match o with Ok _ => mpcSession st' <> None | _ => True end));
      [apply keeps_recipient_key | auto | auto | intros recipient].
    apply every_run_try_catch, every_run_bind.
    eapply every_run_weaken; [apply initMPCSession_runs|].
    intros o st1 tr ((session & -> & Hs) & Hb & Hk).
    assert (K : keeps (bind (createConfidentialTransferInstruction (publicKey w) recipient
                               (tr_amount request) tokenConfig)
                         (fun instruction =>
                            bind (send_and_confirm w instruction) (fun signature =>
                              ret {| tres_signature := signature;
                                     tres_provider := ARCIUM;
                                     tres_privacyLevel := FULL_ENCRYPTED;
                                     tres_fee := nmul (lit 2 3) (tr_amount request);
                                     tres_anonymitySet := Some (num_of_Z 1000) |})))).
    { apply keeps_bind; [apply keeps_createConfidentialTransferInstruction | intros ix].
      apply keeps_bind; [apply keeps_send_and_confirm | intros signature; apply keeps_ret]. }
    intros W n. rewrite (K st1 W n).
    assert (G : arc_base st1 = arc_base st
                /\ (forall session0, mpcSession st = Some session0 -> st1 = st)
                /\ mpcSession st1 <> None) by (rewrite Hs; repeat split; auto; discriminate).
    destruct (result_of W n _ st1) as [r | e | why].
    + exact G.
    + apply every_run_throw. destruct G as (G1 & G2 & _). auto.
    + destruct G as (G1 & G2 & _). auto.
  - intros request. unfold arc_deposit.
    apply keeps_bind; [apply keeps_ensureReady | intros _].
    apply keeps_bind; [apply keeps_ensureWallet | intros w].
    apply keeps_bind; [apply keeps_getConnection | intros _].
    cbv zeta. destruct (own_property _ _) as [tokenConfig|]; [|apply keeps_throw].
    apply keeps_try_catch; [|intros e; apply keeps_throw].
    apply keeps_bind; [apply keeps_of_sum | intros ix].
    apply keeps_bind; [apply keeps_send_and_confirm | intros signature; apply keeps_ret].
  - intros request. unfold arc_withdraw.
    apply keeps_bind; [apply keeps_ensureReady | intros _].
    apply keeps_bind; [apply keeps_ensureWallet | intros w].
    apply keeps_bind; [apply keeps_getConnection | intros _].
    cbv zeta. destruct (own_property _ _) as [tokenConfig|]; [|apply keeps_throw].
    apply keeps_bind; [apply keeps_recipient_key | intros recipient].
    apply keeps_try_catch; [|intros e; apply keeps_throw].
    apply keeps_bind; [apply keeps_of_sum | intros ix].
    apply keeps_bind; [apply keeps_send_and_confirm | intros signature; apply keeps_ret].
Qed.

End ArciumRuns.

Ltac crunch := cbn [pbind run fst snd ret throw].

Section ArciumShieldFacts.

Context {NUM : JsNumber}.

Lemma base_units_floor (amount scale : num) :
  base_units amount scale
  = match nfloor (nmul amount scale) with
    | Some z => if (0 <=? z)%Z && (z <? 2 ^ 64)%Z then Some z else None
    | None => None
    end.
Proof. reflexivity. Qed.

(** X19. The instructions of [deposit] and [withdraw] of the Arcium
    adapter carry the amount in clear, as the u64 of
    floor(amount * 10^decimals): the data of a shield is the byte 0x02
    and the 8 little-endian bytes, that of an unshield the byte 0x03, the
    32 bytes of the recipient and the 8 bytes; the mint is a writable
    account in both.  When the amount has no such u64 neither is built
    and a RangeError is thrown. *)
Theorem shield_unshield_layout (owner recipient : PublicKey) (amount : num)
    (tokenConfig : CSPLTokenConfig) :
  List.length recipient = 32 ->
  match base_units amount (num_of_Z (10 ^ cspl_decimals tokenConfig)) with
  | Some units =>
      createShieldInstruction owner amount tokenConfig
      = inr {| ix_programId := ARCIUM_CSPL_PROGRAM_ID;
               ix_keys :=
                 [ {| pubkey := owner; isSigner := true; isWritable := true |};
                   {| pubkey := cspl_mint tokenConfig; isSigner := false; isWritable := true |};
                   {| pubkey := SystemProgram_programId; isSigner := false;
                      isWritable := false |} ];
               ix_data := ([x02] ++ Js.le_bytes 8 units)%list |}
      /\ createUnshieldInstruction owner recipient amount tokenConfig
         = inr {| ix_programId := ARCIUM_CSPL_PROGRAM_ID;
                  ix_keys :=
                    [ {| pubkey := owner; isSigner := true; isWritable := true |};
                      {| pubkey := recipient; isSigner := false; isWritable := true |};
                      {| pubkey := cspl_mint tokenConfig; isSigner := false;
                         isWritable := true |};
                      {| pubkey := SystemProgram_programId; isSigner := false;
                         isWritable := false |} ];
                  ix_data := ([x03] ++ recipient ++ Js.le_bytes 8 units)%list |}
      /\ le_value (Js.le_bytes 8 units) = units
  | None =>
      createShieldInstruction owner amount tokenConfig = inl range_error
      /\ createUnshieldInstruction owner recipient amount tokenConfig = inl range_error
  end.
Proof.
  intros Hr. rewrite base_units_floor.
  unfold createShieldInstruction, createUnshieldInstruction, Js.writeBigUInt64LE. cbn zeta.
  destruct (nfloor _) as [z|]; [|split; reflexivity].
  destruct ((0 <=? z)%Z && (z <? 2 ^ 64)%Z) eqn:E; [|split; reflexivity].
  unfold Js.buffer_alloc, Js.writeUInt8.
  split; [|split].
  - reflexivity.
  - do 2 f_equal.
    change 41 with (1 + (32 + 8)). rewrite !List.repeat_app.
    rewrite (buffer_copy_at [x03] [] (repeat x00 1) _ 0 eq_refl eq_refl
             : Js.buffer_copy [x03] (repeat x00 1 ++ (repeat x00 32 ++ repeat x00 8))%list 0
               = ([x03] ++ (repeat x00 32 ++ repeat x00 8))%list).
    rewrite (buffer_copy_at recipient [x03] (repeat x00 32) _ 1)
      by (rewrite ?List.repeat_length; cbn [List.length]; lia).
    rewrite (List.app_assoc [x03] recipient).
    rewrite <- (List.app_nil_r (repeat x00 8)).
    rewrite (buffer_copy_at (Js.le_bytes 8 z) _ (repeat x00 8) [] 33)
      by (rewrite ?List.length_app, ?List.repeat_length, ?length_le_bytes;
          cbn [List.length]; lia).
    now rewrite List.app_nil_r, <- List.app_assoc.
  - apply le_value_le_bytes.
    apply andb_prop in E as [A B]. apply Z.leb_le in A. apply Z.ltb_lt in B.
    change (256 ^ Z.of_nat 8)%Z with (2 ^ 64)%Z. lia.
Qed.

Lemma send_and_confirm_ok {St : Type} (w : WalletAdapter) (ix : TransactionInstruction)
    (s : St) (W : world) (n : nat) (signature : string) :
  result_of W n (send_and_confirm w ix) s = Ok signature ->
  exists (blockhash : string) (height : Z) (signedTx : list byte),
    trace_of W n (send_and_confirm w ix) s
    = [ Entry GetLatestBlockhash (inr (blockhash, height));
        Entry (SignTransaction {| instructions := [ix];
                                  recentBlockhash := Some blockhash;
                                  feePayer := Some (publicKey w) |}) (inr signedTx);
        Entry (SendRawTransaction signedTx) (inr signature);
        Entry (ConfirmTransaction signature blockhash height) (inr tt) ].
Proof.
  unfold result_of, trace_of, send_and_confirm, bind, await. cbn [pbind run fst snd].
  destruct (W n _ GetLatestBlockhash) as [e | [blockhash height]] eqn:E1;
    cbn [pbind run fst snd]; [discriminate|].
  destruct (W (S n) _ (SignTransaction _)) as [e | signedTx] eqn:E2;
    cbn [pbind run fst snd]; [discriminate|].
  destruct (W (S (S n)) _ (SendRawTransaction signedTx)) as [e | sig] eqn:E3;
    cbn [pbind run fst snd]; [discriminate|].
  destruct (W (S (S (S n))) _ (ConfirmTransaction sig blockhash height)) as [e | []] eqn:E4;
    cbn [pbind run ret fst snd]; [discriminate|].
  intros [= <-]. exists blockhash, height, signedTx. reflexivity.
Qed.

(** X20. A [deposit] or [withdraw] of the Arcium adapter that returns has
    made exactly four requests: the latest blockhash, the wallet's
    signature of a transaction whose only instruction is the shield (the
    unshield) of the requested amount, with the wallet as fee payer, the
    sending of the signed bytes and the confirmation of the signature it
    returns; the fee it reports is 0.002 times the amount, and a deposit
    returns no commitment. *)
Theorem arcium_shield_is_one_transaction (st : ArciumAdapter) (W : world) (n : nat) :
  (forall (request : DepositRequest) (d : DepositResult),
      result_of W n (arc_deposit request) st = Ok d ->
      exists w tokenConfig ix blockhash height signedTx,
        wallet (arc_base st) = Some w
        /\ own_property CSPL_TOKENS (Js.toUpperCase (dr_token request)) = Some tokenConfig
        /\ createShieldInstruction (publicKey w) (dr_amount request) tokenConfig = inr ix
        /\ trace_of W n (arc_deposit request) st
           = [ Entry GetLatestBlockhash (inr (blockhash, height));
               Entry (SignTransaction {| instructions := [ix];
                                         recentBlockhash := Some blockhash;
                                         feePayer := Some (publicKey w) |}) (inr signedTx);
               Entry (SendRawTransaction signedTx) (inr (dres_signature d));
               Entry (ConfirmTransaction (dres_signature d) blockhash height) (inr tt) ]
        /\ dres_provider d = ARCIUM
        /\ dres_commitment d = None
        /\ dres_fee d = nmul (lit 2 3) (dr_amount request))
  /\ (forall (request : WithdrawRequest) (r : WithdrawResult),
        result_of W n (arc_withdraw request) st = Ok r ->
        exists w tokenConfig recipient ix blockhash height signedTx,
          wallet (arc_base st) = Some w
          /\ own_property CSPL_TOKENS (Js.toUpperCase (wr_token request)) = Some tokenConfig
          /\ recipient_key (wr_recipient request) st = Ret (Ok recipient, st)
          /\ createUnshieldInstruction (publicKey w) recipient (wr_amount request) tokenConfig
             = inr ix
          /\ trace_of W n (arc_withdraw request) st
             = [ Entry GetLatestBlockhash (inr (blockhash, height));
                 Entry (SignTransaction {| instructions := [ix];
                                           recentBlockhash := Some blockhash;
                                           feePayer := Some (publicKey w) |}) (inr signedTx);
                 Entry (SendRawTransaction signedTx) (inr (wres_signature r));
                 Entry (ConfirmTransaction (wres_signature r) blockhash height) (inr tt) ]
          /\ wres_provider r = ARCIUM
          /\ wres_fee r = nmul (lit 2 3) (wr_amount request)).
Proof.
  split.
  - intros request d.
    unfold result_of, trace_of, arc_deposit, bind, try_catch, ensureReady, ensureWallet,
      getConnection.
    destruct (initialized (arc_base st)); crunch; [|discriminate].
    destruct (wallet (arc_base st)) as [w|]; crunch; [|discriminate].
    destruct (connected (arc_base st)); crunch; [|discriminate].
    destruct (own_property CSPL_TOKENS _) as [tokenConfig|]; crunch; [|discriminate].
    destruct (createShieldInstruction _ _ _) as [e | ix] eqn:Eix; cbn [of_sum]; crunch;
      [discriminate|].
    unfold send_and_confirm, bind, await. crunch.
    destruct (W n _ GetLatestBlockhash) as [e | [blockhash height]]; crunch; [discriminate|].
    destruct (W (S n) _ (SignTransaction _)) as [e | signedTx]; crunch; [discriminate|].
    destruct (W (S (S n)) _ (SendRawTransaction signedTx)) as [e | sig]; crunch;
      [discriminate|].
    destruct (W (S (S (S n))) _ (ConfirmTransaction sig blockhash height)) as [e | []];
      crunch; [discriminate|].
    intros [= <-]. exists w, tokenConfig, ix, blockhash, height, signedTx.
    repeat split; try reflexivity; exact Eix.
  - intros request r.
    unfold result_of, trace_of, arc_withdraw, bind, try_catch, ensureReady, ensureWallet,
      getConnection.
    destruct (initialized (arc_base st)); crunch; [|discriminate].
    destruct (wallet (arc_base st)) as [w|]; crunch; [|discriminate].
    destruct (connected (arc_base st)); crunch; [|discriminate].
    destruct (own_property CSPL_TOKENS _) as [tokenConfig|]; crunch; [|discriminate].
    assert (K : (exists recipient, recipient_key (wr_recipient request) st
                                   = Ret (Ok recipient, st))
                \/ (exists e, recipient_key (wr_recipient request) st = Ret (Thrown e, st))).
    { destruct (wr_recipient request) as [text | key]; cbn [recipient_key];
        [|left; eexists; reflexivity].
      unfold of_option. destruct (newPublicKey text); [left | right]; eexists; reflexivity. }
    destruct K as [(recipient & K) | (e & K)]; rewrite K; crunch; [|discriminate].
    destruct (createUnshieldInstruction _ _ _ _) as [e | ix] eqn:Eix; cbn [of_sum]; crunch;
      [discriminate|].
    unfold send_and_confirm, bind, await. crunch.
    destruct (W n _ GetLatestBlockhash) as [e | [blockhash height]]; crunch; [discriminate|].
    destruct (W (S n) _ (SignTransaction _)) as [e | signedTx]; crunch; [discriminate|].
    destruct (W (S (S n)) _ (SendRawTransaction signedTx)) as [e | sig]; crunch;
      [discriminate|].
    destruct (W (S (S (S n))) _ (ConfirmTransaction sig blockhash height)) as [e | []];
      crunch; [discriminate|].
    intros [= <-]. exists w, tokenConfig, recipient, ix, blockhash, height, signedTx.
    repeat split; try reflexivity; exact Eix.
Qed.

(** X21. An amount with no u64 of base units (NaN, negative, or too
    large) is refused by the Arcium adapter only when the instruction is
    built: on a ready adapter with a wallet and a supported token,
    [deposit] and [withdraw] throw the RangeError, wrapped, without any
    request; [transfer] does the same after it has opened the MPC session
    when there was none, with 16 random bytes and the clock. *)
Theorem arcium_amount_out_of_range (st : ArciumAdapter) (w : WalletAdapter)
    (tokenConfig : CSPLTokenConfig) (token : string) (amount : num) :
  initialized (arc_base st) = true ->
  wallet (arc_base st) = Some w ->
  connected (arc_base st) = true ->
  own_property CSPL_TOKENS (Js.toUpperCase token) = Some tokenConfig ->
  (base_units amount (num_of_Z (10 ^ cspl_decimals tokenConfig)) = None ->
     arc_deposit {| dr_amount := amount; dr_token := token |} st
     = Ret (Thrown (WrappedError "Arcium shield operation failed" range_error), st)
     /\ forall recipient commitment,
          arc_withdraw {| wr_amount := amount; wr_token := token;
                          wr_recipient := inr recipient; wr_commitment := commitment |} st
          = Ret (Thrown (WrappedError "Arcium unshield operation failed" range_error), st))
  /\ (base_units amount (num_of_Z 1000000000) = None ->
      forall recipient privacy options W n,
        let request := {| tr_recipient := inr recipient; tr_amount := amount;
                          tr_token := token; tr_privacy := privacy;
                          tr_options := options |} in
        result_of W n (arc_transfer request) st
        = Thrown (WrappedError "Arcium confidential transfer failed" range_error)
        /\ kinds (trace_of W n (arc_transfer request) st)
           = match mpcSession st with
             | Some _ => []
             | None => [KRandomBytes 16; KDateNow]
             end).
Proof.
  intros Hi Hw Hc Ht. split.
  - intros Hu. rewrite base_units_floor in Hu.
    assert (E1 : createShieldInstruction (publicKey w) amount tokenConfig = inl range_error).
    { unfold createShieldInstruction, Js.writeBigUInt64LE. cbn zeta.
      destruct (nfloor _) as [z|]; [|reflexivity].
      destruct ((0 <=? z)%Z && (z <? 2 ^ 64)%Z); [discriminate | reflexivity]. }
    assert (E2 : forall recipient,
               createUnshieldInstruction (publicKey w) recipient amount tokenConfig
               = inl range_error).
    { intros recipient. unfold createUnshieldInstruction, Js.writeBigUInt64LE. cbn zeta.
      destruct (nfloor _) as [z|]; [|reflexivity].
      destruct ((0 <=? z)%Z && (z <? 2 ^ 64)%Z); [discriminate | reflexivity]. }
    split.
    + unfold arc_deposit, bind, try_catch, ensureReady, ensureWallet, getConnection.
      cbn [dr_token dr_amount]. rewrite Hi. crunch. rewrite Hw. crunch. rewrite Hc. crunch.
      rewrite Ht, E1. reflexivity.
    + intros recipient commitment.
      unfold arc_withdraw, bind, try_catch, ensureReady, ensureWallet, getConnection.
      cbn [wr_token wr_amount wr_recipient recipient_key].
      rewrite Hi. crunch. rewrite Hw. crunch. rewrite Hc. crunch.
      rewrite Ht. crunch. rewrite E2. reflexivity.
  - intros Hu recipient privacy options W n request.
    unfold result_of, trace_of, request, arc_transfer, bind, try_catch, ensureReady,
      ensureWallet, getConnection.
    cbn [tr_token tr_amount tr_recipient recipient_key].
    rewrite Hi. crunch. rewrite Hw. crunch. rewrite Hc. crunch.
    rewrite Ht. crunch.
    unfold initMPCSession, createConfidentialTransferInstruction, encryptAmount, bind,
      get_state, put_state, perform.
    rewrite Hu. crunch.
    destruct (mpcSession st); crunch; split; reflexivity.
Qed.

End ArciumShieldFacts.

Section ArciumFees.

Context {NUM : JsNumber}.

Lemma arc_transfer_returns (request : TransferRequest) :
  returns_only (arc_transfer request) (fun r =>
    (exists cfg, own_property CSPL_TOKENS (Js.toUpperCase (tr_token request)) = Some cfg)
    /\ tres_fee r = nmul (lit 2 3) (tr_amount request)).
Proof.
  unfold arc_transfer. apply returns_bind; intros _. apply returns_bind; intros w.
  apply returns_bind; intros _.
  cbv zeta. destruct (own_property _ _) as [cfg|] eqn:Ht; [|apply returns_throw].
  apply returns_bind; intros recipient.
  apply returns_try_catch; [|intros e; apply returns_throw].
  apply returns_bind; intros _. apply returns_bind; intros ix.
  apply returns_bind; intros signature. apply returns_ret. eauto.
Qed.

Lemma arc_deposit_returns (request : DepositRequest) :
  returns_only (arc_deposit request) (fun d =>
    (exists cfg, own_property CSPL_TOKENS (Js.toUpperCase (dr_token request)) = Some cfg)
    /\ dres_fee d = nmul (lit 2 3) (dr_amount request)).
Proof.
  unfold arc_deposit. apply returns_bind; intros _. apply returns_bind; intros w.
  apply returns_bind; intros _.
  cbv zeta. destruct (own_property _ _) as [cfg|] eqn:Ht; [|apply returns_throw].
  apply returns_try_catch; [|intros e; apply returns_throw].
  apply returns_bind; intros ix.
  apply returns_bind; intros signature. apply returns_ret. eauto.
Qed.

Lemma arc_withdraw_returns (request : WithdrawRequest) :
  returns_only (arc_withdraw request) (fun r =>
    (exists cfg, own_property CSPL_TOKENS (Js.toUpperCase (wr_token request)) = Some cfg)
    /\ wres_fee r = nmul (lit 2 3) (wr_amount request)).
Proof.
  unfold arc_withdraw. apply returns_bind; intros _. apply returns_bind; intros w.
  apply returns_bind; intros _.
  cbv zeta. destruct (own_property _ _) as [cfg|] eqn:Ht; [|apply returns_throw].
  apply returns_bind; intros recipient.
  apply returns_try_catch; [|intros e; apply returns_throw].
  apply returns_bind; intros ix.
  apply returns_bind; intros signature. apply returns_ret. eauto.
Qed.

Lemma arc_estimate_fee (operation : option Operation) (amount : num) (token : string)
    (cfg : CSPLTokenConfig) :
  own_property CSPL_TOKENS (Js.toUpperCase token) = Some cfg ->
  ntruthy amount = true ->
  eres_fee (arc_estimate {| er_operation := operation; er_amount := Some amount;
                            er_token := Some token; er_privacy := None |})
  = nmul amount (lit 2 3).
Proof.
  intros Ht Ha. unfold arc_estimate. cbn [er_token er_amount].
  rewrite (estimate_token_supported _ _ _ Ht eq_refl), Ht.
  cbn [eres_fee amount_or_zero]. now rewrite Ha.
Qed.

(** X22. Multiplication of numbers being commutative, the fee that a
    [transfer], [deposit] or [withdraw] of the Arcium adapter reports when
    it succeeds is the fee [estimate] gives for the same operation, token
    and amount (an amount that is not 0 or NaN): the estimate is
    amount * 0.002, the operations report 0.002 * amount. *)
Theorem arcium_fee_is_estimated (W : world) (n : nat) (st : ArciumAdapter) :
  (forall a b : num, nmul a b = nmul b a) ->
  (forall (request : TransferRequest) (r : TransferResult),
      result_of W n (arc_transfer request) st = Ok r ->
      ntruthy (tr_amount request) = true ->
      tres_fee r
      = eres_fee (arc_estimate {| er_operation := Some OpTransfer;
                                  er_amount := Some (tr_amount request);
                                  er_token := Some (tr_token request);
                                  er_privacy := None |}))
  /\ (forall (request : DepositRequest) (d : DepositResult),
        result_of W n (arc_deposit request) st = Ok d ->
        ntruthy (dr_amount request) = true ->
        dres_fee d
        = eres_fee (arc_estimate {| er_operation := Some OpDeposit;
                                    er_amount := Some (dr_amount request);
                                    er_token := Some (dr_token request);
                                    er_privacy := None |}))
  /\ (forall (request : WithdrawRequest) (r : WithdrawResult),
        result_of W n (arc_withdraw request) st = Ok r ->
        ntruthy (wr_amount request) = true ->
        wres_fee r
        = eres_fee (arc_estimate {| er_operation := Some OpWithdraw;
                                    er_amount := Some (wr_amount request);
                                    er_token := Some (wr_token request);
                                    er_privacy := None |})).
Proof.
  intros Hcomm. split; [|split]; intros request r Hres Ha.
  - pose proof (arc_transfer_returns request st W n) as H. cbv beta in H. rewrite Hres in H.
    destruct H as ((cfg & Ht) & ->). rewrite (arc_estimate_fee _ _ _ _ Ht Ha). apply Hcomm.
  - pose proof (arc_deposit_returns request st W n) as H. cbv beta in H. rewrite Hres in H.
    destruct H as ((cfg & Ht) & ->). rewrite (arc_estimate_fee _ _ _ _ Ht Ha). apply Hcomm.
  - pose proof (arc_withdraw_returns request st W n) as H. cbv beta in H. rewrite Hres in H.
    destruct H as ((cfg & Ht) & ->). rewrite (arc_estimate_fee _ _ _ _ Ht Ha). apply Hcomm.
Qed.

End ArciumFees.

(* ================================================================== *)
(** * Runs of the Noir and Arcium adapters in decimal arithmetic *)
(* ================================================================== *)

Lemma Dec_mul_comm (a b : Dec.t) : Dec.mul a b = Dec.mul b a.
Proof. unfold Dec.mul. now rewrite Z.mul_comm, Nat.add_comm. Qed.

Section ArciumInstances.

#[local] Existing Instance DecNumber.

Lemma verify_instruction_layout_witness :
  (Z.of_nat (List.length [x0a; x0b]) < 2 ^ 32)%Z
  /\ option_map ix_data
       (match createVerifyInstruction ex_wallet [x0a; x0b] (JObject []) with
        | inr ix => Some ix
        | inl _ => None
        end)
     = Some [x01; x02; x00; x00; x00; x0a; x0b; x02; x00; x00; x00; x7b; x7d].
Proof.
  split; [reflexivity|].
  rewrite (verify_instruction_layout ex_wallet [x0a; x0b] (JObject []) eq_refl eq_refl).
  reflexivity.
Defined.

Lemma confidential_transfer_amount_is_clear_witness :
  List.length (publicKey ex_wallet) = 32
  /\ List.length ex_recipient = 32
  /\ exists ix,
       result_of (ex_world 200 ex_accepted) 0
         (createConfidentialTransferInstruction (publicKey ex_wallet) ex_recipient (lit 15 1)
            ex_usdc) ex_arc = Ok ix
       /\ le_value (firstn 8 (skipn 77 (ix_data ix))) = 1500000000%Z.
Proof.
  refine (conj eq_refl (conj eq_refl _)).
  pose proof (confidential_transfer_amount_is_clear (publicKey ex_wallet) ex_recipient
                (lit 15 1) ex_usdc ex_arc eq_refl eq_refl (ex_world 200 ex_accepted) 0) as H.
  cbv beta in H.
  destruct (result_of _ _ _ _) as [ix | e | why].
  - exists ix. split; [reflexivity|].
    destruct H as (units & nonce & Hu & _ & _ & Hv). rewrite Hv.
    assert (E : base_units (lit 15 1) (num_of_Z 1000000000) = Some 1500000000%Z)
      by (vm_compute; reflexivity).
    congruence.
  - destruct H as [H _]. vm_compute in H. discriminate H.
  - destruct H.
Defined.

Lemma shield_unshield_layout_witness :
  List.length ex_recipient = 32
  /\ base_units (lit 15 1) (num_of_Z (10 ^ 6)) = Some 1500000%Z
  /\ option_map ix_data
       (match createUnshieldInstruction (publicKey ex_wallet) ex_recipient (lit 15 1) ex_usdc with
        | inr ix => Some ix
        | inl _ => None
        end)
     = Some ([x03] ++ ex_recipient ++ Js.le_bytes 8 1500000)%list
  /\ createShieldInstruction (publicKey ex_wallet) (lit (-1) 0) ex_usdc = inl range_error.
Proof.
  split; [reflexivity|]. split; [vm_compute; reflexivity|].
  pose proof (shield_unshield_layout (publicKey ex_wallet) ex_recipient (lit 15 1) ex_usdc
                eq_refl) as H.
  pose proof (shield_unshield_layout (publicKey ex_wallet) ex_recipient (lit (-1) 0) ex_usdc
                eq_refl) as H'.
  assert (E : base_units (lit 15 1) (num_of_Z (10 ^ cspl_decimals ex_usdc))
              = Some 1500000%Z) by (vm_compute; reflexivity).
  assert (E' : base_units (lit (-1) 0) (num_of_Z (10 ^ cspl_decimals ex_usdc)) = None)
    by (vm_compute; reflexivity).
  rewrite E in H. rewrite E' in H'.
  split; [|exact (proj1 H')].
  destruct H as (_ & H & _). rewrite H. reflexivity.
Defined.

Lemma arcium_shield_is_one_transaction_witness :
  result_of (ex_world 200 ex_accepted) 0
    (arc_deposit {| dr_amount := num_of_Z 1; dr_token := "usdc" |}) ex_arc
  = Ok {| dres_signature := "sig"; dres_provider := ARCIUM; dres_commitment := None;
          dres_fee := nmul (lit 2 3) (num_of_Z 1) |}
  /\ kinds (trace_of (ex_world 200 ex_accepted) 0
              (arc_deposit {| dr_amount := num_of_Z 1; dr_token := "usdc" |}) ex_arc)
     = [KGetLatestBlockhash; KSignTransaction; KSendRawTransaction; KConfirmTransaction].
Proof.
  split; [reflexivity|].
  destruct (proj1 (arcium_shield_is_one_transaction ex_arc (ex_world 200 ex_accepted) 0)
              {| dr_amount := num_of_Z 1; dr_token := "usdc" |} _ eq_refl)
    as (w & cfg & ix & bh & h & signed & _ & _ & _ & Htr & _).
  rewrite Htr. reflexivity.
Defined.

Lemma arcium_amount_out_of_range_witness :
  base_units (lit (-1) 0) (num_of_Z (10 ^ 6)) = None
  /\ arc_deposit {| dr_amount := lit (-1) 0; dr_token := "usdc" |} ex_arc
     = Ret (Thrown (WrappedError "Arcium shield operation failed" range_error), ex_arc)
  /\ kinds (trace_of (ex_world 200 ex_accepted) 0
              (arc_transfer {| tr_recipient := inr ex_recipient; tr_amount := lit (-1) 0;
                               tr_token := "usdc"; tr_privacy := FULL_ENCRYPTED;
                               tr_options := None |}) ex_arc)
     = [KRandomBytes 16; KDateNow].
Proof.
  split; [reflexivity|].
  destruct (arcium_amount_out_of_range ex_arc ex_wallet ex_usdc "usdc" (lit (-1) 0)
              eq_refl eq_refl eq_refl eq_refl) as (A & B).
  split; [exact (proj1 (A eq_refl))|].
  exact (proj2 (B eq_refl ex_recipient FULL_ENCRYPTED None (ex_world 200 ex_accepted) 0)).
Defined.

Lemma arcium_fee_is_estimated_witness :
  result_of (ex_world 200 ex_accepted) 0
    (arc_deposit {| dr_amount := num_of_Z 1; dr_token := "usdc" |}) ex_arc
  = Ok {| dres_signature := "sig"; dres_provider := ARCIUM; dres_commitment := None;
          dres_fee := nmul (lit 2 3) (num_of_Z 1) |}
  /\ nmul (lit 2 3) (num_of_Z 1)
     = eres_fee (arc_estimate {| er_operation := Some OpDeposit; er_amount := Some (num_of_Z 1);
                                 er_token := Some "usdc"; er_privacy := None |}).
Proof.
  split; [reflexivity|].
  exact (proj1 (proj2 (arcium_fee_is_estimated (ex_world 200 ex_accepted) 0 ex_arc Dec_mul_comm))
           {| dr_amount := num_of_Z 1; dr_token := "usdc" |} _ eq_refl eq_refl).
Defined.

End ArciumInstances.

(* ================================================================== *)
(** * The Privacy Cash adapter: notes, balances and fees *)
(* ================================================================== *)

Section DepositRuns.

Context {NUM : JsNumber} {LAWS : JsNumberLaws NUM}.

Variable findProgramAddressSync : list (list byte) -> PublicKey -> option PublicKey.

Lemma map_get_set {V : Type} (k : string) (v : V) (m : list (string * V)) :
  map_get k (map_set k v m) = Some v.
Proof.
  induction m as [|[k' v'] m IH]; cbn [map_set map_get].
  - now rewrite String.eqb_refl.
  - destruct (String.eqb k k') eqn:E; cbn [map_get]; rewrite ?String.eqb_refl, ?E; auto.
Qed.

Lemma decode_encoded_note (note : DepositNote) :
  nfinite (amount note) = true ->
  nfinite (timestamp note) = true ->
  decodeNote (encodeNote note) = Some (raw_of_note note).
Proof.
  intros Ha Ht. unfold decodeNote, encodeNote.
  rewrite decode_encode. unfold Js.string_of_buffer, Js.buffer_of_string.
  rewrite string_of_list_byte_of_string, (parse_note_text note Ha Ht).
  reflexivity.
Qed.

(** X23. [deposit] of the Privacy Cash adapter changes the adapter only
    when it returns, and it returns only after the confirmation of the
    transaction it sent: the requests of such a run are two draws of 31
    random bytes, the blockhash, the signature, the sending, the
    confirmation and the clock.  The note it then keeps, under its
    commitment, has the requested amount, the upper-cased token and a
    secret and a nullifier of 62 hex digits; the text it returns is the
    encoding of that note and, the amount being finite, decodes to it. *)
Theorem deposit_stores_note_when_confirmed (request : DepositRequest)
    (st : PrivacyCashAdapter) :
  every_run (pc_deposit findProgramAddressSync request) st (fun o st' tr =>
    match o with
    | Ok d =>
        exists note : DepositNote,
          st' = with_notes st (map_set (commitment note) note (depositNotes st))
          /\ map_get (commitment note) (depositNotes st') = Some note
          /\ dres_commitment d = Some (encodeNote note)
          /\ (nfinite (dr_amount request) = true ->
              decodeNote (encodeNote note) = Some (raw_of_note note))
          /\ amount note = dr_amount request
          /\ token note = Js.toUpperCase (dr_token request)
          /\ commitment note = computeCommitment (secret note) (nullifier note)
          /\ String.length (secret note) = 62
          /\ String.length (nullifier note) = 62
          /\ kinds tr = [ KRandomBytes 31; KRandomBytes 31; KGetLatestBlockhash;
                          KSignTransaction; KSendRawTransaction; KConfirmTransaction;
                          KDateNow ]
          /\ exists blockhash height,
               In (Entry (ConfirmTransaction (dres_signature d) blockhash height) (inr tt)) tr
    | _ => st' = st
    end).
Proof.
  intros W n.
  unfold result_of, state_after, trace_of, pc_deposit, bind, try_catch, ensureReady,
    ensureWallet, getConnection.
  destruct (initialized (pc_base st)); crunch; [|reflexivity].
  destruct (wallet (pc_base st)) as [w|]; crunch; [|reflexivity].
  destruct (connected (pc_base st)); crunch; [|reflexivity].
  destruct (own_property POOL_CONFIGS _) as [poolConfig|]; crunch; [|reflexivity].
  destruct (nltb (dr_amount request) _); crunch; [reflexivity|].
  destruct (nltb _ (dr_amount request)); crunch; [reflexivity|].
  unfold randomBytes, bind, perform, get_state, put_state. crunch.
  set (secretBytes := firstn 31 (W n _ (RandomBytes 31) ++ repeat x00 31)).
  set (nullifierBytes := firstn 31 (W (S n) _ (RandomBytes 31) ++ repeat x00 31)).
  destruct (createDepositInstruction _ _ _ _ _ _) as [e | ix]; cbn [of_sum]; crunch;
    [reflexivity|].
  unfold send_and_confirm, bind, await. crunch.
  destruct (W (S (S n)) _ GetLatestBlockhash) as [e | [blockhash height]]; crunch;
    [reflexivity|].
  destruct (W (S (S (S n))) _ (SignTransaction _)) as [e | signedTx]; crunch; [reflexivity|].
  destruct (W (S (S (S (S n)))) _ (SendRawTransaction signedTx)) as [e | sig]; crunch;
    [reflexivity|].
  destruct (W (S (S (S (S (S n))))) _ (ConfirmTransaction sig blockhash height)) as [e | []];
    crunch; [reflexivity|].
  unfold perform. crunch.
  exists {| commitment := computeCommitment (Js.bytesToHex secretBytes)
                            (Js.bytesToHex nullifierBytes);
            nullifier := Js.bytesToHex nullifierBytes;
            secret := Js.bytesToHex secretBytes;
            amount := dr_amount request;
            token := Js.toUpperCase (dr_token request);
            timestamp := num_of_Z (W (S (S (S (S (S (S n)))))) Z DateNow) |}.
  split; [reflexivity|]. cbn [commitment depositNotes with_notes].
  split; [apply map_get_set|]. split; [reflexivity|].
  split.
  { intros Hfin. apply decode_encoded_note; cbn [amount timestamp];
      [exact Hfin | apply nfinite_of_Z]. }
  cbn [amount token secret nullifier dres_signature].
  repeat split;
    try (rewrite length_bytesToHex;
         unfold secretBytes, nullifierBytes;
         rewrite List.length_firstn, List.length_app, List.repeat_length; lia).
  exists blockhash, height. cbn [In]. auto 10.
Qed.

End DepositRuns.

Section NoteMap.

Context {NUM : JsNumber} {LAWS : JsNumberLaws NUM}.

Variable findProgramAddressSync : list (list byte) -> PublicKey -> option PublicKey.

Lemma note_of_raw_of_note (note : DepositNote) : note_of_raw (raw_of_note note) = Some note.
Proof. destruct note; reflexivity. Qed.

Lemma map_get_fresh {V : Type} (k : string) (m : list (string * V)) :
  map_get k m = None <-> ~ In k (map fst m).
Proof.
  induction m as [|[k' v'] m IH]; cbn [map_get map fst In]; [tauto|].
  destruct (String.eqb_spec k k') as [-> | Hne].
  - split; [discriminate | intros H; exfalso; apply H; now left].
  - rewrite IH. split; [intros H [E | I]; [congruence | tauto] | tauto].
Qed.

Lemma map_set_fresh {V : Type} (k : string) (v : V) (m : list (string * V)) :
  ~ In k (map fst m) -> map_set k v m = (m ++ [(k, v)])%list.
Proof.
  induction m as [|[k' v'] m IH]; cbn [map_set map fst In app]; [reflexivity|].
  intros H. destruct (String.eqb_spec k k') as [-> | Hne]; [tauto|].
  rewrite IH by tauto. reflexivity.
Qed.

Lemma import_encoded (note : DepositNote) (st : PrivacyCashAdapter) :
  nfinite (amount note) = true ->
  nfinite (timestamp note) = true ->
  importNote (encodeNote note) st
  = Ret (Ok note, with_notes st (map_set (commitment note) note (depositNotes st))).
Proof.
  intros Ha Ht. unfold importNote.
  rewrite (decode_encoded_note note Ha Ht), note_of_raw_of_note. reflexivity.
Qed.

Lemma import_all_rebuilds (st : PrivacyCashAdapter) (todo : list (string * DepositNote)) :
  forall done : list (string * DepositNote),
    keyed_by_commitment (done ++ todo) ->
    Forall (fun kv => nfinite (amount (snd kv)) = true
                      /\ nfinite (timestamp (snd kv)) = true) todo ->
    import_all (map encodeNote (map_values todo)) (with_notes st done)
    = Ret (Ok tt, with_notes st (done ++ todo)).
Proof.
  induction todo as [|[k note] todo IH]; intros done Hk Hf.
  - cbn. now rewrite List.app_nil_r.
  - cbn [map_values map snd import_all]. unfold bind.
    inversion Hf as [|? ? [Ha Ht] Hf']; subst. cbn [snd] in Ha, Ht.
    rewrite (import_encoded note _ Ha Ht). cbn [pbind fst snd with_notes depositNotes].
    destruct Hk as [Hnd Hall].
    assert (Ek : k = commitment note).
    { rewrite List.Forall_app in Hall. destruct Hall as [_ Hall].
      inversion Hall; subst. assumption. }
    assert (Hfresh : ~ In (commitment note) (map fst done)).
    { rewrite List.map_app in Hnd. cbn [map fst] in Hnd.
      apply List.NoDup_remove_2 in Hnd. rewrite <- Ek. intros I. apply Hnd.
      apply List.in_or_app. now left. }
    rewrite (map_set_fresh _ _ _ Hfresh).
    specialize (IH (done ++ [(k, note)])%list).
    rewrite <- List.app_assoc in IH. cbn [app] in IH.
    unfold with_notes in IH at 1. cbn [pc_base pc_programId pc_apiBaseUrl] in IH.
    rewrite <- Ek.
    replace (with_notes st (done ++ (k, note) :: todo))
      with (with_notes (with_notes st done) (done ++ (k, note) :: todo)) by reflexivity.
    apply IH; [split; assumption | assumption].
Qed.

(** X24. Notes travel between adapters as text.  [importNote] of the
    text [encodeNote] makes of a note with a finite amount and timestamp
    returns the note and keeps it under its commitment; and importing, in
    order, the texts [exportNotes] gives into an adapter that holds no
    note rebuilds the notes of the exporting adapter, in their order,
    when these are finite and kept under their commitments. *)
Theorem export_import_round_trip (st : PrivacyCashAdapter) :
  (forall note : DepositNote,
      nfinite (amount note) = true ->
      nfinite (timestamp note) = true ->
      importNote (encodeNote note) st
      = Ret (Ok note, with_notes st (map_set (commitment note) note (depositNotes st))))
  /\ (keyed_by_commitment (depositNotes st) ->
      Forall (fun kv => nfinite (amount (snd kv)) = true
                        /\ nfinite (timestamp (snd kv)) = true) (depositNotes st) ->
      import_all (exportNotes st) (with_notes st []) = Ret (Ok tt, st)).
Proof.
  split; [intros note; apply import_encoded|].
  intros Hk Hf. unfold exportNotes.
  rewrite (import_all_rebuilds st (depositNotes st) [] Hk Hf).
  destruct st; reflexivity.
Qed.

End NoteMap.

Section NoteInvariant.

Context {NUM : JsNumber}.

Variable findProgramAddressSync : list (list byte) -> PublicKey -> option PublicKey.

Lemma in_keys_map_set {V : Type} (k k0 : string) (v : V) (m : list (string * V)) :
  In k0 (map fst (map_set k v m)) <-> k0 = k \/ In k0 (map fst m).
Proof.
  induction m as [|[k' v'] m IH]; cbn [map_set map fst In]; [intuition congruence|].
  destruct (String.eqb_spec k k') as [-> | Hne]; cbn [map fst In].
  - intuition congruence.
  - rewrite IH. intuition congruence.
Qed.

Lemma in_keys_map_delete {V : Type} (k k0 : string) (m : list (string * V)) :
  In k0 (map fst (map_delete k m)) -> In k0 (map fst m).
Proof.
  induction m as [|[k' v'] m IH]; cbn [map_delete map fst In]; [tauto|].
  destruct (String.eqb_spec k k') as [-> | Hne]; cbn [map fst In]; tauto.
Qed.

Lemma keyed_map_set (note : DepositNote) (m : list (string * DepositNote)) :
  keyed_by_commitment m -> keyed_by_commitment (map_set (commitment note) note m).
Proof.
  intros [Hnd Hall]. split.
  - induction m as [|[k' v'] m IH]; cbn [map_set map fst].
    + constructor; [intros [] | constructor].
    + cbn [map fst] in Hnd. inversion Hnd as [|? ? Hnotin Hnd']; subst.
      inversion Hall as [|? ? _ Hall']; subst.
      destruct (String.eqb_spec (commitment note) k') as [-> | Hne]; cbn [map fst].
      * constructor; assumption.
      * constructor; [|apply IH; assumption].
        rewrite in_keys_map_set. intros [E | I]; [congruence | tauto].
  - induction m as [|[k' v'] m IH]; cbn [map_set].
    + constructor; [reflexivity | constructor].
    + inversion Hall as [|? ? Hk Hall']; subst.
      cbn [map fst] in Hnd. inversion Hnd; subst.
      destruct (String.eqb (commitment note) k'); constructor; auto.
Qed.

Lemma keyed_map_delete (k : string) (m : list (string * DepositNote)) :
  keyed_by_commitment m -> keyed_by_commitment (map_delete k m).
Proof.
  intros [Hnd Hall]. split.
  - induction m as [|[k' v'] m IH]; cbn [map_delete map fst]; [constructor|].
    cbn [map fst] in Hnd. inversion Hnd as [|? ? Hnotin Hnd']; subst.
    inversion Hall; subst.
    destruct (String.eqb k k'); cbn [map fst]; [assumption|].
    constructor; [|apply IH; assumption].
    intros I. apply Hnotin. eapply in_keys_map_delete. exact I.
  - induction m as [|[k' v'] m IH]; cbn [map_delete]; [constructor|].
    inversion Hall; subst. cbn [map fst] in Hnd. inversion Hnd; subst.
    destruct (String.eqb k k'); [assumption | constructor; auto].
Qed.

(** A postcondition on the state alone passes through [bind]. *)
Lemma every_run_state_bind {S A B : Type} (m : M S A) (f : A -> M S B) (s : S)
    (P : S -> Prop) :
  every_run m s (fun _ s' _ => P s') ->
  (forall a s', P s' -> every_run (f a) s' (fun _ s'' _ => P s'')) ->
  every_run (bind m f) s (fun _ s'' _ => P s'').
Proof.
  intros Hm Hf. apply every_run_bind. intros w n. pose proof (Hm w n) as H.
  destruct (result_of w n m s); auto.
Qed.

Lemma every_run_state_try {S A : Type} (m : M S A) (h : error -> M S A) (s : S)
    (P : S -> Prop) :
  every_run m s (fun _ s' _ => P s') ->
  (forall e s', P s' -> every_run (h e) s' (fun _ s'' _ => P s'')) ->
  every_run (try_catch m h) s (fun _ s'' _ => P s'').
Proof.
  intros Hm Hh. apply every_run_try_catch. intros w n. pose proof (Hm w n) as H.
  destruct (result_of w n m s); auto.
Qed.

Lemma every_run_state_kept {S A : Type} (m : M S A) (s : S) (P : S -> Prop) :
  keeps m -> P s -> every_run m s (fun _ s' _ => P s').
Proof. intros Hk Hp w n. now rewrite (Hk s w n). Qed.

Lemma keyed_deposit (request : DepositRequest) (st : PrivacyCashAdapter) :
  keyed_by_commitment (depositNotes st) ->
  every_run (pc_deposit findProgramAddressSync request) st (fun _ st' _ => keyed_by_commitment (depositNotes st')).
Proof.
  intros Hk. unfold pc_deposit.
  apply every_run_state_bind; [apply every_run_state_kept; [apply keeps_ensureReady | exact Hk]|].
  clear st Hk. intros _ st Hk.
  apply every_run_state_bind; [apply every_run_state_kept; [apply keeps_ensureWallet | exact Hk]|].
  clear st Hk. intros w st Hk.
  apply every_run_state_bind; [apply every_run_state_kept; [apply keeps_getConnection | exact Hk]|].
  clear st Hk. intros _ st Hk.
  cbv zeta. destruct (own_property _ _) as [poolConfig|]; [|apply every_run_throw; exact Hk].
  destruct (nltb _ _); [apply every_run_throw; exact Hk|].
  destruct (nltb _ _); [apply every_run_throw; exact Hk|].
  apply every_run_state_try; [|intros e s' Hs; apply every_run_throw; exact Hs].
  apply every_run_state_bind; [apply every_run_state_kept; [apply keeps_randomBytes | exact Hk]|].
  clear st Hk. intros secretBytes st Hk.
  apply every_run_state_bind; [apply every_run_state_kept; [apply keeps_randomBytes | exact Hk]|].
  clear st Hk. intros nullifierBytes st Hk.
  apply every_run_state_bind; [apply every_run_state_kept; [apply keeps_get | exact Hk]|].
  clear st Hk. intros st0 st Hk.
  apply every_run_state_bind; [apply every_run_state_kept; [apply keeps_of_sum | exact Hk]|].
  clear st Hk. intros ix st Hk.
  apply every_run_state_bind;
    [apply every_run_state_kept; [apply keeps_send_and_confirm | exact Hk]|].
  clear st Hk. intros signature st Hk.
  apply every_run_state_bind; [apply every_run_state_kept; [apply keeps_perform | exact Hk]|].
  clear st Hk. intros now st Hk.
  apply every_run_bind, every_run_get. apply every_run_bind, every_run_put.
  apply every_run_ret. cbn [depositNotes with_notes].
  match goal with
  | |- keyed_by_commitment (map_set ?c ?note _) =>
      change c with (commitment note); apply keyed_map_set
  end.
  exact Hk.
Qed.

Lemma keyed_withdraw (request : WithdrawRequest) (st : PrivacyCashAdapter) :
  keyed_by_commitment (depositNotes st) ->
  every_run (pc_withdraw findProgramAddressSync request) st (fun _ st' _ => keyed_by_commitment (depositNotes st')).
Proof.
  intros Hk. unfold pc_withdraw.
  apply every_run_state_bind; [apply every_run_state_kept; [apply keeps_ensureReady | exact Hk]|].
  clear st Hk. intros _ st Hk.
  apply every_run_state_bind; [apply every_run_state_kept; [apply keeps_ensureWallet | exact Hk]|].
  clear st Hk. intros w st Hk.
  apply every_run_state_bind; [apply every_run_state_kept; [apply keeps_getConnection | exact Hk]|].
  clear st Hk. intros _ st Hk.
  destruct (wr_commitment request) as [[|c r]|]; try (apply every_run_throw; exact Hk).
  destruct (decodeNote _) as [raw|]; [|apply every_run_throw; exact Hk].
  destruct (note_of_raw raw) as [note|]; [|apply every_run_out; exact Hk].
  cbv zeta.
  assert (G : every_run
                (bind (recipient_key (wr_recipient request)) (fun recipient =>
                   try_catch
                     (pc_withdraw_body findProgramAddressSync w note
                        (own_property POOL_CONFIGS (token note)) recipient)
                     (fun e => throw (wrapError e "Privacy Cash withdrawal failed"))))
                st (fun _ st' _ => keyed_by_commitment (depositNotes st'))).
  { eapply every_run_weaken; [apply withdraw_try_runs|].
    intros o st' tr H. unfold withdrawn in H.
    destruct o as [r0 | e | why]; [destruct H as [-> _] | subst st' | subst st']; try exact Hk.
    cbn [depositNotes with_notes]. apply keyed_map_delete. exact Hk. }
  destruct (own_property POOL_CONFIGS (token note)) as [cfg|];
    [exact G | destruct (inherited_property (token note));
               [exact G | apply every_run_throw; exact Hk]].
Qed.

(** X25. The notes of a Privacy Cash adapter stay kept under their own
    commitments, no commitment twice: however [deposit], [withdraw],
    [transfer] or [importNote] ends, an adapter whose notes were so kept
    before has them so kept after. *)
Theorem notes_stay_keyed (st : PrivacyCashAdapter) :
  keyed_by_commitment (depositNotes st) ->
  (forall request,
      every_run (pc_deposit findProgramAddressSync request) st
        (fun _ st' _ => keyed_by_commitment (depositNotes st')))
  /\ (forall request,
        every_run (pc_withdraw findProgramAddressSync request) st
          (fun _ st' _ => keyed_by_commitment (depositNotes st')))
  /\ (forall request,
        every_run (pc_transfer findProgramAddressSync request) st
          (fun _ st' _ => keyed_by_commitment (depositNotes st')))
  /\ (forall text,
        every_run (importNote text) st
          (fun _ st' _ => keyed_by_commitment (depositNotes st'))).
Proof.
  intros Hk. split; [|split; [|split]].
  - intros request. apply keyed_deposit. exact Hk.
  - intros request. apply keyed_withdraw. exact Hk.
  - intros request. unfold pc_transfer.
    apply (every_run_state_bind _ _ _ (fun s => keyed_by_commitment (depositNotes s)));
      [apply every_run_state_kept; [apply keeps_ensureReady | exact Hk]|].
    intros _ s1 H1.
    apply (every_run_state_bind _ _ _ (fun s => keyed_by_commitment (depositNotes s))); [apply keyed_deposit; exact H1|].
    intros d s2 H2.
    apply (every_run_state_bind _ _ _ (fun s => keyed_by_commitment (depositNotes s))); [apply keyed_withdraw; exact H2|].
    intros r s3 H3. apply every_run_ret. exact H3.
  - intros text. unfold importNote.
    destruct (decodeNote text) as [raw|]; [|apply every_run_throw; exact Hk].
    destruct (note_of_raw raw) as [note|]; [|apply every_run_out; exact Hk].
    apply every_run_bind, every_run_get. apply every_run_bind, every_run_put.
    apply every_run_ret. cbn [depositNotes with_notes]. apply keyed_map_set. exact Hk.
Qed.

End NoteInvariant.

Section PoolFacts.

Context {NUM : JsNumber}.

Variable findProgramAddressSync : list (list byte) -> PublicKey -> option PublicKey.

(** X26. A note kept under a commitment that was not there adds to the
    balance of its token and to no other: after [deposit] or [importNote]
    has kept such a note, [getBalance] of a token gives the former
    balance plus the amount of the note when the token is the note's, and
    the former balance otherwise. *)
Theorem balance_after_new_note (requested : string) (st : PrivacyCashAdapter)
    (note : DepositNote) (balance : num) :
  pc_getBalance requested st = Ret (Ok balance, st) ->
  map_get (commitment note) (depositNotes st) = None ->
  let st' := with_notes st (map_set (commitment note) note (depositNotes st)) in
  pc_getBalance requested st'
  = Ret (Ok (if String.eqb (token note) (Js.toUpperCase requested)
             then nadd balance (amount note)
             else balance), st').
Proof.
  intros Hb Hfresh st'. apply map_get_fresh in Hfresh.
  revert Hb. unfold pc_getBalance, bind, ensureReady. subst st'. cbn [pc_base with_notes].
  destruct (initialized (pc_base st)); crunch; [|discriminate].
  destruct (own_property POOL_CONFIGS _); [|discriminate].
  unfold get_state. crunch. cbn [depositNotes].
  intros [= <-]. rewrite (map_set_fresh _ _ _ Hfresh).
  unfold map_values, ret. cbn [depositNotes with_notes].
  rewrite List.map_app, List.fold_left_app. cbn [map snd fold_left].
  destruct (String.eqb (token note) (Js.toUpperCase requested)); reflexivity.
Qed.

(** X27. What [withdraw] of the Privacy Cash adapter refuses before any
    request, on a ready adapter with a wallet and a connection: a request
    with no commitment, or the empty one; a commitment that does not
    decode; and a note whose token, looked up as it stands, is neither a
    pool nor a name that every object inherits.  A token with a
    lower-case letter is no pool, so [sol] is refused; but for an
    inherited name, such as [constructor], the check passes, and the
    first request of the withdrawal, the GET for the Merkle proof, is
    made.  A refusal leaves the adapter as it was. *)
Theorem withdraw_refusals (request : WithdrawRequest) (st : PrivacyCashAdapter)
    (w : WalletAdapter) :
  initialized (pc_base st) = true ->
  wallet (pc_base st) = Some w ->
  connected (pc_base st) = true ->
  (Js.opt_str_or (wr_commitment request) EmptyString = EmptyString ->
     pc_withdraw findProgramAddressSync request st
     = Ret (Thrown (JsError "Deposit note (commitment) required for withdrawal"), st))
  /\ (forall text,
        wr_commitment request = Some text ->
        text <> EmptyString ->
        decodeNote text = None ->
        pc_withdraw findProgramAddressSync request st
        = Ret (Thrown (JsError "Invalid deposit note format"), st))
  /\ (forall text note,
        wr_commitment request = Some text ->
        text <> EmptyString ->
        decodeNote text = Some (raw_of_note note) ->
        own_property POOL_CONFIGS (token note) = None ->
        inherited_property (token note) = false ->
        pc_withdraw findProgramAddressSync request st
        = Ret (Thrown (JsError ("Token " ++ token note ++ " not supported")), st))
  /\ (forall note,
        Js.has_lower (token note) = true ->
        own_property POOL_CONFIGS (token note) = None)
  /\ (forall text note recipient W n,
        wr_commitment request = Some text ->
        text <> EmptyString ->
        decodeNote text = Some (raw_of_note note) ->
        inherited_property (token note) = true ->
        wr_recipient request = inr recipient ->
        hd_error (kinds (trace_of W n (pc_withdraw findProgramAddressSync request) st))
        = Some (KFetch "GET"
                  (pc_apiBaseUrl st ++ "/v1/proof/" ++ token note ++ "/" ++ commitment note))).
Proof.
  intros Hi Hw Hc.
  assert (E : forall k : WalletAdapter -> PC WithdrawResult,
             bind (ensureReady pc_base PRIVACY_CASH) (fun _ =>
               bind (ensureWallet pc_base) (fun w0 =>
                 bind (getConnection pc_base) (fun _ => k w0))) st
             = k w st).
  { intros k. unfold bind, ensureReady, ensureWallet, getConnection.
    rewrite Hi. crunch. rewrite Hw. crunch. rewrite Hc. crunch. reflexivity. }
  unfold pc_withdraw.
  split; [|split; [|split; [|split]]].
  - intros He. rewrite E.
    destruct (wr_commitment request) as [[|c r]|]; try reflexivity. discriminate He.
  - intros text Ht Hne Hd. rewrite E, Ht.
    destruct text as [|c r]; [congruence|]. rewrite Hd. reflexivity.
  - intros text note Ht Hne Hd Hp Hin. rewrite E, Ht.
    destruct text as [|c r]; [congruence|]. rewrite Hd.
    replace (note_of_raw (raw_of_note note)) with (Some note) by (destruct note; reflexivity).
    cbv zeta. rewrite Hp, Hin. reflexivity.
  - intros note Hl.
    unfold POOL_CONFIGS. cbn [own_property].
    destruct (String.eqb_spec (token note) "SOL") as [E1 | _];
      [rewrite E1 in Hl; discriminate Hl|].
    destruct (String.eqb_spec (token note) "USDC") as [E2 | _];
      [rewrite E2 in Hl; discriminate Hl | reflexivity].
  - intros text note recipient W n Ht Hne Hd Hin Hrec.
    unfold trace_of. rewrite E, Ht.
    destruct text as [|c r]; [congruence|]. rewrite Hd.
    replace (note_of_raw (raw_of_note note)) with (Some note) by (destruct note; reflexivity).
    cbv zeta. rewrite Hin, Hrec.
    assert (G : forall poolConfig,
               hd_error (kinds (snd (run W n
                 (bind (recipient_key (inr recipient)) (fun recipient0 =>
                    try_catch
                      (pc_withdraw_body findProgramAddressSync w note poolConfig recipient0)
                      (fun e => throw (wrapError e "Privacy Cash withdrawal failed"))) st))))
               = Some (KFetch "GET"
                         (pc_apiBaseUrl st ++ "/v1/proof/" ++ token note ++ "/"
                            ++ commitment note))).
    { intros poolConfig.
      unfold bind, try_catch, pc_withdraw_body, getMerkleProof, bind, get_state, perform.
      cbn [recipient_key]. crunch. reflexivity. }
    destruct (own_property POOL_CONFIGS (token note)); apply G.
Qed.

End PoolFacts.

Section DepositInstruction.

Context {NUM : JsNumber}.

Variable findProgramAddressSync : list (list byte) -> PublicKey -> option PublicKey.

Lemma computeCommitment_of_hex (secretBytes nullifierBytes : list byte) :
  computeCommitment (Js.bytesToHex secretBytes) (Js.bytesToHex nullifierBytes)
  = Js.bytesToHex (firstn 32 (secretBytes ++ nullifierBytes)).
Proof.
  unfold computeCommitment, Js.slice. cbn [Js.str_drop Nat.sub].
  rewrite <- bytesToHex_app.
  change 64 with (2 * 32). rewrite str_take_bytesToHex.
  now rewrite hexToBytes_bytesToHex.
Qed.

(** X28. The instruction of a [deposit] publishes the secret of the note.
    For a secret and a nullifier of 31 bytes, as [deposit] draws them, an
    amount with a u64 of base units and a pool address, the data of
    [createDepositInstruction] for their commitment is the byte 0x01, the
    31 bytes of the secret, the first byte of the nullifier, and the
    amount in 8 little-endian bytes. *)
Theorem deposit_instruction_layout (programId depositor : PublicKey)
    (secretBytes nullifierBytes : list byte) (amount : num) (poolConfig : PoolConfig)
    (poolPda : PublicKey) (units : Z) :
  List.length secretBytes = 31 ->
  List.length nullifierBytes = 31 ->
  base_units amount (num_of_Z (10 ^ decimals poolConfig)) = Some units ->
  findProgramAddressSync [Js.buffer_of_string "pool"; mint poolConfig] programId
  = Some poolPda ->
  createDepositInstruction findProgramAddressSync programId depositor
    (computeCommitment (Js.bytesToHex secretBytes) (Js.bytesToHex nullifierBytes))
    amount poolConfig
  = inr {| ix_programId := programId;
           ix_keys :=
             [ {| pubkey := depositor; isSigner := true; isWritable := true |};
               {| pubkey := poolPda; isSigner := false; isWritable := true |};
               {| pubkey := mint poolConfig; isSigner := false; isWritable := false |};
               {| pubkey := SystemProgram_programId; isSigner := false;
                  isWritable := false |} ];
           ix_data :=
             ([x01] ++ secretBytes ++ firstn 1 nullifierBytes ++ Js.le_bytes 8 units)%list |}.
Proof.
  intros Hs Hn Hu Hp.
  apply base_units_range in Hu as [Hf Hr].
  unfold createDepositInstruction. cbn zeta.
  rewrite computeCommitment_of_hex, hexToBytes_bytesToHex, Hf, Hp.
  unfold Js.writeBigUInt64LE.
  assert (R : ((0 <=? units)%Z && (units <? 2 ^ 64)%Z) = true).
  { apply andb_true_intro; split; [apply Z.leb_le | apply Z.ltb_lt]; lia. }
  rewrite R. do 2 f_equal.
  rewrite List.firstn_app, Hs. rewrite List.firstn_all2 by lia.
  change (32 - 31) with 1.
  set (c := (secretBytes ++ firstn 1 nullifierBytes)%list).
  assert (Hc : List.length c = 32).
  { unfold c. rewrite List.length_app, List.length_firstn, Hs, Hn. reflexivity. }
  unfold Js.buffer_alloc, Js.writeUInt8.
  change (1 + 32 + 8) with (1 + (32 + 8)). rewrite !List.repeat_app.
  rewrite (buffer_copy_at [x01] [] (repeat x00 1) _ 0 eq_refl eq_refl
           : Js.buffer_copy [x01] (repeat x00 1 ++ (repeat x00 32 ++ repeat x00 8))%list 0
             = ([x01] ++ (repeat x00 32 ++ repeat x00 8))%list).
  rewrite (buffer_copy_at c [x01] (repeat x00 32) _ 1)
    by (rewrite ?List.repeat_length, ?Hc; cbn [List.length]; lia).
  rewrite (List.app_assoc [x01] c).
  rewrite <- (List.app_nil_r (repeat x00 8)).
  rewrite (buffer_copy_at (Js.le_bytes 8 units) _ (repeat x00 8) [] 33)
    by (rewrite ?List.length_app, ?List.repeat_length, ?length_le_bytes, ?Hc;
        cbn [List.length]; lia).
  unfold c. now rewrite List.app_nil_r, <- !List.app_assoc.
Qed.

End DepositInstruction.

Section PoolFees.

Context {NUM : JsNumber} {LAWS : JsNumberLaws NUM}.

Variable findProgramAddressSync : list (list byte) -> PublicKey -> option PublicKey.

Lemma returns_bind_with {S A B : Type} (m : M S A) (f : A -> M S B) (P : A -> Prop)
    (Q : B -> Prop) :
  returns_only m P -> (forall a, P a -> returns_only (f a) Q) -> returns_only (bind m f) Q.
Proof.
  intros Hm Hf s. apply every_run_bind. intros w n. pose proof (Hm s w n) as H.
  destruct (result_of w n m s) as [a | e | why]; try exact I.
  eapply every_run_weaken; [apply (Hf a H)|]. intros o s' tr H'; exact H'.
Qed.

Lemma pc_deposit_returns (request : DepositRequest) :
  returns_only (pc_deposit findProgramAddressSync request) (fun d =>
    (exists cfg, own_property POOL_CONFIGS (Js.toUpperCase (dr_token request)) = Some cfg)
    /\ dres_fee d = nmul (lit 5 3) (dr_amount request)
    /\ exists note,
         dres_commitment d = Some (encodeNote note)
         /\ amount note = dr_amount request
         /\ exists z, timestamp note = num_of_Z z).
Proof.
  unfold pc_deposit. apply returns_bind; intros _. apply returns_bind; intros w.
  apply returns_bind; intros _.
  cbv zeta. destruct (own_property _ _) as [cfg|] eqn:Ht; [|apply returns_throw].
  destruct (nltb _ _); [apply returns_throw|].
  destruct (nltb _ _); [apply returns_throw|].
  apply returns_try_catch; [|intros e; apply returns_throw].
  apply returns_bind; intros secretBytes. apply returns_bind; intros nullifierBytes.
  apply returns_bind; intros st0. apply returns_bind; intros ix.
  apply returns_bind; intros signature. apply returns_bind; intros now.
  apply returns_bind; intros st1. apply returns_bind; intros _.
  apply returns_ret. split; [eauto|]. split; [reflexivity|].
  eexists. split; [reflexivity|]. cbn [amount timestamp]. eauto.
Qed.

Lemma pc_withdraw_returns (request : WithdrawRequest) :
  returns_only (pc_withdraw findProgramAddressSync request) (fun r =>
    exists text raw note,
      wr_commitment request = Some text
      /\ decodeNote text = Some raw
      /\ note_of_raw raw = Some note
      /\ wres_fee r = nmul (lit 5 3) (amount note)).
Proof.
  unfold pc_withdraw. apply returns_bind; intros _. apply returns_bind; intros w.
  apply returns_bind; intros _.
  destruct (wr_commitment request) as [[|c r]|] eqn:Hc; try apply returns_throw.
  destruct (decodeNote _) as [raw|] eqn:Hd; [|apply returns_throw].
  destruct (note_of_raw raw) as [note|] eqn:Hn; [|apply returns_out].
  cbv zeta.
  assert (G : returns_only
                (bind (recipient_key (wr_recipient request)) (fun recipient =>
                   try_catch
                     (pc_withdraw_body findProgramAddressSync w note
                        (own_property POOL_CONFIGS (token note)) recipient)
                     (fun e => throw (wrapError e "Privacy Cash withdrawal failed"))))
                (fun r0 =>
                   exists text raw0 note0,
                     Some (String c r) = Some text
                     /\ decodeNote text = Some raw0
                     /\ note_of_raw raw0 = Some note0
                     /\ wres_fee r0 = nmul (lit 5 3) (amount note0))).
  { apply returns_bind; intros recipient.
    apply returns_try_catch; [|intros e; apply returns_throw].
    unfold pc_withdraw_body.
    apply returns_bind; intros merkleProof. apply returns_bind; intros zkProof.
    apply returns_bind; intros st0. apply returns_bind; intros ix.
    apply returns_bind; intros signature. apply returns_bind; intros st1.
    apply returns_bind; intros _. apply returns_ret.
    exists (String c r), raw, note. auto. }
  destruct (own_property POOL_CONFIGS (token note)) as [cfg|];
    [exact G | destruct (inherited_property (token note)); [exact G | apply returns_throw]].
Qed.

Lemma pc_estimate_fee (operation : option Operation) (amount : num) (token : string)
    (cfg : PoolConfig) :
  own_property POOL_CONFIGS (Js.toUpperCase token) = Some cfg ->
  ntruthy amount = true ->
  eres_fee (pc_estimate {| er_operation := operation; er_amount := Some amount;
                           er_token := Some token; er_privacy := None |})
  = match operation with
    | Some OpTransfer => nmul (nmul amount (lit 5 3)) (num_of_Z 2)
    | _ => nmul amount (lit 5 3)
    end.
Proof.
  intros Ht Ha. unfold pc_estimate. cbn [er_token er_amount er_operation].
  rewrite (estimate_token_supported _ _ _ Ht eq_refl), Ht.
  cbn [eres_fee amount_or_zero]. rewrite Ha. destruct operation as [[]|]; reflexivity.
Qed.

(** X29. Multiplication being commutative and twice a number being the
    number added to itself, the fees the Privacy Cash adapter reports are
    those [estimate] gives when asked with the same token and amount: a
    [deposit] that succeeds reports the estimate of a deposit, and a
    [transfer] of a finite amount, whose fee is the sum of the fees of its
    deposit and its withdrawal, reports the estimate of a transfer.  A
    [withdraw] reports 0.005 times the amount of the note it was given,
    whatever amount the request names. *)
Theorem pool_fee_is_estimated (W : world) (n : nat) (st : PrivacyCashAdapter) :
  (forall a b : num, nmul a b = nmul b a) ->
  (forall a : num, nmul a (num_of_Z 2) = nadd a a) ->
  (forall (request : DepositRequest) (d : DepositResult),
      result_of W n (pc_deposit findProgramAddressSync request) st = Ok d ->
      ntruthy (dr_amount request) = true ->
      dres_fee d
      = eres_fee (pc_estimate {| er_operation := Some OpDeposit;
                                 er_amount := Some (dr_amount request);
                                 er_token := Some (dr_token request);
                                 er_privacy := None |}))
  /\ (forall (request : TransferRequest) (r : TransferResult),
        result_of W n (pc_transfer findProgramAddressSync request) st = Ok r ->
        ntruthy (tr_amount request) = true ->
        nfinite (tr_amount request) = true ->
        tres_fee r
        = eres_fee (pc_estimate {| er_operation := Some OpTransfer;
                                   er_amount := Some (tr_amount request);
                                   er_token := Some (tr_token request);
                                   er_privacy := None |}))
  /\ (forall (request : WithdrawRequest) (r : WithdrawResult),
        result_of W n (pc_withdraw findProgramAddressSync request) st = Ok r ->
        exists text raw note,
          wr_commitment request = Some text
          /\ decodeNote text = Some raw
          /\ note_of_raw raw = Some note
          /\ wres_fee r = nmul (lit 5 3) (amount note)).
Proof.
  intros Hcomm Hdouble. split; [|split].
  - intros request d Hres Ha.
    pose proof (pc_deposit_returns request st W n) as H. cbv beta in H. rewrite Hres in H.
    destruct H as ((cfg & Ht) & -> & _). rewrite (pc_estimate_fee _ _ _ _ Ht Ha). apply Hcomm.
  - intros request r Hres Ha Hfin.
    assert (T : returns_only (pc_transfer findProgramAddressSync request) (fun r0 =>
                  (exists cfg, own_property POOL_CONFIGS (Js.toUpperCase (tr_token request))
                               = Some cfg)
                  /\ tres_fee r0
                     = nadd (nmul (lit 5 3) (tr_amount request))
                         (nmul (lit 5 3) (tr_amount request)))).
    { unfold pc_transfer. apply returns_bind; intros _.
      eapply returns_bind_with; [apply pc_deposit_returns|].
      cbn [dr_amount dr_token].
      intros d ((cfg & Ht) & Hfee & note & Hc & Hamount & z & Hts).
      eapply returns_bind_with; [apply pc_withdraw_returns|].
      cbn [wr_commitment].
      intros wres (text & raw & note' & Hc' & Hd & Hn & Hfee').
      apply returns_ret. split; [eauto|]. cbn [tres_fee].
      rewrite Hfee, Hfee'. do 2 f_equal.
      rewrite Hc in Hc'. injection Hc' as <-.
      assert (Hdec : decodeNote (encodeNote note) = Some (raw_of_note note)).
      { unfold decodeNote, encodeNote.
        rewrite decode_encode. unfold Js.string_of_buffer, Js.buffer_of_string.
        rewrite string_of_list_byte_of_string, parse_note_text; [reflexivity | |].
        - now rewrite Hamount.
        - rewrite Hts. apply nfinite_of_Z. }
      rewrite Hdec in Hd. injection Hd as <-.
      replace (note_of_raw (raw_of_note note)) with (Some note) in Hn
        by (destruct note; reflexivity).
      injection Hn as <-. now rewrite Hamount. }
    pose proof (T st W n) as H. cbv beta in H. rewrite Hres in H.
    destruct H as ((cfg & Ht) & ->). rewrite (pc_estimate_fee _ _ _ _ Ht Ha).
    rewrite Hdouble. now rewrite (Hcomm (tr_amount request)).
  - intros request r Hres.
    pose proof (pc_withdraw_returns request st W n) as H. cbv beta in H. rewrite Hres in H.
    exact H.
Qed.

End PoolFees.

(* ================================================================== *)
(** * Runs of the Privacy Cash adapter in decimal arithmetic *)
(* ================================================================== *)

Lemma Dec_mul_two (a : Dec.t) : Dec.mul a (Dec.of_Z 2) = Dec.add a a.
Proof.
  unfold Dec.mul, Dec.add. rewrite Nat.max_id, Nat.sub_diag.
  change (Dec.scale (Dec.of_Z 2)) with 0. change (Dec.mantissa (Dec.of_Z 2)) with 2%Z.
  rewrite Nat.add_0_r. f_equal. cbn [Z.of_nat Z.pow]. lia.
Qed.

Section PoolMoreInstances.

#[local] Existing Instance DecNumber.

Lemma deposit_stores_note_when_confirmed_witness :
  result_of ex_offline 0 (pc_deposit ex_pda ex_pool_deposit) ex_empty
  = Ok {| dres_signature := "sig"; dres_provider := PRIVACY_CASH;
          dres_commitment := Some (encodeNote ex_made);
          dres_fee := nmul (lit 5 3) (num_of_Z 5) |}
  /\ exists note,
       depositNotes (state_after ex_offline 0 (pc_deposit ex_pda ex_pool_deposit) ex_empty)
       = [(commitment note, note)]
       /\ amount note = num_of_Z 5
       /\ decodeNote (encodeNote note) = Some (raw_of_note note).
Proof.
  assert (E : result_of ex_offline 0 (pc_deposit ex_pda ex_pool_deposit) ex_empty
              = Ok {| dres_signature := "sig"; dres_provider := PRIVACY_CASH;
                      dres_commitment := Some (encodeNote ex_made);
                      dres_fee := nmul (lit 5 3) (num_of_Z 5) |}) by reflexivity.
  split; [exact E|].
  pose proof (deposit_stores_note_when_confirmed (LAWS := DecNumber_laws) ex_pda
                ex_pool_deposit ex_empty ex_offline 0) as H.
  cbv beta in H. rewrite E in H.
  destruct H as (note & Hst & _ & _ & Hd & Ha & _).
  exists note. rewrite Hst.
  refine (conj eq_refl (conj Ha (Hd eq_refl))).
Defined.

Lemma export_import_round_trip_witness :
  keyed_by_commitment (depositNotes ex_pc)
  /\ exportNotes ex_pc
     = [encodeNote (ex_note "c1" 5 "SOL"); encodeNote (ex_note "c2" 20 "USDC");
        encodeNote (ex_note "c3" 3 "SOL")]
  /\ import_all (exportNotes ex_pc) (with_notes ex_pc []) = Ret (Ok tt, ex_pc).
Proof.
  assert (K : keyed_by_commitment (depositNotes ex_pc)).
  { split.
    - repeat constructor; cbn; intuition discriminate.
    - repeat constructor. }
  refine (conj K (conj eq_refl _)).
  apply (proj2 (export_import_round_trip (LAWS := DecNumber_laws) ex_pc) K).
  repeat constructor.
Defined.

Lemma notes_stay_keyed_witness :
  keyed_by_commitment (depositNotes ex_holding)
  /\ keyed_by_commitment
       (depositNotes (state_after ex_offline 0 (pc_deposit ex_pda ex_pool_deposit) ex_holding)).
Proof.
  assert (K : keyed_by_commitment (depositNotes ex_holding)).
  { split; repeat constructor. intros []. }
  split; [exact K|].
  exact (proj1 (notes_stay_keyed ex_pda ex_holding K) ex_pool_deposit ex_offline 0).
Defined.

Lemma balance_after_new_note_witness :
  pc_getBalance "sol" ex_pc = Ret (Ok (num_of_Z 8), ex_pc)
  /\ map_get (commitment ex_made) (depositNotes ex_pc) = None
  /\ pc_getBalance "sol"
       (with_notes ex_pc (map_set (commitment ex_made) ex_made (depositNotes ex_pc)))
     = Ret (Ok (nadd (num_of_Z 8) (num_of_Z 5)),
            with_notes ex_pc (map_set (commitment ex_made) ex_made (depositNotes ex_pc)))
  /\ pc_getBalance "usdc"
       (with_notes ex_pc (map_set (commitment ex_made) ex_made (depositNotes ex_pc)))
     = Ret (Ok (num_of_Z 20),
            with_notes ex_pc (map_set (commitment ex_made) ex_made (depositNotes ex_pc))).
Proof.
  refine (conj eq_refl (conj eq_refl (conj _ _))).
  - exact (balance_after_new_note "sol" ex_pc ex_made (num_of_Z 8) eq_refl eq_refl).
  - exact (balance_after_new_note "usdc" ex_pc ex_made (num_of_Z 20) eq_refl eq_refl).
Defined.

Lemma withdraw_refusals_witness :
  decodeNote "!" = None
  /\ pc_withdraw ex_pda
       {| wr_amount := num_of_Z 5; wr_token := "SOL"; wr_recipient := inr ex_recipient;
          wr_commitment := Some "!" |} ex_pc
     = Ret (Thrown (JsError "Invalid deposit note format"), ex_pc)
  /\ pc_withdraw ex_pda
       {| wr_amount := num_of_Z 5; wr_token := "SOL"; wr_recipient := inr ex_recipient;
          wr_commitment := Some (encodeNote ex_lower) |} ex_pc
     = Ret (Thrown (JsError "Token sol not supported"), ex_pc)
  /\ Js.has_lower (token ex_inherited) = true
  /\ inherited_property (token ex_inherited) = true
  /\ hd_error (kinds (trace_of ex_offline 0
                        (pc_withdraw ex_pda
                           {| wr_amount := num_of_Z 5; wr_token := "SOL";
                              wr_recipient := inr ex_recipient;
                              wr_commitment := Some (encodeNote ex_inherited) |}) ex_pc))
     = Some (KFetch "GET" "https://api.example/v1/proof/constructor/c8").
Proof.
  split; [reflexivity|]. split; [|split; [|split; [reflexivity | split; [reflexivity|]]]].
  - refine (proj1 (proj2 (withdraw_refusals ex_pda
               {| wr_amount := num_of_Z 5; wr_token := "SOL"; wr_recipient := inr ex_recipient;
                  wr_commitment := Some "!" |} ex_pc ex_wallet eq_refl eq_refl eq_refl))
             "!" eq_refl _ eq_refl).
    discriminate.
  - refine (proj1 (proj2 (proj2
             (withdraw_refusals ex_pda
                {| wr_amount := num_of_Z 5; wr_token := "SOL"; wr_recipient := inr ex_recipient;
                   wr_commitment := Some (encodeNote ex_lower) |}
                ex_pc ex_wallet eq_refl eq_refl eq_refl)))
             (encodeNote ex_lower) ex_lower eq_refl _ eq_refl eq_refl eq_refl).
    discriminate.
  - refine (proj2 (proj2 (proj2 (proj2
             (withdraw_refusals ex_pda
                {| wr_amount := num_of_Z 5; wr_token := "SOL"; wr_recipient := inr ex_recipient;
                   wr_commitment := Some (encodeNote ex_inherited) |}
                ex_pc ex_wallet eq_refl eq_refl eq_refl))))
             (encodeNote ex_inherited) ex_inherited ex_recipient ex_offline 0
             eq_refl _ eq_refl eq_refl eq_refl).
    discriminate.
Defined.

Lemma deposit_instruction_layout_witness :
  base_units (num_of_Z 5) (num_of_Z (10 ^ decimals ex_pool)) = Some 5000000000%Z
  /\ option_map ix_data
       (match createDepositInstruction ex_pda ex_program (publicKey ex_wallet)
                (computeCommitment (Js.bytesToHex (repeat x0c 31))
                   (Js.bytesToHex (repeat x0b 31)))
                (num_of_Z 5) ex_pool with
        | inr ix => Some ix
        | inl _ => None
        end)
     = Some ([x01] ++ repeat x0c 31 ++ [x0b] ++ Js.le_bytes 8 5000000000)%list.
Proof.
  split; [vm_compute; reflexivity|].
  rewrite (deposit_instruction_layout ex_pda ex_program (publicKey ex_wallet)
             (repeat x0c 31) (repeat x0b 31) (num_of_Z 5) ex_pool
             (Js.buffer_of_string "pool" ++ repeat x05 28)%list 5000000000
             eq_refl eq_refl ltac:(vm_compute; reflexivity) eq_refl).
  reflexivity.
Defined.

Lemma pool_fee_is_estimated_witness :
  result_of ex_offline 0 (pc_transfer ex_pda ex_pool_transfer) ex_empty
  = Ok {| tres_signature := "sig"; tres_provider := PRIVACY_CASH;
          tres_privacyLevel := COMPLIANT_POOL;
          tres_fee := nadd (nmul (lit 5 3) (num_of_Z 5)) (nmul (lit 5 3) (num_of_Z 5));
          tres_anonymitySet := Some (lit 500 0) |}
  /\ nadd (nmul (lit 5 3) (num_of_Z 5)) (nmul (lit 5 3) (num_of_Z 5))
     = eres_fee (pc_estimate {| er_operation := Some OpTransfer;
                                er_amount := Some (num_of_Z 5);
                                er_token := Some "sol"; er_privacy := None |}).
Proof.
  assert (E : result_of ex_offline 0 (pc_transfer ex_pda ex_pool_transfer) ex_empty
              = Ok {| tres_signature := "sig"; tres_provider := PRIVACY_CASH;
                      tres_privacyLevel := COMPLIANT_POOL;
                      tres_fee := nadd (nmul (lit 5 3) (num_of_Z 5))
                                    (nmul (lit 5 3) (num_of_Z 5));
                      tres_anonymitySet := Some (lit 500 0) |}) by reflexivity.
  split; [exact E|].
  exact (proj1 (proj2 (pool_fee_is_estimated (LAWS := DecNumber_laws) ex_pda ex_offline 0
                         ex_empty Dec_mul_comm Dec_mul_two))
           ex_pool_transfer _ E eq_refl eq_refl).
Defined.

End PoolMoreInstances.

(* ================================================================== *)
(** * Where the ShadowWire adapter sends its requests *)
(* ================================================================== *)

Section ShadowWireRequests.

Context {NUM : JsNumber}.

Variable toSmallestUnit : num -> string -> error + Z.

Lemma startsWith_append (a r : string) : Js.startsWith a (a ++ r) = true.
Proof.
  unfold Js.startsWith. induction a as [|c a IH]; cbn [append String.prefix].
  - destruct r; reflexivity.
  - rewrite IH. destruct (Ascii.ascii_dec c c); [reflexivity | congruence].
Qed.

Lemma fetches_under_nil (api : string) : fetches_under api [].
Proof. constructor. Qed.

Lemma fetches_under_app (api : string) (a b : list entry) :
  fetches_under api a -> fetches_under api b -> fetches_under api (a ++ b).
Proof.
  intros Ha Hb. unfold fetches_under, kinds. rewrite List.map_app.
  apply List.Forall_app. split; assumption.
Qed.

Lemma fetches_under_fetch (api : string) (request : HttpRequest)
    (answer : error + HttpResponse) :
  Js.startsWith api (url request) = true -> fetches_under api [Entry (Fetch request) answer].
Proof. intros H. constructor; [exact H | constructor]. Qed.

(** A run that stays in the state [s] and whose requests go to [api]. *)
Lemma under_silent {A : Type} (api : string) (m : SW A) (s : ShadowWireAdapter) :
  (exists o, m s = Ret (o, s)) ->
  every_run m s (fun _ s' tr => s' = s /\ fetches_under api tr).
Proof.
  intros [o E] w n. unfold state_after, trace_of. rewrite E. split; [reflexivity | constructor].
Qed.

Lemma under_bind {A B : Type} (api : string) (m : SW A) (f : A -> SW B)
    (s : ShadowWireAdapter) :
  every_run m s (fun _ s' tr => s' = s /\ fetches_under api tr) ->
  (forall a, every_run (f a) s (fun _ s' tr => s' = s /\ fetches_under api tr)) ->
  every_run (bind m f) s (fun _ s' tr => s' = s /\ fetches_under api tr).
Proof.
  intros Hm Hf. apply every_run_bind. intros w n. destruct (Hm w n) as [Hs Ht].
  rewrite Hs. destruct (result_of w n m s) as [a | e | why]; [|split; auto..].
  eapply every_run_weaken; [apply Hf|]. intros o s' tr [-> H].
  split; [reflexivity | now apply fetches_under_app].
Qed.

Lemma under_try {A : Type} (api : string) (m : SW A) (h : error -> SW A)
    (s : ShadowWireAdapter) :
  every_run m s (fun _ s' tr => s' = s /\ fetches_under api tr) ->
  (forall e, every_run (h e) s (fun _ s' tr => s' = s /\ fetches_under api tr)) ->
  every_run (try_catch m h) s (fun _ s' tr => s' = s /\ fetches_under api tr).
Proof.
  intros Hm Hh. apply every_run_try_catch. intros w n. destruct (Hm w n) as [Hs Ht].
  rewrite Hs. destruct (result_of w n m s) as [a | e | why]; [split; auto | | split; auto].
  eapply every_run_weaken; [apply Hh|]. intros o s' tr [-> H].
  split; [reflexivity | now apply fetches_under_app].
Qed.

Lemma under_request {A X : Type} (api : string) (ev : event X) (k : X -> SW A)
    (s : ShadowWireAdapter) :
  is_fetch (kind_of ev) = false ->
  (forall x, every_run (k x) s (fun _ s' tr => s' = s /\ fetches_under api tr)) ->
  every_run (bind (perform ev) k) s (fun _ s' tr => s' = s /\ fetches_under api tr).
Proof.
  intros Hk Hf. apply under_bind; [|exact Hf].
  intros w n. split; [reflexivity|].
  constructor; [|constructor]. cbn [entry_kind]. destruct (kind_of ev); try exact I.
  discriminate Hk.
Qed.

Lemma under_await {A X : Type} (api : string) (ev : event (error + X)) (k : X -> SW A)
    (s : ShadowWireAdapter) :
  match kind_of ev with KFetch _ address => Js.startsWith api address = true | _ => True end ->
  (forall x, every_run (k x) s (fun _ s' tr => s' = s /\ fetches_under api tr)) ->
  every_run (bind (await ev) k) s (fun _ s' tr => s' = s /\ fetches_under api tr).
Proof.
  intros Hk Hf. apply under_bind; [|exact Hf].
  intros w n. split; [reflexivity|].
  constructor; [exact Hk | constructor].
Qed.

Lemma under_get {A : Type} (api : string) (k : ShadowWireAdapter -> SW A)
    (s : ShadowWireAdapter) :
  every_run (k s) s (fun _ s' tr => s' = s /\ fetches_under api tr) ->
  every_run (bind get_state k) s (fun _ s' tr => s' = s /\ fetches_under api tr).
Proof. intros H w n. exact (H w n). Qed.

Lemma under_retry_loop {A : Type} (api : string) (fn : SW A) (s : ShadowWireAdapter)
    (maxR base maxDelay : Z) (should : error -> bool) (fuel : nat) :
  every_run fn s (fun _ s' tr => s' = s /\ fetches_under api tr) ->
  forall (attempt : Z) (last : option error),
    every_run (retry_loop fn maxR base maxDelay should fuel attempt last) s
      (fun _ s' tr => s' = s /\ fetches_under api tr).
Proof.
  intros Hfn. induction fuel as [|fuel IH]; intros attempt last; cbn [retry_loop].
  - apply under_silent. eexists; reflexivity.
  - apply under_try; [exact Hfn | intros e].
    destruct ((attempt =? maxR)%Z || negb (should e));
      [apply under_silent; eexists; reflexivity|].
    apply under_request; [reflexivity | intros _; apply IH].
Qed.

Lemma under_sw_check_success {A : Type} (api : string) (response : json) (failed : string)
    (k : string -> SW A) (s : ShadowWireAdapter) :
  (forall id, every_run (k id) s (fun _ s' tr => s' = s /\ fetches_under api tr)) ->
  every_run (sw_check_success response failed k) s
    (fun _ s' tr => s' = s /\ fetches_under api tr).
Proof.
  intros Hk. unfold sw_check_success.
  repeat match goal with
         | |- context [match ?x with _ => _ end] => destruct x
         end;
    first [apply Hk | apply under_silent; eexists; reflexivity].
Qed.

Ltac under_pure :=
  apply under_silent; unfold res_json, of_option;
  repeat match goal with
         | |- context [match ?x with _ => _ end] => destruct x
         end;
  eexists; reflexivity.

Lemma under_rethrow_typed {A : Type} (api context : string) (e : error)
    (s : ShadowWireAdapter) :
  every_run (sw_rethrow_typed context e : SW A) s
    (fun _ s' tr => s' = s /\ fetches_under api tr).
Proof. destruct e; apply under_silent; eexists; reflexivity. Qed.

Lemma under_rethrow_transaction {A : Type} (api context : string) (e : error)
    (s : ShadowWireAdapter) :
  every_run (sw_rethrow_transaction context e : SW A) s
    (fun _ s' tr => s' = s /\ fetches_under api tr).
Proof. destruct e; apply under_silent; eexists; reflexivity. Qed.

Lemma under_post_attempt (api path failed : string) (fields : Z -> list (string * json))
    (amount : num) (token : string) (s : ShadowWireAdapter) :
  every_run (sw_post_attempt toSmallestUnit (api ++ path) failed fields amount token) s
    (fun _ s' tr => s' = s /\ fetches_under api tr).
Proof.
  unfold sw_post_attempt. destruct (toSmallestUnit amount token);
    [apply under_silent; eexists; reflexivity|].
  apply under_await; [apply startsWith_append | intros res].
  under_pure.
Qed.

(** X30. The ShadowWire adapter sends its HTTP requests to the address
    it was given and nowhere else: after [setApiUrl(url)], every request
    that [getBalance], [transfer], [deposit] or [withdraw] makes with
    [fetch], first attempts and retries alike, is to an address that
    starts with [url], and the adapter still holds [url] when the method
    has ended. *)
Theorem shadowwire_requests_go_to_api (address : string) (st : ShadowWireAdapter) :
  (forall token owner,
      every_run (bind (setApiUrl address) (fun _ => sw_getBalance token owner)) st
        (fun _ st' tr => sw_apiBaseUrl st' = address /\ fetches_under address tr))
  /\ (forall request,
        every_run (bind (setApiUrl address) (fun _ => sw_transfer request)) st
          (fun _ st' tr => sw_apiBaseUrl st' = address /\ fetches_under address tr))
  /\ (forall request,
        every_run (bind (setApiUrl address) (fun _ => sw_deposit toSmallestUnit request)) st
          (fun _ st' tr => sw_apiBaseUrl st' = address /\ fetches_under address tr))
  /\ (forall request,
        every_run (bind (setApiUrl address) (fun _ => sw_withdraw toSmallestUnit request)) st
          (fun _ st' tr => sw_apiBaseUrl st' = address /\ fetches_under address tr)).
Proof.
  set (st1 := {| sw_base := sw_base st; sw_apiBaseUrl := address |}).
  assert (Set1 : forall (A : Type) (m : SW A),
             every_run m st1 (fun _ s' tr => s' = st1 /\ fetches_under address tr) ->
             every_run (bind (setApiUrl address) (fun _ => m)) st
               (fun _ st' tr => sw_apiBaseUrl st' = address /\ fetches_under address tr)).
  { intros A m H w n. destruct (H w n) as [Hs Ht].
    unfold result_of, state_after, trace_of in *.
    change (bind (setApiUrl address) (fun _ => m) st) with (m st1).
    rewrite Hs. split; [reflexivity | exact Ht]. }
  change address with (sw_apiBaseUrl st1) in Set1 at 1.
  split; [|split; [|split]].
  - intros token owner. apply Set1. unfold sw_getBalance.
    apply under_bind; [unfold ensureReady; under_pure | intros _].
    apply under_get. cbv zeta.
    destruct (String.eqb _ _); [apply under_silent; eexists; reflexivity|].
    destruct (own_property _ _); [|apply under_silent; eexists; reflexivity].
    apply under_try; [|intros e; apply under_silent; eexists; reflexivity].
    apply under_bind.
    + apply under_retry_loop. unfold sw_balance_attempt.
      apply under_await; [cbn [kind_of url]; apply startsWith_append | intros res].
      under_pure.
    + intros response. under_pure.
  - intros request. apply Set1. unfold sw_transfer.
    apply under_bind; [unfold ensureReady; under_pure | intros _].
    apply under_bind; [unfold ensureWallet; under_pure | intros w].
    cbv zeta. destruct (own_property _ _) as [cfg|]; [|apply under_silent; eexists; reflexivity].
    destruct (nltb _ _); [apply under_silent; eexists; reflexivity|].
    apply under_try; [|intros e; apply under_rethrow_typed].
    apply under_request; [reflexivity | intros timestamp].
    apply under_await; [exact I | intros signature].
    apply under_get.
    apply under_bind.
    + apply under_retry_loop. unfold sw_transfer_attempt.
      apply under_await;
        [cbn [kind_of url sw_transfer_post]; apply startsWith_append | intros res].
      under_pure.
    + intros response. apply under_sw_check_success. intros id. under_pure.
  - intros request. apply Set1. unfold sw_deposit.
    apply under_bind; [unfold ensureReady; under_pure | intros _].
    apply under_bind; [unfold ensureWallet; under_pure | intros w].
    cbv zeta. destruct (own_property _ _) as [cfg|]; [|apply under_silent; eexists; reflexivity].
    destruct (nltb _ _); [apply under_silent; eexists; reflexivity|].
    apply under_try; [|intros e; apply under_rethrow_transaction].
    apply under_request; [reflexivity | intros timestamp].
    apply under_await; [exact I | intros signature].
    apply under_get.
    apply under_bind.
    + apply under_retry_loop. apply under_post_attempt.
    + intros response. apply under_sw_check_success. intros id. under_pure.
  - intros request. apply Set1. unfold sw_withdraw.
    apply under_bind; [unfold ensureReady; under_pure | intros _].
    apply under_bind; [unfold ensureWallet; under_pure | intros w].
    cbv zeta. destruct (own_property _ _) as [cfg|]; [|apply under_silent; eexists; reflexivity].
    apply under_try; [|intros e; apply under_rethrow_transaction].
    apply under_request; [reflexivity | intros timestamp].
    apply under_await; [exact I | intros signature].
    apply under_get.
    apply under_bind.
    + apply under_retry_loop. apply under_post_attempt.
    + intros response. apply under_sw_check_success. intros id. under_pure.
Qed.

End ShadowWireRequests.

Section RequestInstances.

#[local] Existing Instance DecNumber.

Lemma shadowwire_requests_go_to_api_witness :
  kinds (trace_of (ex_world 200 ex_accepted) 0
           (bind (setApiUrl "https://other.example") (fun _ => sw_transfer ex_transfer)) ex_sw)
  = [KDateNow; KSignMessage; KFetch "POST" "https://other.example/v1/transfer"]
  /\ fetches_under "https://other.example"
       (trace_of (ex_world 200 ex_accepted) 0
          (bind (setApiUrl "https://other.example") (fun _ => sw_transfer ex_transfer)) ex_sw).
Proof.
  split; [reflexivity|].
  exact (proj2 (proj1 (proj2 (shadowwire_requests_go_to_api ex_units "https://other.example"
                                ex_sw))
                  ex_transfer (ex_world 200 ex_accepted) 0)).
Defined.

End RequestInstances.
